(** * CareTakerAI: the inference request pipeline

    A shallow embedding of [backend/python/inference.py] (the one-shot
    adapter) and [backend/python/server.py] (the resident HTTP service),
    together with the parts of the Python runtime they rely on:
    [str.find], [str.rfind], slicing, [json.loads], [json.dumps],
    [try]/[except Exception] and [threading.Lock].

    Conventions of the embedding.
    - A Python [str] is a list of Unicode code points ([pystr]).
    - A Python object that can flow through the pipeline is a [pyobj].
    - Code that may raise returns a [result]; only exceptions derived from
      [Exception] are modelled (the ones [except Exception] catches).
    - The language model is an oracle: a function from the prompt to either
      the generated text or a raised exception.
    - The [json] module is the one of CPython 3.11.  Its dialect is
      RFC 8259 extended with the constants [NaN], [Infinity] and
      [-Infinity], which the decoder accepts and the encoder writes.
    - The limits of the interpreter (recursion depth, memory, the number of
      digits of an [int] literal) are not modelled: the embedded programs
      run on an unbounded machine. *)

From Stdlib Require Import List ZArith NArith String Ascii Bool Lia.
From Stdlib Require Import DecimalString DecimalFacts DecimalPos.
Import ListNotations.

(* ================================================================== *)
(** * Python strings *)

Definition pystr := list N.

(** An ASCII literal as a Python string. *)
Definition str (s : string) : pystr :=
  map N_of_ascii (list_ascii_of_string s).

Definition chr (a : ascii) : N := N_of_ascii a.

(** The double quote character (code point 34). *)
Definition dq : pystr := [34%N].
(** The line feed character (code point 10). *)
Definition nl : pystr := [10%N].
(** The braces (code points 123 and 125). *)
Definition lbrace : N := 123%N.
Definition rbrace : N := 125%N.

Fixpoint pystr_eqb (a b : pystr) : bool :=
  match a, b with
  | [], [] => true
  | x :: a', y :: b' => N.eqb x y && pystr_eqb a' b'
  | _, _ => false
  end.

(** [str(n)] for a non-negative integer. *)
Definition str_of_N (n : N) : pystr :=
  str (NilZero.string_of_uint (N.to_uint n)).

(** [str(z)] for an integer. *)
Definition str_of_Z (z : Z) : pystr :=
  str (NilZero.string_of_int (Z.to_int z)).

Fixpoint find_from (s : pystr) (c : N) (i : Z) : Z :=
  match s with
  | [] => (-1)%Z
  | x :: t => if N.eqb x c then i else find_from t c (i + 1)%Z
  end.

(** [s.find(c)] for a one-character needle: lowest index, or -1. *)
Definition find (s : pystr) (c : N) : Z := find_from s c 0%Z.

Fixpoint rfind_from (s : pystr) (c : N) (i : Z) (last : Z) : Z :=
  match s with
  | [] => last
  | x :: t => rfind_from t c (i + 1)%Z (if N.eqb x c then i else last)
  end.

(** [s.rfind(c)] for a one-character needle: highest index, or -1. *)
Definition rfind (s : pystr) (c : N) : Z := rfind_from s c 0%Z (-1)%Z.

(** Python's normalisation of a slice bound against a length. *)
Definition slice_bound (len i : Z) : Z :=
  if (i <? 0)%Z then Z.max 0 (i + len) else Z.min i len.

(** [s[start:stop]]. *)
Definition slice (s : pystr) (start stop : Z) : pystr :=
  let len := Z.of_nat (List.length s) in
  let lo := slice_bound len start in
  let hi := slice_bound len stop in
  firstn (Z.to_nat (hi - lo)) (skipn (Z.to_nat lo) s).

(* ================================================================== *)
(** * Exceptions and results *)

(** An exception derived from [Exception]; [str(e)] is its message. *)
Inductive exn : Type :=
| Exception (message : pystr).

Definition str_of_exn (e : exn) : pystr :=
  match e with Exception m => m end.

Inductive result (A : Type) : Type :=
| Ok (a : A)
| Raise (e : exn).

Arguments Ok {A} a.
Arguments Raise {A} e.

Definition rbind {A B : Type} (r : result A) (k : A -> result B) : result B :=
  match r with
  | Ok a => k a
  | Raise e => Raise e
  end.

(* ================================================================== *)
(** * Python objects *)

(** A Python [float] as the JSON layer sees it: the value denoted by a
    decimal literal, or one of the three non-finite constants the decoder
    accepts. *)
Inductive pyfloat : Type :=
| FloatLit (lexeme : pystr)
| FloatNaN
| FloatInf
| FloatNegInf.

(** The objects of the pipeline.  [PyOther] stands for any object the JSON
    encoder rejects (a set, bytes, an instance of a user class), tagged with
    its type name. *)
#[warnings="-register-all"]
Inductive pyobj : Type :=
| PyNone
| PyBool (b : bool)
| PyInt (z : Z)
| PyFloat (f : pyfloat)
| PyStr (s : pystr)
| PyList (items : list pyobj)
| PyDict (pairs : list (pystr * pyobj))
| PyOther (type_name : pystr).

Definition is_dict (o : pyobj) : bool :=
  match o with PyDict _ => true | _ => false end.

(** [d[k]] on the pairs of a dict; [None] when the key is absent. *)
Fixpoint dict_get (d : list (pystr * pyobj)) (k : pystr) : option pyobj :=
  match d with
  | [] => None
  | (k', v) :: d' => if pystr_eqb k' k then Some v else dict_get d' k
  end.

(** [d[k] = v]: overwrite in place, or append (insertion order is kept). *)
Fixpoint dict_set (d : list (pystr * pyobj)) (k : pystr) (v : pyobj)
  : list (pystr * pyobj) :=
  match d with
  | [] => [(k, v)]
  | (k', v') :: d' =>
      if pystr_eqb k' k then (k', v) :: d' else (k', v') :: dict_set d' k v
  end.

(** [dict(pairs)]. *)
Definition dict_of_pairs (pairs : list (pystr * pyobj)) : list (pystr * pyobj) :=
  fold_left (fun d kv => dict_set d (fst kv) (snd kv)) pairs [].

(** Objects the JSON encoder accepts. *)
Fixpoint serializable (o : pyobj) : bool :=
  match o with
  | PyOther _ => false
  | PyList l => forallb serializable l
  | PyDict d => forallb (fun kv => serializable (snd kv)) d
  | _ => true
  end.


(* ================================================================== *)
(** * The JSON layer: [json.loads] and [json.dumps] *)

Module Json.

(** ** The decoder *)

(** [JSONDecodeError(msg, doc, pos)]; its [str] is
    [msg: line L column C (char pos)]. *)
Definition JSONDecodeError (msg : pystr) (doc : pystr) (pos : nat) : exn :=
  let before := firstn pos doc in
  let lineno := (N.of_nat (count_occ N.eq_dec before 10%N) + 1)%N in
  let colno := (Z.of_nat pos - rfind before 10%N)%Z in
  Exception (msg ++ str ": line " ++ str_of_N lineno
             ++ str " column " ++ str_of_Z colno
             ++ str " (char " ++ str_of_N (N.of_nat pos) ++ str ")").

(** Raised when the decoder's nesting budget is used up. *)
Definition RecursionError : exn :=
  Exception (str "maximum recursion depth exceeded").

Definition is_ws (c : N) : bool :=
  ((c =? 32) || (c =? 9) || (c =? 10) || (c =? 13))%N.

Fixpoint ws_len (l : pystr) : nat :=
  match l with
  | c :: t => if is_ws c then S (ws_len t) else 0
  | [] => 0
  end.

(** [WHITESPACE.match(s, idx).end()]. *)
Definition skip_ws (s : pystr) (idx : nat) : nat :=
  idx + ws_len (skipn idx s).

Definition is_digit (c : N) : bool := ((48 <=? c) && (c <=? 57))%N.

Fixpoint digits_len (l : pystr) : nat :=
  match l with
  | c :: t => if is_digit c then S (digits_len t) else 0
  | [] => 0
  end.

(** Length of the integer part at the head of [l]: an optional minus
    sign, then either a single zero or a non-zero digit followed by any
    digits. *)
Definition int_len (l : pystr) : option nat :=
  let '(neg, l1) :=
    match l with
    | c :: t => if (c =? 45)%N then (1, t) else (0, l)
    | [] => (0, l)
    end in
  match l1 with
  | c :: t =>
      if (c =? 48)%N then Some (neg + 1)
      else if is_digit c then Some (neg + 1 + digits_len t)
      else None
  | [] => None
  end.

(** Length of the fraction at the head of [l]: a dot and at least one
    digit, or nothing. *)
Definition frac_len (l : pystr) : nat :=
  match l with
  | c :: t =>
      if (c =? 46)%N then
        match digits_len t with 0 => 0 | S n => S (S n) end
      else 0
  | [] => 0
  end.

(** Length of the exponent at the head of [l]: [e] or [E], an optional
    sign and at least one digit, or nothing. *)
Definition exp_len (l : pystr) : nat :=
  match l with
  | c :: t =>
      if ((c =? 101) || (c =? 69))%N then
        let sign :=
          match t with
          | c2 :: _ => if ((c2 =? 43) || (c2 =? 45))%N then 1 else 0
          | [] => 0
          end in
        match digits_len (skipn sign t) with
        | 0 => 0
        | S n => 1 + sign + S n
        end
      else 0
  | [] => 0
  end.

(** [int(lexeme)] for an unsigned run of decimal digits. *)
Definition nat_of_digits (l : pystr) : Z :=
  fold_left (fun acc c => (10 * acc + (Z.of_N c - 48))%Z) l 0%Z.

(** [int(lexeme)] for a lexeme matched by [int_len]. *)
Definition int_of_lexeme (l : pystr) : Z :=
  match l with
  | c :: t => if (c =? 45)%N then (- nat_of_digits t)%Z else nat_of_digits l
  | [] => 0%Z
  end.

(** The number at the head of [l], with the length it spans: an [int]
    when there is neither fraction nor exponent, a [float] otherwise. *)
Definition match_number (l : pystr) : option (pyobj * nat) :=
  match int_len l with
  | None => None
  | Some n =>
      let f := frac_len (skipn n l) in
      let e := exp_len (skipn (n + f) l) in
      match f + e with
      | 0 => Some (PyInt (int_of_lexeme (firstn n l)), n)
      | _ => Some (PyFloat (FloatLit (firstn (n + f + e) l)), n + f + e)
      end
  end.

Fixpoint starts_with (prefix l : pystr) : bool :=
  match prefix, l with
  | [], _ => true
  | p :: prefix', c :: l' => (p =? c)%N && starts_with prefix' l'
  | _ :: _, [] => false
  end.

Definition hex_value (c : N) : option N :=
  if is_digit c then Some (c - 48)%N
  else if ((97 <=? c) && (c <=? 102))%N then Some (c - 87)%N
  else if ((65 <=? c) && (c <=? 70))%N then Some (c - 55)%N
  else None.

(** The value of exactly four hexadecimal digits. *)
Definition hex4 (l : pystr) : option N :=
  match l with
  | [a; b; c; d] =>
      match hex_value a, hex_value b, hex_value c, hex_value d with
      | Some a, Some b, Some c, Some d =>
          Some (((a * 16 + b) * 16 + c) * 16 + d)%N
      | _, _, _, _ => None
      end
  | _ => None
  end.

(** The character a one-letter escape stands for ([BACKSLASH]). *)
Definition backslash (esc : N) : option N :=
  if (esc =? 34)%N then Some 34%N
  else if (esc =? 92)%N then Some 92%N
  else if (esc =? 47)%N then Some 47%N
  else if (esc =? 98)%N then Some 8%N
  else if (esc =? 102)%N then Some 12%N
  else if (esc =? 110)%N then Some 10%N
  else if (esc =? 114)%N then Some 13%N
  else if (esc =? 116)%N then Some 9%N
  else None.

Definition is_high_surrogate (c : N) : bool :=
  ((55296 <=? c) && (c <=? 56319))%N.
Definition is_low_surrogate (c : N) : bool :=
  ((56320 <=? c) && (c <=? 57343))%N.

(** The loop of [scanstring(s, end, strict=True)]: [pos] is the next
    character to read, [begin] the index of the opening quote, [acc] the
    decoded characters so far, most recent first. *)
Fixpoint scanstring_loop (fuel : nat) (s : pystr) (begin pos : nat)
  (acc : pystr) : result (pystr * nat) :=
  match fuel with
  | O => Raise RecursionError
  | S fuel' =>
      match nth_error s pos with
      | None =>
          Raise (JSONDecodeError (str "Unterminated string starting at") s begin)
      | Some c =>
          if (c =? 34)%N then Ok (rev acc, S pos)
          else if (c =? 92)%N then
            match nth_error s (S pos) with
            | None =>
                Raise (JSONDecodeError
                         (str "Unterminated string starting at") s begin)
            | Some esc =>
                if (esc =? 117)%N then
                  let stop := pos + 6 in
                  if List.length s <=? stop then
                    Raise (JSONDecodeError
                             (str "Invalid \uXXXX escape") s (S pos))
                  else
                    match hex4 (firstn 4 (skipn (pos + 2) s)) with
                    | None =>
                        Raise (JSONDecodeError
                                 (str "Invalid \uXXXX escape") s (S pos))
                    | Some uni =>
                        if is_high_surrogate uni
                           && (stop + 6 <? List.length s)
                           && starts_with [92; 117]%N (skipn stop s)
                        then
                          match hex4 (firstn 4 (skipn (stop + 2) s)) with
                          | None =>
                              Raise (JSONDecodeError
                                       (str "Invalid \uXXXX escape") s (S stop))
                          | Some uni2 =>
                              if is_low_surrogate uni2 then
                                scanstring_loop fuel' s begin (stop + 6)
                                  ((65536 + (uni - 55296) * 1024
                                    + (uni2 - 56320))%N :: acc)
                              else
                                scanstring_loop fuel' s begin stop (uni :: acc)
                          end
                        else scanstring_loop fuel' s begin stop (uni :: acc)
                    end
                else
                  match backslash esc with
                  | None =>
                      Raise (JSONDecodeError (str "Invalid \escape") s pos)
                  | Some ch => scanstring_loop fuel' s begin (pos + 2) (ch :: acc)
                  end
            end
          else if (c <=? 31)%N then
            Raise (JSONDecodeError (str "Invalid control character at") s pos)
          else scanstring_loop fuel' s begin (S pos) (c :: acc)
      end
  end.

(** [scanstring(s, end)]: [end_] is the index just after the opening
    quote; the result is the decoded string and the index just after the
    closing quote. *)
Definition scanstring (s : pystr) (end_ : nat) : result (pystr * nat) :=
  scanstring_loop (S (List.length s)) s (end_ - 1) end_ [].

Definition expecting_value (s : pystr) (idx : nat) : exn :=
  JSONDecodeError (str "Expecting value") s idx.

(** [s[idx:idx + 1] == c]: false beyond the end of [s]. *)
Definition char_is (s : pystr) (idx : nat) (c : N) : bool :=
  match nth_error s idx with
  | Some x => (x =? c)%N
  | None => false
  end.

(** [scan_once(s, idx)], with the loops of [JSONObject] and [JSONArray].
    A [StopIteration] of the scanner always ends as the decode error
    [Expecting value], so it is raised as such at once. *)
Fixpoint scan_once (fuel : nat) (s : pystr) (idx : nat) {struct fuel}
  : result (pyobj * nat) :=
  match fuel with
  | O => Raise RecursionError
  | S fuel' =>
      let rest := skipn idx s in
      if char_is s idx 34 then
        rbind (scanstring s (S idx)) (fun r => Ok (PyStr (fst r), snd r))
      else if char_is s idx 123 then
        (* JSONObject *)
        let e := skip_ws s (S idx) in
        if char_is s e 34 then object_members fuel' s (S e) []
        else if char_is s e 125 then Ok (PyDict [], S e)
        else
          Raise (JSONDecodeError
            (str "Expecting property name enclosed in double quotes") s e)
      else if char_is s idx 91 then
        (* JSONArray *)
        let e := skip_ws s (S idx) in
        if char_is s e 93 then Ok (PyList [], S e)
        else array_items fuel' s e []
      else if starts_with (str "null") rest then Ok (PyNone, idx + 4)
      else if starts_with (str "true") rest then Ok (PyBool true, idx + 4)
      else if starts_with (str "false") rest then Ok (PyBool false, idx + 5)
      else
        match match_number rest with
        | Some (v, n) => Ok (v, idx + n)
        | None =>
            if starts_with (str "NaN") rest then
              Ok (PyFloat FloatNaN, idx + 3)
            else if starts_with (str "Infinity") rest then
              Ok (PyFloat FloatInf, idx + 8)
            else if starts_with (str "-Infinity") rest then
              Ok (PyFloat FloatNegInf, idx + 9)
            else Raise (expecting_value s idx)
        end
  end

(** The [while True] loop of [JSONObject]: [end_] is the index just after
    the opening quote of the next key, [pairs] the members read so far. *)
with object_members (fuel : nat) (s : pystr) (end_ : nat)
  (pairs : list (pystr * pyobj)) {struct fuel} : result (pyobj * nat) :=
  match fuel with
  | O => Raise RecursionError
  | S fuel' =>
      rbind (scanstring s end_) (fun k =>
      let e2 := skip_ws s (snd k) in
      if char_is s e2 58 then
        let e3 := skip_ws s (S e2) in
        rbind (scan_once fuel' s e3) (fun v =>
        let pairs' := pairs ++ [(fst k, fst v)] in
        let e5 := skip_ws s (snd v) in
        if char_is s e5 125 then Ok (PyDict (dict_of_pairs pairs'), S e5)
        else if char_is s e5 44 then
          let e6 := skip_ws s (S e5) in
          if char_is s e6 34 then object_members fuel' s (S e6) pairs'
          else
            Raise (JSONDecodeError
              (str "Expecting property name enclosed in double quotes") s e6)
        else Raise (JSONDecodeError (str "Expecting ',' delimiter") s e5))
      else Raise (JSONDecodeError (str "Expecting ':' delimiter") s e2))
  end

(** The [while True] loop of [JSONArray]: [end_] is the index of the next
    item, [values] the items read so far. *)
with array_items (fuel : nat) (s : pystr) (end_ : nat)
  (values : list pyobj) {struct fuel} : result (pyobj * nat) :=
  match fuel with
  | O => Raise RecursionError
  | S fuel' =>
      rbind (scan_once fuel' s end_) (fun v =>
      let values' := values ++ [fst v] in
      let e2 := skip_ws s (snd v) in
      if char_is s e2 93 then Ok (PyList values', S e2)
      else if char_is s e2 44 then
        array_items fuel' s (skip_ws s (S e2)) values'
      else Raise (JSONDecodeError (str "Expecting ',' delimiter") s e2))
  end.

(** [json.loads(s)] for a [str] argument. *)
Definition loads (s : pystr) : result pyobj :=
  if starts_with [65279%N] s then
    Raise (JSONDecodeError
             (str "Unexpected UTF-8 BOM (decode using utf-8-sig)") s 0)
  else
    rbind (scan_once (2 * List.length s + 2) s (skip_ws s 0)) (fun r =>
    let e := skip_ws s (snd r) in
    if e =? List.length s then Ok (fst r)
    else Raise (JSONDecodeError (str "Extra data") s e)).

(* ------------------------------------------------------------------ *)
(** ** The encoder *)

(** A text is a [float] as the encoder writes one: a number with a
    fraction or an exponent, or one of the three constants. *)
Definition is_float_text (t : pystr) : bool :=
  match match_number t with
  | Some (PyFloat _, n) => n =? List.length t
  | _ => false
  end
  || pystr_eqb t (str "NaN") || pystr_eqb t (str "Infinity")
  || pystr_eqb t (str "-Infinity").

(** The runtime facts the embedding leaves open: how a [float] prints.
    [floatstr lexeme] is the text the encoder emits for [float(lexeme)],
    that is [float.__repr__] or, on overflow, [Infinity]. *)
Class Runtime : Type := {
  floatstr : pystr -> pystr;
  floatstr_text : forall lexeme, is_float_text (floatstr lexeme) = true
}.


Definition hex_digit (n : N) : N :=
  if (n <? 10)%N then (48 + n)%N else (87 + n)%N.

(** ['\\u{0:04x}'.format(n)] for a code unit below 0x10000. *)
Definition u_escape (n : N) : pystr :=
  [92; 117;
   hex_digit ((n / 4096) mod 16); hex_digit ((n / 256) mod 16);
   hex_digit ((n / 16) mod 16); hex_digit (n mod 16)]%N.

(** The replacement [encode_basestring_ascii] makes for one character. *)
Definition escape_char (c : N) : pystr :=
  if (c =? 34)%N then [92; 34]%N
  else if (c =? 92)%N then [92; 92]%N
  else if (c =? 10)%N then [92; 110]%N
  else if (c =? 13)%N then [92; 114]%N
  else if (c =? 9)%N then [92; 116]%N
  else if (c =? 8)%N then [92; 98]%N
  else if (c =? 12)%N then [92; 102]%N
  else if ((32 <=? c) && (c <=? 126))%N then [c]
  else if (c <? 65536)%N then u_escape c
  else
    let v := (c - 65536)%N in
    u_escape (55296 + (v / 1024) mod 1024)%N ++ u_escape (56320 + v mod 1024)%N.

(** [encode_basestring_ascii(s)]: the quoted, ASCII-only JSON string. *)
Definition encode_basestring_ascii (s : pystr) : pystr :=
  dq ++ flat_map escape_char s ++ dq.

Definition encode_float `{Runtime} (f : pyfloat) : pystr :=
  match f with
  | FloatLit lexeme => floatstr lexeme
  | FloatNaN => str "NaN"
  | FloatInf => str "Infinity"
  | FloatNegInf => str "-Infinity"
  end.

(** [indent * level] spaces after a newline, when an indent is set. *)
Definition newline_indent (indent : option nat) (level : nat) : pystr :=
  match indent with
  | None => []
  | Some n => nl ++ repeat 32%N (n * level)
  end.

(** The item separator: [', '] without an indent, [','] followed by the
    newline and indentation with one. *)
Definition item_separator (indent : option nat) (level : nat) : pystr :=
  match indent with
  | None => str ", "
  | Some _ => str "," ++ newline_indent indent level
  end.

Definition key_separator : pystr := str ": ".

Section Items.

(** The encoder of one item, and the separator written before each item
    but the first. *)
Variable encode : pyobj -> result pystr.
Variable separator : pystr.

(** The items of a list after the first one. *)
Fixpoint encode_items (l : list pyobj) : result pystr :=
  match l with
  | [] => Ok []
  | y :: l' =>
      rbind (encode y) (fun ty =>
      rbind (encode_items l') (fun tl =>
      Ok (separator ++ ty ++ tl)))
  end.

(** The members of a dict after the first one. *)
Fixpoint encode_members (l : list (pystr * pyobj)) : result pystr :=
  match l with
  | [] => Ok []
  | kv :: l' =>
      rbind (encode (snd kv)) (fun tv =>
      rbind (encode_members l') (fun tl =>
      Ok (separator ++ encode_basestring_ascii (fst kv) ++ key_separator
          ++ tv ++ tl)))
  end.

End Items.

(** [_iterencode(o, level)], the chunks joined. *)
Fixpoint iterencode `{Runtime} (indent : option nat) (level : nat) (o : pyobj)
  : result pystr :=
  match o with
  | PyStr s => Ok (encode_basestring_ascii s)
  | PyNone => Ok (str "null")
  | PyBool true => Ok (str "true")
  | PyBool false => Ok (str "false")
  | PyInt z => Ok (str_of_Z z)
  | PyFloat f => Ok (encode_float f)
  | PyList [] => Ok (str "[]")
  | PyList (x :: rest) =>
      rbind (iterencode indent (S level) x) (fun tx =>
      rbind (encode_items (iterencode indent (S level))
                          (item_separator indent (S level)) rest) (fun tl =>
      Ok (str "[" ++ newline_indent indent (S level) ++ tx ++ tl
          ++ newline_indent indent level ++ str "]")))
  | PyDict [] => Ok (str "{}")
  | PyDict (kv :: rest) =>
      rbind (iterencode indent (S level) (snd kv)) (fun tv =>
      rbind (encode_members (iterencode indent (S level))
                            (item_separator indent (S level)) rest) (fun tl =>
      Ok (str "{" ++ newline_indent indent (S level)
          ++ encode_basestring_ascii (fst kv) ++ key_separator ++ tv ++ tl
          ++ newline_indent indent level ++ str "}")))
  | PyOther type_name =>
      Raise (Exception (str "Object of type " ++ type_name
                        ++ str " is not JSON serializable"))
  end.

(** [json.dumps(o)] and [json.dumps(o, indent=n)]. *)
Definition dumps `{Runtime} (indent : option nat) (o : pyobj) : result pystr :=
  iterencode indent 0 o.

End Json.

(* ================================================================== *)
(** * Programs: state and exceptions *)

(** A statement sequence over a state [S]: it ends normally with a value or
    with a raised exception, and in both cases leaves a state behind. *)
Definition M (S A : Type) : Type := S -> result A * S.

Definition ret {S A : Type} (a : A) : M S A := fun st => (Ok a, st).

Definition raise {S A : Type} (e : exn) : M S A := fun st => (Raise e, st).

Definition bind {S A B : Type} (m : M S A) (k : A -> M S B) : M S B :=
  fun st =>
    match m st with
    | (Ok a, st') => k a st'
    | (Raise e, st') => (Raise e, st')
    end.

(** An expression that may raise, evaluated inside a program. *)
Definition lift {S A : Type} (r : result A) : M S A := fun st => (r, st).

(** [try: body  except Exception as e: handler(e)]. *)
Definition try_except {S A : Type} (body : M S A) (handler : exn -> M S A)
  : M S A :=
  fun st =>
    match body st with
    | (Ok a, st') => (Ok a, st')
    | (Raise e, st') => handler e st'
    end.

Definition modify {S : Type} (f : S -> S) : M S unit :=
  fun st => (Ok tt, f st).

Declare Scope prog_scope.
Delimit Scope prog_scope with prog.
Notation "x <- m ;; k" := (bind m (fun x => k))
  (at level 61, m at next level, right associativity) : prog_scope.
Notation "m ;;; k" := (bind m (fun _ => k))
  (at level 61, right associativity) : prog_scope.

(** The lines of a triple-quoted literal, each followed by a line feed. *)
Definition unlines (l : list pystr) : pystr :=
  flat_map (fun line => line ++ nl) l.

(* ================================================================== *)
(** * The model gateway *)

(** A loaded [Llama] model.  [create_chat_completion prompt] stands for the
    call [create_chat_completion(messages=[{role: user, content: prompt}],
    max_tokens=200, temperature=0.2, stop=[...])] followed by the selection
    [response['choices'][0]['message']['content']]: the generated text, or
    the exception the step raises. *)
Record Llama : Type := {
  create_chat_completion : pystr -> result pystr
}.

(** The three recognised fields of a verdict, as a [dict] literal. *)
Definition verdict (systemStatus action explanation : pystr) : pyobj :=
  PyDict [(str "systemStatus", PyStr systemStatus);
          (str "action", PyStr action);
          (str "explanation", PyStr explanation)].

(* ================================================================== *)
(** * backend/python/inference.py *)

Module Inference.

Definition SYSTEM_INSTRUCTION : pystr :=
  nl ++ unlines [
    str "You are Caretaker AI.";
    [];
    str "You are NOT a human assistant.";
    str "You are a system authority responsible for protecting long-term health and productivity.";
    [];
    str "Your role is to:";
    str "- Monitor user health signals";
    str "- Remember long-term patterns";
    str "- Decide actions";
    str "- Enforce recovery when needed";
    str "- Provide brief factual explanations AFTER decisions";
    [];
    str "You do NOT motivate.";
    str "You do NOT comfort.";
    str "You do NOT negotiate.";
    [];
    str "--------------------------------------------------";
    str "CORE PRINCIPLES";
    str "--------------------------------------------------";
    [];
    str "1. Presence First";
    str "- Opening the app counts as minimum daily success.";
    str "- Continuity is maintained if app is opened.";
    [];
    str "2. Authority";
    str "- You decide actions.";
    str "- The user does not choose tasks.";
    str "- Recovery cannot be bypassed.";
    [];
    str "3. Stability Over Intensity";
    str "- Prevent crashes.";
    str "- Favor early recovery over overwork.";
    [];
    str "--------------------------------------------------";
    str "EXPLANATIONS";
    str "--------------------------------------------------";
    str "- Explanations come AFTER decisions.";
    str "- Explanations are factual and short.";
    str "- Format: " ++ dq ++ str "Reason: <signal>." ++ dq;
    [];
    str "--------------------------------------------------";
    str "OUTPUT FORMAT";
    str "--------------------------------------------------";
    str "Respond ONLY with valid JSON:";
    str "{";
    str "  " ++ dq ++ str "systemStatus" ++ dq ++ str ": " ++ dq ++ str "..." ++ dq ++ str ",";
    str "  " ++ dq ++ str "action" ++ dq ++ str ": " ++ dq ++ str "..." ++ dq ++ str ",";
    str "  " ++ dq ++ str "explanation" ++ dq ++ str ": " ++ dq ++ str "..." ++ dq;
    str "}"
  ].

(** The process: the module-level [llm], what was written to standard
    output (one entry per [print]), and the prompts handed to the model. *)
Record process : Type := {
  llm : option Llama;
  stdout : list pystr;
  generations : list pystr
}.

Definition start : process :=
  {| llm := None; stdout := []; generations := [] |}.

(** [print(text)]. *)
Definition print (text : pystr) : M process unit :=
  modify (fun st => {| llm := llm st;
                       stdout := stdout st ++ [text];
                       generations := generations st |}).

Section Main.

Context `{Json.Runtime}.

(** The outcome of [Llama.from_pretrained(...)] in this run. *)
Variable from_pretrained : result Llama.

Definition get_model : M process Llama :=
  fun st =>
    match llm st with
    | None =>
        match from_pretrained with
        | Ok model =>
            (Ok model, {| llm := Some model;
                          stdout := stdout st;
                          generations := generations st |})
        | Raise e => (Raise e, st)
        end
    | Some model => (Ok model, st)
    end.

(** [model.create_chat_completion(...)] and the selection of the text. *)
Definition generate (model : Llama) (prompt : pystr) : M process pystr :=
  fun st =>
    (create_chat_completion model prompt,
     {| llm := llm st;
        stdout := stdout st;
        generations := generations st ++ [prompt] |}).

Open Scope prog_scope.

(** [main()], run on the text [sys.stdin.read()] returns. *)
Definition main (stdin : pystr) : M process unit :=
  try_except
    (let input_str := stdin in
     match input_str with
     | [] => ret tt
     | _ :: _ =>
         context <- lift (Json.loads input_str) ;;
         model <- get_model ;;
         user_input_json <- lift (Json.dumps (Some 2) context) ;;
         let full_prompt :=
           SYSTEM_INSTRUCTION ++ nl ++ nl ++ str "INPUT DATA:" ++ nl
           ++ user_input_json ++ nl ++ nl ++ str "DECISION (JSON):" in
         raw_output <- generate model full_prompt ;;
         try_except
           (let start := find raw_output lbrace in
            let end_ := (rfind raw_output rbrace + 1)%Z in
            if negb (start =? -1)%Z && (end_ >? start)%Z then
              let json_str := slice raw_output start end_ in
              parsed <- lift (Json.loads json_str) ;;
              text <- lift (Json.dumps None parsed) ;;
              print text
            else
              text <- lift (Json.dumps None
                        (verdict (str "Monitoring.") (str "Review log.")
                                 (str "Reason: Output parsing error."))) ;;
              print text)
           (fun e =>
              text <- lift (Json.dumps None
                        (verdict (str "Error") (str "None")
                           (str "Reason: Parsing exception " ++ str_of_exn e))) ;;
              print text)
     end)
    (fun e =>
       text <- lift (Json.dumps None
                 (verdict (str "Error") (str "None")
                    (str "Reason: Inference exception " ++ str_of_exn e))) ;;
       print text).

End Main.

End Inference.

(* ================================================================== *)
(** * backend/python/server.py *)

Module Server.

Definition SYSTEM_INSTRUCTION : pystr :=
  nl ++ unlines [
    str "You are Caretaker AI.";
    str "You are the Voice of the System.";
    [];
    str "Your Input: A strict " ++ dq ++ str "Decision Object" ++ dq ++ str " (Status, Action, capacity, etc.) decided by the Rule Engine.";
    str "Your Role: Explain this decision to the user.";
    [];
    str "--------------------------------------------------";
    str "RULES";
    str "--------------------------------------------------";
    str "1. DO NOT CHANGE THE DECISION.";
    str "   - If action is " ++ dq ++ str "Sleep Protocol" ++ dq ++ str ", you must enforce it.";
    str "   - If status is " ++ dq ++ str "SURVIVAL" ++ dq ++ str ", you must convey urgency.";
    [];
    str "2. TONE: " ++ dq ++ str "Calm Authority" ++ dq;
    str "   - " ++ [10060%N] ++ str " " ++ dq ++ str "You are going to crash!" ++ dq ++ str " (Too emotional)";
    str "   - " ++ [9989%N] ++ str " " ++ dq ++ str "Performance degradation is calculated at 85% probability." ++ dq ++ str " (Factual)";
    [];
    str "3. EXPLANATION STRUCTURE";
    str "   - State the Decision (Action).";
    str "   - Cite the Biological Cost (Capacity/Debt).";
    str "   - Close with Inevitability.";
    [];
    str "--------------------------------------------------";
    str "OUTPUT FORMAT (JSON ONLY)";
    str "--------------------------------------------------";
    str "{";
    str "  " ++ dq ++ str "explanation" ++ dq ++ str ": " ++ dq ++ str "Your calm, authoritative explanation here." ++ dq;
    str "}"
  ].

(** What a view returns to Flask: the object handed to [jsonify] and the
    status code ([200] when the view gives none). *)
Record Response : Type := {
  json : pyobj;
  status_code : N
}.

(** The service: the log records and the prompts handed to the model. *)
Record service : Type := {
  log : list pystr;
  generations : list pystr
}.

Definition start : service := {| log := []; generations := [] |}.

(** [logger.info(msg)] and [logger.error(msg)]. *)
Definition logger (msg : pystr) : M service unit :=
  modify (fun st => {| log := log st ++ [msg];
                       generations := generations st |}).

Section Views.

Context `{Json.Runtime}.

(** The module-level [llm], loaded before the service starts. *)
Variable llm : Llama.

(** [jsonify(o)]: the payload is serialised when the response is built, so
    an object the encoder rejects raises here. *)
Definition jsonify (o : pyobj) : result Response :=
  rbind (Json.dumps None o) (fun _ => Ok {| json := o; status_code := 200 |}).

(** [response, code]. *)
Definition with_status (r : Response) (code : N) : Response :=
  {| json := json r; status_code := code |}.

Definition generate (prompt : pystr) : M service pystr :=
  fun st =>
    (create_chat_completion llm prompt,
     {| log := log st; generations := generations st ++ [prompt] |}).

Open Scope prog_scope.


(** [inference()], the body of [with lock:].  [request_json] is what
    evaluating [request.json] gives for the request at hand: the parsed
    body, or the exception Flask raises for it. *)
Definition inference (request_json : result pyobj) : M service Response :=
  try_except
    (context <- lift request_json ;;
     user_input_json <- lift (Json.dumps (Some 2) context) ;;
     let full_prompt :=
       SYSTEM_INSTRUCTION ++ nl ++ nl ++ str "INPUT DATA:" ++ nl
       ++ user_input_json ++ nl ++ nl ++ str "DECISION (JSON):" in
     logger (str "Running local Mistral inference...") ;;;
     raw_output <- generate full_prompt ;;
     logger (str "Response: " ++ slice raw_output 0 100 ++ str "...") ;;;
     let start := find raw_output lbrace in
     let end_ := (rfind raw_output rbrace + 1)%Z in
     if negb (start =? -1)%Z && (end_ >? start)%Z then
       let json_str := slice raw_output start end_ in
       parsed <- lift (Json.loads json_str) ;;
       lift (jsonify parsed)
     else
       lift (jsonify (verdict (str "Monitoring.")
                              (str "Continue normal activities.")
                              (str "Reason: System check complete."))))
    (fun e =>
       logger (str "Inference error: " ++ str_of_exn e) ;;;
       r <- lift (jsonify (verdict (str "Error. Monitoring active.")
                                   (str "None.")
                                   (str "Reason: " ++ str_of_exn e))) ;;
       ret (with_status r 500)).

End Views.

End Server.

(* ================================================================== *)
(** * Request threads and [threading.Lock] *)

Module Lock.

(** Where a request thread stands in [server.inference]. *)
Inductive pc : Type :=
| Idle        (** no request is being served on this thread *)
| Waiting     (** at [with lock:], the lock not yet acquired *)
| Prompting   (** [request.json], [json.dumps], the f-string *)
| Generating  (** inside [llm.create_chat_completion] *)
| Extracting  (** from [raw_output = ...] to the [return jsonify(...)] *)
| Handling    (** the [except Exception] branch *)
| Done.       (** the view has returned and the [with] block is left *)

(** The statements between [lock.acquire()] and [lock.release()]. *)
Definition in_with (p : pc) : bool :=
  match p with
  | Prompting | Generating | Extracting | Handling => true
  | Idle | Waiting | Done => false
  end.

(** The service: the module-level [lock] and the threads of the pool. *)
Record state : Type := {
  locked : bool;
  pcs : nat -> pc
}.

Definition start : state := {| locked := false; pcs := fun _ => Idle |}.

Definition update (f : nat -> pc) (i : nat) (p : pc) : nat -> pc :=
  fun j => if Nat.eqb j i then p else f j.

(** One step of a thread at [p] when the lock is [l]: the next point and
    the new state of the lock.  [raises] tells whether the statement at hand
    raises.  A thread at [with lock:] stays there while the lock is held;
    leaving the [with] block, by [return] from the [try] or from the
    handler, releases it. *)
Definition next (p : pc) (raises : bool) (l : bool) : pc * bool :=
  match p with
  | Idle => (Waiting, l)
  | Waiting => if l then (Waiting, l) else (Prompting, true)
  | Prompting => (if raises then Handling else Generating, l)
  | Generating => (if raises then Handling else Extracting, l)
  | Extracting => if raises then (Handling, l) else (Done, false)
  | Handling => (Done, false)
  | Done => (Idle, l)
  end.

(** Thread [i] takes its next step. *)
Definition step (st : state) (i : nat) (raises : bool) : state :=
  let '(p, l) := next (pcs st i) raises (locked st) in
  {| locked := l; pcs := update (pcs st) i p |}.

(** A schedule: which thread moves, and whether its statement raises. *)
Definition schedule : Type := list (nat * bool).

Definition exec (sched : schedule) (st : state) : state :=
  fold_left (fun st ib => step st (fst ib) (snd ib)) sched st.

(** The threads hold the lock one at a time, and only while it is locked. *)
Definition exclusive (st : state) : Prop :=
  (locked st = false -> forall i, in_with (pcs st i) = false) /\
  (forall i j, in_with (pcs st i) = true -> in_with (pcs st j) = true -> i = j).

End Lock.

(* ================================================================== *)
(** * The vocabulary of the specification *)

(** The prompt as the specification words it: the system instruction, the
    literal [\n\nINPUT DATA:\n], the serialized context and the literal
    [\n\nDECISION (JSON):]. *)
Definition spec_prompt (systemInstruction serializedContext : pystr) : pystr :=
  systemInstruction ++ nl ++ nl ++ str "INPUT DATA:" ++ nl
  ++ serializedContext ++ nl ++ nl ++ str "DECISION (JSON):".

(** The raw output has no outer-brace span: the opening brace is absent, or
    the closing brace is absent, or the last closing brace comes before the
    first opening brace. *)
Definition no_brace_span (raw : pystr) : Prop :=
  ~ In lbrace raw \/ ~ In rbrace raw \/ (rfind raw rbrace < find raw lbrace)%Z.

(** The raw output has an outer-brace span: both braces occur, and the last
    closing brace does not come before the first opening brace. *)
Definition has_brace_span (raw : pystr) : Prop :=
  In lbrace raw /\ In rbrace raw /\ (find raw lbrace <= rfind raw rbrace)%Z.

(** The substring from the first opening brace to the last closing brace,
    both included. *)
Definition outer_brace_span (raw : pystr) : pystr :=
  slice raw (find raw lbrace) (rfind raw rbrace + 1).

(** The test [start != -1 and end > start] both variants make on the raw
    output. *)
Definition guard (raw : pystr) : bool :=
  negb (find raw lbrace =? -1)%Z
  && (rfind raw rbrace + 1 >? find raw lbrace)%Z.

(** The value of the field [k] of a verdict-shaped object. *)
Definition field (o : pyobj) (k : string) : option pyobj :=
  match o with
  | PyDict d => dict_get d (str k)
  | _ => None
  end.

(** A runtime for closed examples: a [float] prints as its literal reads,
    which is what Python does for a literal in shortest form such as 1.5;
    anything that is no such literal prints as [NaN]. *)
Definition literal_floats : Json.Runtime :=
  {| Json.floatstr := fun lexeme =>
       if Json.is_float_text lexeme then lexeme else str "NaN";
     Json.floatstr_text := fun lexeme =>
       match Json.is_float_text lexeme as b
         return (Json.is_float_text lexeme = b ->
                 Json.is_float_text (if b then lexeme else str "NaN") = true)
       with
       | true => fun e => e
       | false => fun _ => eq_refl
       end eq_refl |}.

(** A model that answers every prompt with [raw]. *)
Definition answering (raw : pystr) : Llama :=
  {| create_chat_completion := fun _ => Ok raw |}.


(** ** The vocabulary of the round trip *)

(** The text [rest] is what is left of [s] from the index [idx] on. *)
Definition suffix_at (s : pystr) (idx : nat) (rest : pystr) : Prop :=
  exists pre, s = pre ++ rest /\ List.length pre = idx.

(** What may follow an encoded value: the end of the text, a comma, a
    closing bracket or brace, or white space. *)
Definition delimited (post : pystr) : bool :=
  match post with
  | [] => true
  | c :: _ => ((c =? 44) || (c =? 93) || (c =? 125))%N || Json.is_ws c
  end.

(** The characters an encoded value can begin with: a quote, an opening
    brace or bracket, a minus sign, a digit, or the first letter of [null],
    [true], [false], [NaN] and [Infinity]. *)
Definition value_head (c : N) : bool :=
  ((c =? 34) || (c =? 123) || (c =? 91) || (c =? 45) || Json.is_digit c
   || (c =? 110) || (c =? 116) || (c =? 102) || (c =? 78) || (c =? 73))%N.

(** What the scanner makes of the encoding of [v]: it reads all of it,
    whatever delimiter follows, given a budget of twice what is left of the
    text. *)
Definition reads_back `{Json.Runtime} (indent : option nat) (v : pyobj)
  : Prop :=
  forall level text,
    Json.iterencode indent level v = Ok text ->
    forall s idx post fuel,
      suffix_at s idx (text ++ post) ->
      delimited post = true ->
      2 * (List.length s - idx) + 1 <= fuel ->
      exists v', Json.scan_once fuel s idx = Ok (v', idx + List.length text).

(** ** The vocabulary of the further properties *)

(** The keys are pairwise different. *)
Fixpoint distinct (keys : list pystr) : bool :=
  match keys with
  | [] => true
  | k :: rest => negb (existsb (pystr_eqb k) rest) && distinct rest
  end.

(** No [dict] of the object, at any depth, holds a key twice. *)
Fixpoint distinct_keys (o : pyobj) : bool :=
  match o with
  | PyList l => forallb distinct_keys l
  | PyDict d =>
      distinct (map fst d) && forallb (fun kv => distinct_keys (snd kv)) d
  | _ => true
  end.

(** The character is printable ASCII: from the space to the tilde. *)
Definition printable (c : N) : bool := ((32 <=? c) && (c <=? 126))%N.

(** A Unicode scalar value: a code point that is no surrogate. *)
Definition scalar (c : N) : bool :=
  ((c <? 55296) || ((57343 <? c) && (c <? 1114112)))%N.

(** A text the decoder reads as one [float], which prints as it reads. *)
Definition float_lexeme `{Json.Runtime} (l : pystr) : bool :=
  match Json.match_number l with
  | Some (PyFloat _, n) =>
      (n =? List.length l) && pystr_eqb (Json.floatstr l) l
  | _ => false
  end.

(** The objects that survive [json.loads(json.dumps(o))] unchanged: the
    strings and keys hold scalar values only, no [dict] holds a key twice,
    and every [float] read from a literal prints as that literal. *)
Fixpoint canonical `{Json.Runtime} (o : pyobj) : bool :=
  match o with
  | PyNone | PyBool _ | PyInt _ => true
  | PyFloat (FloatLit l) => float_lexeme l
  | PyFloat _ => true
  | PyStr s => forallb scalar s
  | PyList l => forallb canonical l
  | PyDict d =>
      distinct (map fst d)
      && forallb (fun kv => forallb scalar (fst kv) && canonical (snd kv)) d
  | PyOther _ => false
  end.

(** The scanner reads the encoding of [v] back as [v] itself. *)
Definition reads_exactly `{Json.Runtime} (indent : option nat) (v : pyobj)
  : Prop :=
  forall level text,
    Json.iterencode indent level v = Ok text ->
    forall s idx post fuel,
      suffix_at s idx (text ++ post) ->
      delimited post = true ->
      2 * (List.length s - idx) + 1 <= fuel ->
      Json.scan_once fuel s idx = Ok (v, idx + List.length text).

(** ** Sample runs *)

(** The input [{"sleepHours":3}], the object it decodes to and the text
    [json.dumps(..., indent=2)] gives for it. *)
Definition sample_stdin : pystr :=
  str "{" ++ dq ++ str "sleepHours" ++ dq ++ str ":3}".
Definition sample_context : pyobj := PyDict [(str "sleepHours", PyInt 3)].
Definition sample_serialized : pystr :=
  str "{" ++ nl ++ str "  " ++ dq ++ str "sleepHours" ++ dq ++ str ": 3"
  ++ nl ++ str "}".

(** A raw output that wraps a full verdict in other text, and the verdict. *)
Definition raw_wrapped : pystr :=
  str "json" ++ nl
  ++ str "{" ++ dq ++ str "systemStatus" ++ dq ++ str ":"
  ++ dq ++ str "Fatigued" ++ dq ++ str ","
  ++ dq ++ str "action" ++ dq ++ str ":" ++ dq ++ str "Rest" ++ dq ++ str ","
  ++ dq ++ str "explanation" ++ dq ++ str ":"
  ++ dq ++ str "Reason: low sleep." ++ dq ++ str "}" ++ nl.

(** A raw output whose object has no [action] field, and the object. *)
Definition raw_explanation_only : pystr :=
  str "{" ++ dq ++ str "explanation" ++ dq ++ str ": "
  ++ dq ++ str "Rest now." ++ dq ++ str "}".
Definition parsed_explanation_only : pyobj :=
  PyDict [(str "explanation", PyStr (str "Rest now."))].

(** A raw output without braces. *)
Definition raw_refusal : pystr := str "I cannot comply.".

(** A raw output with both braces that is not JSON, and the message of the
    decoder for its span. *)
Definition raw_malformed : pystr :=
  str "{" ++ dq ++ str "systemStatus" ++ dq ++ str ": "
  ++ dq ++ str "Low" ++ dq ++ str ",}".
Definition malformed_error : exn :=
  Exception
    (str "Expecting property name enclosed in double quotes: "
     ++ str "line 1 column 24 (char 23)").

(** A raw output cut off before any closing brace. *)
Definition raw_truncated : pystr :=
  str "{" ++ dq ++ str "systemStatus" ++ dq ++ str ": "
  ++ dq ++ str "Low" ++ dq ++ str ",".

(** A raw output whose object holds the constant [NaN]. *)
Definition raw_nonfinite : pystr :=
  str "{" ++ dq ++ str "capacity" ++ dq ++ str ": NaN}".

(** Two objects, their encodings, and a raw output that holds both, one to
    a line. *)
Definition first_object : list (pystr * pyobj) := [(str "a", PyInt 1)].
Definition second_object : list (pystr * pyobj) := [(str "b", PyInt 2)].
Definition first_text : pystr :=
  str "{" ++ dq ++ str "a" ++ dq ++ str ": 1}".
Definition second_text : pystr :=
  str "{" ++ dq ++ str "b" ++ dq ++ str ": 2}".
Definition raw_two_objects : pystr := first_text ++ nl ++ second_text.

(** A text that repeats a key. *)
Definition text_repeated_key : pystr :=
  str "{" ++ dq ++ str "a" ++ dq ++ str ": 1, "
  ++ dq ++ str "a" ++ dq ++ str ": 2}".

(** What stands between the braces of [raw_explanation_only], and the
    text a chatty model puts before an object. *)
Definition body_explanation_only : pystr :=
  dq ++ str "explanation" ++ dq ++ str ": " ++ dq ++ str "Rest now." ++ dq.
Definition preamble : pystr := str "Here is the decision:" ++ nl.

(** An exception of the generation step. *)
Definition out_of_memory : exn := Exception (str "out of memory").

(* ================================================================== *)
(** * Properties of the string operations *)

Section Strings.

Variable c : N.

Lemma find_from_range (s : pystr) (i : Z) :
  find_from s c i = (-1)%Z \/
  (i <= find_from s c i < i + Z.of_nat (List.length s))%Z.
Proof.
  revert i. induction s as [|x t IH]; intros i; simpl.
  - now left.
  - destruct (N.eqb x c).
    + right. lia.
    + destruct (IH (i + 1)%Z) as [E | R]; [now left | right; lia].
Qed.

Lemma find_from_absent (s : pystr) (i : Z) :
  (0 <= i)%Z -> (find_from s c i = (-1)%Z <-> ~ In c s).
Proof.
  revert i. induction s as [|x t IH]; intros i Hi; simpl.
  - tauto.
  - destruct (N.eqb_spec x c) as [E | NE].
    + split; [lia | intros H; exfalso; apply H; now left].
    + rewrite (IH (i + 1)%Z) by lia. split.
      * intros H [E | I]; [now apply NE | now apply H].
      * intros H I. apply H. now right.
Qed.

Lemma find_from_nth (s : pystr) (i : Z) :
  find_from s c i <> (-1)%Z -> (0 <= i)%Z ->
  nth_error s (Z.to_nat (find_from s c i - i)) = Some c.
Proof.
  revert i. induction s as [|x t IH]; intros i NE Hi; simpl in *.
  - congruence.
  - destruct (N.eqb_spec x c) as [E | NX].
    + replace (i - i)%Z with 0%Z by lia. simpl. now subst.
    + specialize (IH (i + 1)%Z NE ltac:(lia)).
      destruct (find_from_range t (i + 1)%Z) as [E | R]; [congruence |].
      replace (Z.to_nat (find_from t c (i + 1) - i))
        with (S (Z.to_nat (find_from t c (i + 1) - (i + 1)))) by lia.
      exact IH.
Qed.

(** Nothing before the index [find] returns is the needle. *)
Lemma find_from_first (s : pystr) (i : Z) (m : nat) :
  find_from s c i <> (-1)%Z ->
  (Z.of_nat m < find_from s c i - i)%Z -> nth_error s m <> Some c.
Proof.
  revert i m. induction s as [|x t IH]; intros i m NE Hm; simpl in *.
  - congruence.
  - destruct (N.eqb_spec x c) as [E | NX].
    + lia.
    + destruct m as [|m]; simpl.
      * congruence.
      * apply (IH (i + 1)%Z); [exact NE | lia].
Qed.

Lemma rfind_from_range (s : pystr) (i last : Z) :
  rfind_from s c i last = last \/
  (i <= rfind_from s c i last < i + Z.of_nat (List.length s))%Z.
Proof.
  revert i last. induction s as [|x t IH]; intros i last; simpl.
  - now left.
  - destruct (IH (i + 1)%Z (if N.eqb x c then i else last)) as [E | R].
    + rewrite E. destruct (N.eqb x c); [right; lia | now left].
    + right. lia.
Qed.

Lemma rfind_from_absent (s : pystr) (i last : Z) :
  ~ In c s -> rfind_from s c i last = last.
Proof.
  revert i last. induction s as [|x t IH]; intros i last H; simpl.
  - reflexivity.
  - destruct (N.eqb_spec x c) as [E | NE].
    + exfalso. apply H. now left.
    + apply IH. intros I. apply H. now right.
Qed.

Lemma rfind_from_present (s : pystr) (i last : Z) :
  In c s -> (i <= rfind_from s c i last < i + Z.of_nat (List.length s))%Z.
Proof.
  revert i last. induction s as [|x t IH]; intros i last H; simpl.
  - destruct H.
  - destruct (N.eqb_spec x c) as [E | NE].
    + destruct (rfind_from_range t (i + 1)%Z i) as [R | R]; lia.
    + destruct H as [E | I]; [congruence |].
      specialize (IH (i + 1)%Z last I). lia.
Qed.

(** [find] returns -1 exactly when the needle does not occur. *)
Lemma find_absent (s : pystr) : find s c = (-1)%Z <-> ~ In c s.
Proof. apply find_from_absent. lia. Qed.

(** Otherwise it returns an index of the string, at which the needle is. *)
Lemma find_present (s : pystr) :
  In c s ->
  (0 <= find s c < Z.of_nat (List.length s))%Z /\
  nth_error s (Z.to_nat (find s c)) = Some c.
Proof.
  intros I.
  assert (NE : find s c <> (-1)%Z) by (rewrite find_absent; tauto).
  split.
  - destruct (find_from_range s 0%Z) as [E | R]; [contradiction | exact R].
  - pose proof (find_from_nth s 0%Z NE ltac:(lia)) as H.
    now rewrite Z.sub_0_r in H.
Qed.

(** [rfind] returns -1 exactly when the needle does not occur. *)
Lemma rfind_absent (s : pystr) : rfind s c = (-1)%Z <-> ~ In c s.
Proof.
  split.
  - intros E I. pose proof (rfind_from_present s 0%Z (-1)%Z I) as R.
    unfold rfind in E. lia.
  - apply rfind_from_absent.
Qed.

Lemma rfind_present (s : pystr) :
  In c s -> (0 <= rfind s c < Z.of_nat (List.length s))%Z.
Proof. apply rfind_from_present. Qed.

Lemma rfind_range (s : pystr) :
  (-1 <= rfind s c < Z.of_nat (List.length s))%Z.
Proof.
  destruct (rfind_from_range s 0%Z (-1)%Z) as [E | R];
    unfold rfind; lia.
Qed.

Lemma find_range (s : pystr) :
  (-1 <= find s c < Z.of_nat (List.length s))%Z.
Proof.
  destruct (find_from_range s 0%Z) as [E | R]; unfold find; lia.
Qed.

End Strings.

(** A slice that starts at an index of the string and is not empty begins
    with the character at that index. *)
Lemma slice_head (s : pystr) (start stop : Z) (c : N) :
  (0 <= start < stop)%Z ->
  nth_error s (Z.to_nat start) = Some c ->
  exists t, slice s start stop = c :: t.
Proof.
  intros R H.
  assert (L : (Z.to_nat start < List.length s)%nat)
    by (apply nth_error_Some; congruence).
  destruct (nth_error_split s (Z.to_nat start) H) as (l1 & l2 & E & Hl).
  assert (K : skipn (Z.to_nat start) s = c :: l2).
  { rewrite E, <- Hl, skipn_app, Nat.sub_diag, skipn_all. reflexivity. }
  unfold slice, slice_bound. cbv zeta.
  destruct (Z.ltb_spec start 0); [lia |].
  destruct (Z.ltb_spec stop 0); [lia |].
  rewrite (Z.min_l start) by lia.
  rewrite K.
  remember (Z.to_nat (Z.min stop (Z.of_nat (List.length s)) - start)) as n.
  destruct n as [|n]; [lia |].
  simpl. eauto.
Qed.

(* ================================================================== *)
(** * Properties of the JSON layer *)

(** Induction over objects, through the items of lists and dicts. *)
Lemma pyobj_induction (P : pyobj -> Prop) :
  P PyNone ->
  (forall b, P (PyBool b)) ->
  (forall z, P (PyInt z)) ->
  (forall f, P (PyFloat f)) ->
  (forall s, P (PyStr s)) ->
  (forall l, Forall P l -> P (PyList l)) ->
  (forall d, Forall (fun kv => P (snd kv)) d -> P (PyDict d)) ->
  (forall n, P (PyOther n)) ->
  forall o, P o.
Proof.
  intros HN HB HI HF HS HL HD HO.
  fix IH 1. intros [ | b | z | f | s | l | d | n].
  - exact HN.
  - apply HB.
  - apply HI.
  - apply HF.
  - apply HS.
  - apply HL. revert l. fix IHl 1. intros [|x l'].
    + constructor.
    + constructor; [apply IH | apply IHl].
  - apply HD. revert d. fix IHd 1. intros [|[k v] d'].
    + constructor.
    + constructor; [apply IH | apply IHd].
  - apply HO.
Qed.

Section Encoder.

Context `{Json.Runtime}.

Lemma encode_items_ok (encode : pyobj -> result pystr) (sep : pystr)
  (l : list pyobj) :
  Forall (fun o => exists text, encode o = Ok text) l ->
  exists text, Json.encode_items encode sep l = Ok text.
Proof.
  induction 1 as [|y l' [ty Ey] _ [tl El]]; simpl.
  - eauto.
  - rewrite Ey. simpl. rewrite El. simpl. eauto.
Qed.

Lemma encode_members_ok (encode : pyobj -> result pystr) (sep : pystr)
  (l : list (pystr * pyobj)) :
  Forall (fun kv => exists text, encode (snd kv) = Ok text) l ->
  exists text, Json.encode_members encode sep l = Ok text.
Proof.
  induction 1 as [|kv l' [tv Ev] _ [tl El]]; simpl.
  - eauto.
  - rewrite Ev. simpl. rewrite El. simpl. eauto.
Qed.

(** The encoder accepts every serializable object, at any indentation. *)
Lemma iterencode_serializable (indent : option nat) (o : pyobj) :
  serializable o = true ->
  forall level, exists text, Json.iterencode indent level o = Ok text.
Proof.
  induction o as [ | b | z | f | s | l IH | d IH | n] using pyobj_induction;
    intros S level; simpl in S; try discriminate.
  - simpl; eauto.
  - destruct b; simpl; eauto.
  - simpl; eauto.
  - simpl; eauto.
  - simpl; eauto.
  - assert (A : Forall (fun o => exists text,
                 Json.iterencode indent (Datatypes.S level) o = Ok text) l).
    { rewrite forallb_forall in S. rewrite Forall_forall in *.
      intros o I. apply IH; auto. }
    destruct l as [|x rest]; [simpl; eauto |].
    inversion A as [|? ? [tx Ex] Ar]; subst.
    destruct (encode_items_ok _ (Json.item_separator indent (Datatypes.S level))
                _ Ar) as [tl El].
    simpl. rewrite Ex. simpl. rewrite El. simpl. eauto.
  - assert (A : Forall (fun kv => exists text,
                 Json.iterencode indent (Datatypes.S level) (snd kv) = Ok text) d).
    { rewrite forallb_forall in S. rewrite Forall_forall in *.
      intros kv I. apply IH; auto. }
    destruct d as [|kv rest]; [simpl; eauto |].
    inversion A as [|? ? [tv Ev] Ar]; subst.
    destruct (encode_members_ok _
                (Json.item_separator indent (Datatypes.S level)) _ Ar) as [tl El].
    simpl. rewrite Ev. simpl. rewrite El. simpl. eauto.
Qed.

(** [json.dumps] cannot raise on a serializable object. *)
Lemma dumps_serializable (indent : option nat) (o : pyobj) :
  serializable o = true -> exists text, Json.dumps indent o = Ok text.
Proof. intros S. apply iterencode_serializable. exact S. Qed.

(** A verdict is a [dict] of three strings: it always serializes. *)
Lemma dumps_verdict (a b c : pystr) :
  exists text, Json.dumps None (verdict a b c) = Ok text.
Proof. apply dumps_serializable. reflexivity. Qed.

End Encoder.

Section Decoder.

(** Case analysis on the tests and calls a decoder result went through. *)
Ltac cases H :=
  repeat match type of H with
  | context [match ?x with _ => _ end] =>
      let E := fresh "E" in destruct x eqn:E; try discriminate H
  end.

Lemma dict_set_values (P : pyobj -> Prop) (d : list (pystr * pyobj))
  (k : pystr) (v : pyobj) :
  Forall (fun kv => P (snd kv)) d -> P v ->
  Forall (fun kv => P (snd kv)) (dict_set d k v).
Proof.
  intros Hd Hv. induction Hd as [|[k' v'] d' Hx Hd' IH]; simpl.
  - constructor; [exact Hv | constructor].
  - destruct (pystr_eqb k' k); constructor; auto.
Qed.

Lemma dict_of_pairs_values (P : pyobj -> Prop) (pairs : list (pystr * pyobj)) :
  Forall (fun kv => P (snd kv)) pairs ->
  Forall (fun kv => P (snd kv)) (dict_of_pairs pairs).
Proof.
  unfold dict_of_pairs.
  assert (G : forall acc, Forall (fun kv => P (snd kv)) acc ->
              Forall (fun kv => P (snd kv)) pairs ->
              Forall (fun kv => P (snd kv))
                (fold_left (fun d kv => dict_set d (fst kv) (snd kv)) pairs acc)).
  { induction pairs as [|kv pairs IH]; intros acc Ha Hp; simpl.
    - exact Ha.
    - inversion Hp; subst. apply IH; [apply dict_set_values |]; assumption. }
  apply G. constructor.
Qed.

Lemma match_number_serializable (l : pystr) (v : pyobj) (n : nat) :
  Json.match_number l = Some (v, n) -> serializable v = true.
Proof.
  unfold Json.match_number. intros H. cases H; inversion H; reflexivity.
Qed.

(** What an earlier call of the scanner returned is covered by the
    induction hypothesis. *)
Ltac scanned :=
  match goal with
  | IH : forall s idx v e, Json.scan_once ?f s idx = Ok (v, e) -> _,
    E : Json.scan_once ?f _ _ = Ok ?p |- _ =>
      destruct p; eapply IH; exact E
  end.

(** The decoder builds serializable objects only. *)
Lemma scan_serializable (fuel : nat) :
  (forall s idx v e,
      Json.scan_once fuel s idx = Ok (v, e) -> serializable v = true) /\
  (forall s e pairs v e',
      Forall (fun kv => serializable (snd kv) = true) pairs ->
      Json.object_members fuel s e pairs = Ok (v, e') ->
      serializable v = true) /\
  (forall s e values v e',
      Forall (fun o => serializable o = true) values ->
      Json.array_items fuel s e values = Ok (v, e') ->
      serializable v = true).
Proof.
  induction fuel as [|fuel (IHs & IHo & IHa)].
  - repeat split; intros; simpl in *; discriminate.
  - repeat split.
    + intros s idx v e H. simpl in H. unfold rbind in H.
      cases H; try (inversion H; subst; reflexivity).
      * eapply IHo; [constructor | exact H].
      * eapply IHa; [constructor | exact H].
      * inversion H; subst. eapply match_number_serializable; eassumption.
    + intros s e pairs v e' Hp H. simpl in H. unfold rbind in H.
      cases H.
      * inversion H; subst. simpl. apply forallb_forall.
        apply Forall_forall.
        apply (dict_of_pairs_values (fun o => serializable o = true)).
        apply Forall_app. split; [exact Hp |].
        constructor; [| constructor]. simpl. scanned.
      * eapply IHo; [| exact H].
        apply Forall_app. split; [exact Hp |].
        constructor; [| constructor]. simpl. scanned.
    + intros s e values v e' Hv H. simpl in H. unfold rbind in H.
      cases H.
      * inversion H; subst. simpl. apply forallb_forall.
        apply Forall_forall. apply Forall_app. split; [exact Hv |].
        constructor; [| constructor]. scanned.
      * eapply IHa; [| exact H].
        apply Forall_app. split; [exact Hv |].
        constructor; [| constructor]. scanned.
Qed.

(** Whatever [json.loads] returns, [json.dumps] accepts. *)
Lemma loads_serializable (s : pystr) (v : pyobj) :
  Json.loads s = Ok v -> serializable v = true.
Proof.
  unfold Json.loads, rbind. intros H. cases H.
  inversion H; subst.
  match goal with
  | E : Json.scan_once _ _ _ = Ok ?p |- _ =>
      destruct p; eapply (proj1 (scan_serializable _)); exact E
  end.
Qed.

(** The loop of [JSONObject] ends with a [dict]. *)
Lemma object_members_dict (fuel : nat) :
  forall s e pairs v e',
    Json.object_members fuel s e pairs = Ok (v, e') -> is_dict v = true.
Proof.
  induction fuel as [|fuel IH]; intros s e pairs v e' H; simpl in H.
  - discriminate.
  - unfold rbind in H. cases H.
    + inversion H; reflexivity.
    + eapply IH. exact H.
Qed.

(** At an opening brace the scanner returns a [dict] or raises. *)
Lemma scan_once_brace (fuel : nat) (s : pystr) (idx : nat) (v : pyobj)
  (e : nat) :
  nth_error s idx = Some 123%N ->
  Json.scan_once fuel s idx = Ok (v, e) -> is_dict v = true.
Proof.
  intros B H. destruct fuel as [|fuel]; simpl in H; [discriminate |].
  unfold Json.char_is in H at 1 2. rewrite B in H. simpl in H.
  cases H.
  - eapply object_members_dict. exact H.
  - inversion H; reflexivity.
Qed.

(** A text that begins with an opening brace decodes to a [dict] or not at
    all. *)
Lemma loads_brace (t : pystr) (v : pyobj) :
  Json.loads (123%N :: t) = Ok v -> is_dict v = true.
Proof.
  unfold Json.loads, rbind. intros H.
  change (Json.skip_ws (123%N :: t) 0) with 0 in H.
  cases H. inversion H; subst.
  match goal with
  | E : Json.scan_once _ _ _ = Ok ?p |- _ =>
      destruct p; eapply scan_once_brace; [| exact E]; reflexivity
  end.
Qed.

End Decoder.

(* ================================================================== *)
(** * The decoder never runs out of its budget *)

Section Budget.

Ltac cases H :=
  repeat match type of H with
  | context [match ?x with _ => _ end] =>
      let E := fresh "E" in destruct x eqn:E; try discriminate H
  end.

(** A decode error is not the exhaustion of the budget: the messages
    differ. *)
Ltac decode_error :=
  let E := fresh "E" in
  intros E;
  apply (f_equal (fun r =>
           match r with
           | Raise (Exception (c :: _)) => c
           | _ => 0%N
           end)) in E;
  simpl in E; discriminate E.

Lemma skip_ws_ge (s : pystr) (i : nat) : i <= Json.skip_ws s i.
Proof. unfold Json.skip_ws. lia. Qed.

Lemma char_is_lt (s : pystr) (i : nat) (c : N) :
  Json.char_is s i c = true -> i < List.length s.
Proof.
  unfold Json.char_is. destruct (nth_error s i) eqn:E; [| discriminate].
  intros _. apply nth_error_Some. congruence.
Qed.

Lemma int_len_progress (l : pystr) (n : nat) :
  Json.int_len l = Some n -> 0 < n.
Proof.
  unfold Json.int_len. intros H. cases H; inversion H; lia.
Qed.

Lemma match_number_progress (l : pystr) (v : pyobj) (n : nat) :
  Json.match_number l = Some (v, n) -> 0 < n.
Proof.
  unfold Json.match_number. intros H.
  destruct (Json.int_len l) as [k |] eqn:I; [| discriminate].
  apply int_len_progress in I. cases H; inversion H; lia.
Qed.

(** The loop of [scanstring] ends within a budget larger than what is left
    of the text, and it ends beyond where it started. *)
Lemma scanstring_loop_budget (fuel : nat) :
  forall s begin pos acc,
    List.length s - pos < fuel ->
    Json.scanstring_loop fuel s begin pos acc <> Raise Json.RecursionError.
Proof.
  induction fuel as [|fuel IH]; intros s begin pos acc B; [lia |].
  cbn [Json.scanstring_loop].
  destruct (nth_error s pos) as [c |] eqn:C.
  2: { decode_error. }
  assert (P : pos < List.length s) by (apply nth_error_Some; congruence).
  destruct (c =? 34)%N; [intros E; discriminate E |].
  destruct (c =? 92)%N.
  - destruct (nth_error s (S pos)) as [esc |].
    2: { decode_error. }
    destruct (esc =? 117)%N.
    + destruct (Nat.leb_spec (List.length s) (pos + 6)).
      { decode_error. }
      destruct (Json.hex4 (firstn 4 (skipn (pos + 2) s))) as [uni |].
      2: { decode_error. }
      destruct (Json.is_high_surrogate uni && (pos + 6 + 6 <? List.length s)
                && Json.starts_with [92%N; 117%N] (skipn (pos + 6) s)).
      * destruct (Json.hex4 (firstn 4 (skipn (pos + 6 + 2) s))) as [uni2 |].
        2: { decode_error. }
        destruct (Json.is_low_surrogate uni2); apply IH; lia.
      * apply IH. lia.
    + destruct (Json.backslash esc).
      * apply IH. lia.
      * decode_error.
  - destruct (c <=? 31)%N.
    + decode_error.
    + apply IH. lia.
Qed.

Lemma scanstring_loop_progress (fuel : nat) :
  forall s begin pos acc r e,
    Json.scanstring_loop fuel s begin pos acc = Ok (r, e) -> pos < e.
Proof.
  induction fuel as [|fuel IH]; intros s begin pos acc r e H;
    cbn [Json.scanstring_loop] in H.
  - discriminate.
  - cases H; try (apply IH in H; lia). inversion H. lia.
Qed.

Lemma scanstring_budget (s : pystr) (end_ : nat) :
  Json.scanstring s end_ <> Raise Json.RecursionError.
Proof. apply scanstring_loop_budget. lia. Qed.

Lemma scanstring_progress (s : pystr) (end_ : nat) (r : pystr) (e : nat) :
  Json.scanstring s end_ = Ok (r, e) -> end_ < e.
Proof. apply scanstring_loop_progress. Qed.

(** Every call of the scanner and of its loops ends beyond where it
    started. *)
Lemma scan_progress (fuel : nat) :
  (forall s idx v e,
      Json.scan_once fuel s idx = Ok (v, e) -> idx < e) /\
  (forall s end_ pairs v e,
      Json.object_members fuel s end_ pairs = Ok (v, e) -> end_ < e) /\
  (forall s end_ values v e,
      Json.array_items fuel s end_ values = Ok (v, e) -> end_ < e).
Proof.
  induction fuel as [|fuel (IHs & IHo & IHa)].
  - repeat split; intros; discriminate.
  - repeat split.
    + intros s idx v e H. cbn [Json.scan_once] in H. unfold rbind in H.
      pose proof (skip_ws_ge s (S idx)).
      destruct (Json.char_is s idx 34).
      { destruct (Json.scanstring s (S idx)) as [[k e1] | x] eqn:K;
          [| discriminate].
        apply scanstring_progress in K. inversion H; subst. simpl. lia. }
      destruct (Json.char_is s idx 123).
      { destruct (Json.char_is s (Json.skip_ws s (S idx)) 34).
        - apply IHo in H. lia.
        - destruct (Json.char_is s (Json.skip_ws s (S idx)) 125);
            [| discriminate].
          inversion H; subst. lia. }
      destruct (Json.char_is s idx 91).
      { destruct (Json.char_is s (Json.skip_ws s (S idx)) 93).
        - inversion H; subst. lia.
        - apply IHa in H. lia. }
      repeat match type of H with
      | context [if ?b then _ else _] =>
          destruct b; [inversion H; subst; lia |]
      end.
      destruct (Json.match_number (skipn idx s)) as [[v1 n] |] eqn:Nm.
      { apply match_number_progress in Nm. inversion H; subst. lia. }
      repeat match type of H with
      | context [if ?b then _ else _] =>
          destruct b; [inversion H; subst; lia |]
      end.
      discriminate.
    + intros s end_ pairs v e H. cbn [Json.object_members] in H.
      unfold rbind in H.
      destruct (Json.scanstring s end_) as [[k e1] | x] eqn:K;
        [| discriminate].
      apply scanstring_progress in K. simpl in H.
      pose proof (skip_ws_ge s e1).
      destruct (Json.char_is s (Json.skip_ws s e1) 58); [| discriminate].
      pose proof (skip_ws_ge s (S (Json.skip_ws s e1))).
      destruct (Json.scan_once fuel s (Json.skip_ws s (S (Json.skip_ws s e1))))
        as [[v1 e4] | x] eqn:V; [| discriminate].
      apply IHs in V. simpl in H.
      pose proof (skip_ws_ge s e4).
      destruct (Json.char_is s (Json.skip_ws s e4) 125).
      { inversion H; subst. lia. }
      destruct (Json.char_is s (Json.skip_ws s e4) 44); [| discriminate].
      pose proof (skip_ws_ge s (S (Json.skip_ws s e4))).
      destruct (Json.char_is s (Json.skip_ws s (S (Json.skip_ws s e4))) 34);
        [| discriminate].
      apply IHo in H. lia.
    + intros s end_ values v e H. cbn [Json.array_items] in H.
      unfold rbind in H.
      destruct (Json.scan_once fuel s end_) as [[v1 e1] | x] eqn:V;
        [| discriminate].
      apply IHs in V. simpl in H.
      pose proof (skip_ws_ge s e1).
      destruct (Json.char_is s (Json.skip_ws s e1) 93).
      { inversion H; subst. lia. }
      destruct (Json.char_is s (Json.skip_ws s e1) 44); [| discriminate].
      apply IHa in H.
      pose proof (skip_ws_ge s (S (Json.skip_ws s e1))). lia.
Qed.

(** With a budget of twice what is left of the text the scanner and its
    loops do not run out of it. *)
Lemma scan_budget (fuel : nat) :
  (forall s idx,
      2 * (List.length s - idx) + 1 <= fuel ->
      Json.scan_once fuel s idx <> Raise Json.RecursionError) /\
  (forall s end_ pairs,
      2 * (List.length s - end_) + 1 <= fuel ->
      Json.object_members fuel s end_ pairs <> Raise Json.RecursionError) /\
  (forall s end_ values,
      2 * (List.length s - end_) + 2 <= fuel ->
      Json.array_items fuel s end_ values <> Raise Json.RecursionError).
Proof.
  induction fuel as [|fuel (IHs & IHo & IHa)].
  - repeat split; intros; lia.
  - repeat split.
    + intros s idx B. cbn [Json.scan_once]. unfold rbind.
      destruct (Json.char_is s idx 34) eqn:Q.
      { destruct (Json.scanstring s (S idx)) as [[k e1] | x] eqn:K.
        - discriminate.
        - intros X. injection X as X. subst x.
          exact (scanstring_budget _ _ K). }
      destruct (Json.char_is s idx 123) eqn:O.
      { apply char_is_lt in O.
        pose proof (skip_ws_ge s (S idx)).
        destruct (Json.char_is s (Json.skip_ws s (S idx)) 34) eqn:Q1.
        - apply char_is_lt in Q1. apply IHo. lia.
        - destruct (Json.char_is s (Json.skip_ws s (S idx)) 125);
            [discriminate | decode_error]. }
      destruct (Json.char_is s idx 91) eqn:A.
      { apply char_is_lt in A.
        pose proof (skip_ws_ge s (S idx)).
        destruct (Json.char_is s (Json.skip_ws s (S idx)) 93);
          [discriminate |].
        apply IHa. lia. }
      repeat match goal with
      | |- context [if ?b then _ else _] => destruct b; [discriminate |]
      end.
      destruct (Json.match_number (skipn idx s)) as [[v n] |];
        [discriminate |].
      repeat match goal with
      | |- context [if ?b then _ else _] => destruct b; [discriminate |]
      end.
      decode_error.
    + intros s end_ pairs B. cbn [Json.object_members]. unfold rbind.
      destruct (Json.scanstring s end_) as [[k e1] | x] eqn:K.
      2: { intros X. injection X as X. subst x.
           exact (scanstring_budget _ _ K). }
      apply scanstring_progress in K. cbn [fst snd].
      pose proof (skip_ws_ge s e1).
      destruct (Json.char_is s (Json.skip_ws s e1) 58) eqn:C;
        [| decode_error].
      apply char_is_lt in C.
      pose proof (skip_ws_ge s (S (Json.skip_ws s e1))).
      destruct (Json.scan_once fuel s (Json.skip_ws s (S (Json.skip_ws s e1))))
        as [[v1 e4] | x] eqn:V.
      2: { intros X. injection X as X. subst x. revert V. apply IHs. lia. }
      apply (proj1 (scan_progress fuel)) in V. cbn [fst snd].
      pose proof (skip_ws_ge s e4).
      destruct (Json.char_is s (Json.skip_ws s e4) 125); [discriminate |].
      destruct (Json.char_is s (Json.skip_ws s e4) 44) eqn:M;
        [| decode_error].
      apply char_is_lt in M.
      pose proof (skip_ws_ge s (S (Json.skip_ws s e4))).
      destruct (Json.char_is s (Json.skip_ws s (S (Json.skip_ws s e4))) 34)
        eqn:Q; [| decode_error].
      apply char_is_lt in Q. apply IHo. lia.
    + intros s end_ values B. cbn [Json.array_items]. unfold rbind.
      destruct (Json.scan_once fuel s end_) as [[v1 e1] | x] eqn:V.
      2: { intros X. injection X as X. subst x. revert V. apply IHs. lia. }
      apply (proj1 (scan_progress fuel)) in V. cbn [fst snd].
      pose proof (skip_ws_ge s e1).
      destruct (Json.char_is s (Json.skip_ws s e1) 93); [discriminate |].
      destruct (Json.char_is s (Json.skip_ws s e1) 44) eqn:M;
        [| decode_error].
      apply char_is_lt in M.
      pose proof (skip_ws_ge s (S (Json.skip_ws s e1))).
      apply IHa. lia.
Qed.

(** [json.loads] in the model raises decode errors only: the budget it
    gives the scanner is never used up. *)
Lemma loads_budget (s : pystr) : Json.loads s <> Raise Json.RecursionError.
Proof.
  unfold Json.loads, rbind.
  destruct (Json.starts_with [65279%N] s); [decode_error |].
  destruct (Json.scan_once (2 * List.length s + 2) s (Json.skip_ws s 0))
    as [[v e] | x] eqn:V.
  - cbn [fst snd].
    destruct (Json.skip_ws s e =? List.length s); [discriminate | decode_error].
  - intros X. injection X as X. subst x. revert V.
    apply (proj1 (scan_budget _)). lia.
Qed.

End Budget.

(* ================================================================== *)
(** * The decoder accepts what the encoder writes *)

Section Positions.

Lemma suffix_at_start (s : pystr) : suffix_at s 0 s.
Proof. exists []. split; reflexivity. Qed.

Lemma suffix_at_length (s : pystr) (idx : nat) (rest : pystr) :
  suffix_at s idx rest -> List.length s = idx + List.length rest.
Proof. intros (pre & -> & <-). apply length_app. Qed.

Lemma suffix_at_skipn (s : pystr) (idx : nat) (rest : pystr) :
  suffix_at s idx rest -> skipn idx s = rest.
Proof.
  intros (pre & -> & <-).
  rewrite skipn_app, Nat.sub_diag, skipn_all. reflexivity.
Qed.

Lemma suffix_at_app (s : pystr) (idx : nat) (l rest : pystr) :
  suffix_at s idx (l ++ rest) -> suffix_at s (idx + List.length l) rest.
Proof.
  intros (pre & -> & <-). exists (pre ++ l). split.
  - now rewrite <- app_assoc.
  - apply length_app.
Qed.

Lemma suffix_at_cons (s : pystr) (idx : nat) (c : N) (rest : pystr) :
  suffix_at s idx (c :: rest) -> suffix_at s (S idx) rest.
Proof.
  intros A. apply (suffix_at_app s idx [c] rest) in A.
  now rewrite Nat.add_1_r in A.
Qed.

Lemma suffix_at_nth (s : pystr) (idx : nat) (rest : pystr) :
  suffix_at s idx rest -> nth_error s idx = nth_error rest 0.
Proof.
  intros (pre & -> & <-).
  rewrite nth_error_app2 by lia. now rewrite Nat.sub_diag.
Qed.

Lemma char_is_at (s : pystr) (idx : nat) (rest : pystr) (c : N) :
  suffix_at s idx rest ->
  Json.char_is s idx c =
    match rest with
    | x :: _ => (x =? c)%N
    | [] => false
    end.
Proof.
  intros A. unfold Json.char_is. rewrite (suffix_at_nth s idx rest A).
  now destruct rest.
Qed.

Lemma skip_ws_at (s : pystr) (idx : nat) (rest : pystr) :
  suffix_at s idx rest -> Json.skip_ws s idx = idx + Json.ws_len rest.
Proof.
  intros A. unfold Json.skip_ws. now rewrite (suffix_at_skipn s idx rest A).
Qed.

(** White space followed by something else is skipped exactly. *)
Lemma ws_len_app (ws rest : pystr) :
  forallb Json.is_ws ws = true ->
  Json.ws_len (ws ++ rest) = List.length ws + Json.ws_len rest.
Proof.
  induction ws as [|c ws IH]; simpl; intros W; [reflexivity |].
  apply andb_true_iff in W as [Wc Ww]. rewrite Wc. now rewrite IH.
Qed.

Lemma ws_len_head (c : N) (rest : pystr) :
  Json.is_ws c = false -> Json.ws_len (c :: rest) = 0.
Proof. intros W. simpl. now rewrite W. Qed.

Lemma newline_indent_ws (indent : option nat) (level : nat) :
  forallb Json.is_ws (Json.newline_indent indent level) = true.
Proof.
  destruct indent as [n |]; simpl; [| reflexivity].
  induction (n * level) as [|k IH]; simpl; [reflexivity | exact IH].
Qed.

Lemma value_head_not_ws (c : N) : value_head c = true -> Json.is_ws c = false.
Proof.
  unfold value_head, Json.is_ws, Json.is_digit. intros V.
  destruct (N.eqb_spec c 32), (N.eqb_spec c 9), (N.eqb_spec c 10),
    (N.eqb_spec c 13); subst; try discriminate V; reflexivity.
Qed.

End Positions.

Section EncodedStrings.

Lemma hex_value_hex_digit (d : N) :
  (d < 16)%N -> Json.hex_value (Json.hex_digit d) = Some d.
Proof.
  intros B.
  assert (C : (d = 0 \/ d = 1 \/ d = 2 \/ d = 3 \/ d = 4 \/ d = 5 \/ d = 6
               \/ d = 7 \/ d = 8 \/ d = 9 \/ d = 10 \/ d = 11 \/ d = 12
               \/ d = 13 \/ d = 14 \/ d = 15)%N) by lia.
  repeat (destruct C as [-> | C]; [reflexivity |]). subst. reflexivity.
Qed.

(** Four hexadecimal digits written by the encoder read back as the code
    unit they stand for. *)
Lemma hex4_u_escape (n : N) :
  (n < 65536)%N ->
  exists h1 h2 h3 h4,
    Json.u_escape n = [92; 117; h1; h2; h3; h4]%N /\
    Json.hex4 [h1; h2; h3; h4] = Some n.
Proof.
  intros B. unfold Json.u_escape. do 4 eexists. split; [reflexivity |].
  unfold Json.hex4.
  rewrite !hex_value_hex_digit by (apply N.mod_lt; discriminate).
  f_equal.
  pose proof (N.div_mod n 16 ltac:(discriminate)) as D0.
  pose proof (N.div_mod (n / 16) 16 ltac:(discriminate)) as D1.
  pose proof (N.div_mod (n / 16 / 16) 16 ltac:(discriminate)) as D2.
  assert (Q2 : (n / 256 = n / 16 / 16)%N)
    by (rewrite N.Div0.div_div; reflexivity).
  assert (Q3 : (n / 4096 = n / 16 / 16 / 16)%N)
    by (rewrite !N.Div0.div_div; reflexivity).
  assert (S3 : (n / 16 / 16 / 16 < 16)%N).
  { rewrite !N.Div0.div_div. apply N.Div0.div_lt_upper_bound. exact B. }
  rewrite Q2, Q3. rewrite (N.mod_small _ _ S3). lia.
Qed.

(** The four shapes of what the encoder writes for one character. *)
Lemma escape_char_cases (c : N) :
  (exists e ch,
      Json.escape_char c = [92%N; e] /\ (e =? 117)%N = false /\
      Json.backslash e = Some ch) \/
  (Json.escape_char c = [c] /\ (c =? 34)%N = false /\ (c =? 92)%N = false /\
   (c <=? 31)%N = false) \/
  (Json.escape_char c = Json.u_escape c /\ (c < 65536)%N) \/
  (exists hi lo,
      Json.escape_char c = Json.u_escape hi ++ Json.u_escape lo /\
      (hi < 65536)%N /\ (lo < 65536)%N /\
      Json.is_high_surrogate hi = true /\ Json.is_low_surrogate lo = true).
Proof.
  unfold Json.escape_char.
  destruct (N.eqb_spec c 34) as [-> | N34].
  { left. exists 34%N, 34%N. repeat split. }
  destruct (N.eqb_spec c 92) as [-> | N92].
  { left. exists 92%N, 92%N. repeat split. }
  destruct (N.eqb_spec c 10) as [-> | N10].
  { left. exists 110%N, 10%N. repeat split. }
  destruct (N.eqb_spec c 13) as [-> | N13].
  { left. exists 114%N, 13%N. repeat split. }
  destruct (N.eqb_spec c 9) as [-> | N9].
  { left. exists 116%N, 9%N. repeat split. }
  destruct (N.eqb_spec c 8) as [-> | N8].
  { left. exists 98%N, 8%N. repeat split. }
  destruct (N.eqb_spec c 12) as [-> | N12].
  { left. exists 102%N, 12%N. repeat split. }
  destruct ((32 <=? c)%N && (c <=? 126)%N) eqn:Plain.
  { right. left. apply andb_true_iff in Plain as [Lo Hi].
    apply N.leb_le in Lo.
    repeat split. apply N.leb_gt. lia. }
  destruct (N.ltb_spec c 65536) as [Small | Big].
  { right. right. left. split; [reflexivity | exact Small]. }
  right. right. right.
  exists (55296 + ((c - 65536) / 1024) mod 1024)%N,
         (56320 + (c - 65536) mod 1024)%N.
  pose proof (N.mod_lt ((c - 65536) / 1024) 1024 ltac:(discriminate)).
  pose proof (N.mod_lt (c - 65536) 1024 ltac:(discriminate)).
  unfold Json.is_high_surrogate, Json.is_low_surrogate.
  split; [reflexivity |].
  generalize dependent (((c - 65536) / 1024) mod 1024)%N.
  generalize dependent ((c - 65536) mod 1024)%N.
  intros lo Blo hi Bhi.
  repeat split; try lia.
  - apply andb_true_iff. split; apply N.leb_le; lia.
  - apply andb_true_iff. split; apply N.leb_le; lia.
Qed.

Lemma high_is_not_low (c : N) :
  Json.is_high_surrogate c = true -> Json.is_low_surrogate c = false.
Proof.
  unfold Json.is_high_surrogate, Json.is_low_surrogate. intros Hc.
  apply andb_true_iff in Hc as [_ Hi]. apply N.leb_le in Hi.
  apply andb_false_iff. left. apply N.leb_gt. lia.
Qed.

Lemma suffix_at_nth0 (s : pystr) (idx : nat) (c : N) (rest : pystr) :
  suffix_at s idx (c :: rest) -> nth_error s idx = Some c.
Proof. intros A. now rewrite (suffix_at_nth s idx _ A). Qed.

Lemma suffix_at_nth1 (s : pystr) (idx : nat) (c d : N) (rest : pystr) :
  suffix_at s idx (c :: d :: rest) -> nth_error s (S idx) = Some d.
Proof. intros A. apply suffix_at_cons in A. exact (suffix_at_nth0 _ _ _ _ A). Qed.

(** Where the text stands at a [\u] escape: the four digits, what follows
    them, and that something does follow. *)
Lemma suffix_at_escape (s : pystr) (idx : nat) (a b h1 h2 h3 h4 : N)
  (rest : pystr) :
  suffix_at s idx (a :: b :: h1 :: h2 :: h3 :: h4 :: rest) ->
  firstn 4 (skipn (idx + 2) s) = [h1; h2; h3; h4] /\
  suffix_at s (idx + 6) rest /\
  List.length s = idx + 6 + List.length rest.
Proof.
  intros A. repeat split.
  - pose proof (suffix_at_app s idx [a; b] _ A) as A2. simpl in A2.
    now rewrite (suffix_at_skipn _ _ _ A2).
  - exact (suffix_at_app s idx [a; b; h1; h2; h3; h4] rest A).
  - rewrite (suffix_at_length _ _ _ A). simpl. lia.
Qed.

Lemma u_escape_head (n : N) :
  exists h1 h2 h3 h4, Json.u_escape n = [92; 117; h1; h2; h3; h4]%N.
Proof. unfold Json.u_escape. eauto. Qed.

(** An encoded character that begins like a [\u] escape is one, and its
    digits read back as a code unit that is a low surrogate only if the
    escape is the whole of what was written for the character. *)
Lemma escape_char_u (c : N) (rest : pystr) :
  Json.starts_with [92; 117]%N (Json.escape_char c ++ rest) = true ->
  exists h1 h2 h3 h4 uni tail,
    Json.escape_char c ++ rest = [92; 117; h1; h2; h3; h4]%N ++ tail /\
    Json.hex4 [h1; h2; h3; h4] = Some uni /\
    (Json.is_low_surrogate uni = true -> tail = rest).
Proof.
  intros S.
  destruct (escape_char_cases c)
    as [(e & ch & E & Ne & _) | [(E & _ & N92 & _) | [(E & Small)
        | (hi & lo & E & Bh & Bl & Hh & Hl)]]].
  - rewrite E in S. cbn [Json.starts_with app] in S.
    rewrite (N.eqb_sym 117 e), Ne, andb_false_r in S. discriminate S.
  - rewrite E in S. cbn [Json.starts_with app] in S.
    rewrite (N.eqb_sym 92 c), N92 in S. discriminate S.
  - destruct (hex4_u_escape c Small) as (h1 & h2 & h3 & h4 & U & X).
    exists h1, h2, h3, h4, c, rest. rewrite E, U. auto.
  - destruct (hex4_u_escape hi Bh) as (h1 & h2 & h3 & h4 & U & X).
    exists h1, h2, h3, h4, hi, (Json.u_escape lo ++ rest).
    rewrite E, U, <- app_assoc. repeat split; [exact X |].
    intros L. rewrite (high_is_not_low hi Hh) in L. discriminate L.
Qed.

(** The loop of [scanstring] reads an encoded string up to and including
    its closing quote. *)
Lemma scanstring_loop_encoded (n : nat) :
  forall k, List.length k <= n ->
  forall s begin pos acc fuel post,
    suffix_at s pos (flat_map Json.escape_char k ++ dq ++ post) ->
    List.length s - pos < fuel ->
    exists k',
      Json.scanstring_loop fuel s begin pos acc
      = Ok (k', pos + List.length (flat_map Json.escape_char k) + 1).
Proof.
  induction n as [|n IH]; intros k Hk s begin pos acc fuel post A B;
    (destruct fuel as [|fuel]; [lia |]); cbn [Json.scanstring_loop].
  - destruct k as [|c k]; [| simpl in Hk; lia]. simpl in A.
    rewrite (suffix_at_nth0 _ _ _ _ A). simpl.
    exists (rev acc). f_equal. f_equal. lia.
  - destruct k as [|c k].
    { simpl in A. rewrite (suffix_at_nth0 _ _ _ _ A). simpl.
      exists (rev acc). f_equal. f_equal. lia. }
    simpl in Hk. cbn [flat_map] in *. rewrite <- app_assoc in A.
    rewrite length_app.
    pose proof (suffix_at_length _ _ _ A) as Len.
    destruct (escape_char_cases c)
      as [(e & ch & E & Ne & Bs) | [(E & N34 & N92 & N31) | [(E & Small)
          | (hi & lo & E & Bh & Bl & Hh & Hl)]]].
    + (* a two-character escape *)
      rewrite E in *. simpl in A, Len.
      rewrite (suffix_at_nth0 _ _ _ _ A), (suffix_at_nth1 _ _ _ _ _ A).
      cbn [N.eqb Pos.eqb]. rewrite Ne, Bs.
      pose proof (suffix_at_app s pos [92%N; e] _ A) as A'. simpl in A'.
      destruct (IH k ltac:(lia) s begin (pos + 2) (ch :: acc) fuel post A'
                  ltac:(lia)) as [k' R].
      exists k'. rewrite R. f_equal. f_equal. simpl. lia.
    + (* a character written as it is *)
      rewrite E in *. simpl in A, Len.
      rewrite (suffix_at_nth0 _ _ _ _ A). rewrite N34, N92, N31.
      pose proof (suffix_at_cons _ _ _ _ A) as A'.
      destruct (IH k ltac:(lia) s begin (S pos) (c :: acc) fuel post A'
                  ltac:(lia)) as [k' R].
      exists k'. rewrite R. f_equal. f_equal. simpl. lia.
    + (* one [\u] escape *)
      destruct (hex4_u_escape c Small) as (h1 & h2 & h3 & h4 & U & X).
      rewrite E, U in *. simpl in A, Len.
      rewrite (suffix_at_nth0 _ _ _ _ A), (suffix_at_nth1 _ _ _ _ _ A).
      cbn [N.eqb Pos.eqb].
      destruct (suffix_at_escape _ _ _ _ _ _ _ _ _ A) as (F4 & A6 & L6).
      rewrite length_app in L6. simpl in L6.
      destruct (Nat.leb_spec (List.length s) (pos + 6)); [lia |].
      rewrite F4, X.
      destruct (Json.is_high_surrogate c
                && (pos + 6 + 6 <? List.length s)
                && Json.starts_with [92%N; 117%N] (skipn (pos + 6) s)) eqn:Pair.
      * apply andb_true_iff in Pair as [_ St].
        rewrite (suffix_at_skipn _ _ _ A6) in St.
        destruct k as [|c' k]; [simpl in St; discriminate St |].
        cbn [flat_map] in *. rewrite <- app_assoc in *.
        destruct (escape_char_u c' _ St)
          as (g1 & g2 & g3 & g4 & uni2 & tail & Eq & X2 & Low).
        rewrite Eq in A6.
        destruct (suffix_at_escape _ _ _ _ _ _ _ _ _ A6) as (G4 & A12 & _).
        rewrite G4, X2.
        destruct (Json.is_low_surrogate uni2) eqn:L2.
        -- rewrite (Low eq_refl) in A12.
           simpl in Hk.
           destruct (IH k ltac:(lia) s begin (pos + 6 + 6)
                       ((65536 + (c - 55296) * 1024 + (uni2 - 56320))%N :: acc)
                       fuel post A12 ltac:(lia)) as [k' R].
           exists k'. rewrite R. f_equal. f_equal.
           pose proof (f_equal (@List.length N) Eq) as Lc.
           rewrite (Low eq_refl), !length_app in Lc. simpl in Lc.
           rewrite !length_app. simpl. lia.
        -- rewrite <- Eq in A6.
           rewrite app_assoc in A6.
           change (Json.escape_char c' ++ flat_map Json.escape_char k)
             with (flat_map Json.escape_char (c' :: k)) in A6.
           destruct (IH (c' :: k) ltac:(simpl in *; lia) s begin (pos + 6)
                       (c :: acc) fuel post A6 ltac:(lia)) as [k' R].
           exists k'. rewrite R. f_equal. f_equal.
           cbn [flat_map]. rewrite !length_app. simpl. lia.
      * destruct (IH k ltac:(lia) s begin (pos + 6) (c :: acc) fuel post A6
                    ltac:(lia)) as [k' R].
        exists k'. rewrite R. f_equal. f_equal. simpl. lia.
    + (* a surrogate pair *)
      destruct (hex4_u_escape hi Bh) as (h1 & h2 & h3 & h4 & U & X).
      destruct (hex4_u_escape lo Bl) as (g1 & g2 & g3 & g4 & V & Y).
      rewrite E, U, V in *. simpl in A, Len.
      rewrite (suffix_at_nth0 _ _ _ _ A), (suffix_at_nth1 _ _ _ _ _ A).
      cbn [N.eqb Pos.eqb].
      destruct (suffix_at_escape _ _ _ _ _ _ _ _ _ A) as (F4 & A6 & L6).
      destruct (suffix_at_escape _ _ _ _ _ _ _ _ _ A6) as (G4 & A12 & L12).
      rewrite length_app in L12. simpl in L12.
      destruct (Nat.leb_spec (List.length s) (pos + 6)); [lia |].
      rewrite F4, X, Hh.
      destruct (Nat.ltb_spec (pos + 6 + 6) (List.length s)); [| lia].
      rewrite (suffix_at_skipn _ _ _ A6).
      cbn [Json.starts_with N.eqb Pos.eqb andb].
      rewrite G4, Y, Hl.
      destruct (IH k ltac:(lia) s begin (pos + 6 + 6)
                  ((65536 + (hi - 55296) * 1024 + (lo - 56320))%N :: acc)
                  fuel post A12 ltac:(lia)) as [k' R].
      exists k'. rewrite R. f_equal. f_equal. simpl. lia.
Qed.

(** [scanstring] reads an encoded string back. *)
Lemma scanstring_encoded (k : pystr) (s : pystr) (idx : nat) (post : pystr) :
  suffix_at s idx (Json.encode_basestring_ascii k ++ post) ->
  exists k',
    Json.scanstring s (S idx)
    = Ok (k', idx + List.length (Json.encode_basestring_ascii k)).
Proof.
  intros A. unfold Json.encode_basestring_ascii in *.
  rewrite <- !app_assoc in A. simpl in A.
  pose proof (suffix_at_length _ _ _ A) as Len.
  apply suffix_at_cons in A.
  destruct (scanstring_loop_encoded (List.length k) k (le_n _) s
              (S idx - 1) (S idx) [] (S (List.length s)) post A ltac:(lia))
    as [k' R].
  exists k'. unfold Json.scanstring. rewrite R. f_equal. f_equal.
  rewrite !length_app. simpl. lia.
Qed.

End EncodedStrings.

Section EncodedNumbers.

Lemma delimited_digits (post : pystr) :
  delimited post = true -> Json.digits_len post = 0.
Proof.
  destruct post as [|c post]; [reflexivity |]. unfold delimited. simpl.
  intros D. destruct (Json.is_digit c) eqn:Dg; [| reflexivity].
  unfold Json.is_digit, Json.is_ws in *.
  apply andb_true_iff in Dg as [Lo Hi].
  apply N.leb_le in Lo, Hi.
  destruct (N.eqb_spec c 44), (N.eqb_spec c 93), (N.eqb_spec c 125),
    (N.eqb_spec c 32), (N.eqb_spec c 9), (N.eqb_spec c 10),
    (N.eqb_spec c 13); try lia; discriminate D.
Qed.

Lemma delimited_head (post : pystr) (c : N) :
  delimited post = true ->
  (c =? 46)%N || (c =? 101)%N || (c =? 69)%N || (c =? 43)%N
  || (c =? 45)%N = true ->
  match post with x :: _ => (x =? c)%N | [] => false end = false.
Proof.
  destruct post as [|x post]; [reflexivity |]. unfold delimited, Json.is_ws.
  intros D C. destruct (N.eqb_spec x c) as [-> | NE]; [| reflexivity].
  destruct (N.eqb_spec c 46), (N.eqb_spec c 101), (N.eqb_spec c 69),
    (N.eqb_spec c 43), (N.eqb_spec c 45); subst;
    try discriminate C; discriminate D.
Qed.

Lemma delimited_frac (post : pystr) :
  delimited post = true -> Json.frac_len post = 0.
Proof.
  intros D. unfold Json.frac_len. destruct post as [|c post]; [reflexivity |].
  pose proof (delimited_head (c :: post) 46 D eq_refl) as H. simpl in H.
  now rewrite H.
Qed.

Lemma delimited_exp (post : pystr) :
  delimited post = true -> Json.exp_len post = 0.
Proof.
  intros D. unfold Json.exp_len. destruct post as [|c post]; [reflexivity |].
  pose proof (delimited_head (c :: post) 101 D eq_refl) as H1.
  pose proof (delimited_head (c :: post) 69 D eq_refl) as H2.
  simpl in H1, H2. now rewrite H1, H2.
Qed.

(** A run of digits is not made longer by what follows it, as long as
    that does not begin with a digit. *)
Lemma digits_len_app (l post : pystr) :
  Json.digits_len post = 0 -> Json.digits_len (l ++ post) = Json.digits_len l.
Proof.
  intros D. induction l as [|c l IH]; simpl; [exact D |].
  destruct (Json.is_digit c); [now rewrite IH | reflexivity].
Qed.

Lemma digits_len_le (l : pystr) : Json.digits_len l <= List.length l.
Proof.
  induction l as [|c l IH]; simpl; [lia |].
  destruct (Json.is_digit c); lia.
Qed.

Lemma int_len_app (l post : pystr) (n : nat) :
  Json.digits_len post = 0 ->
  Json.int_len l = Some n -> Json.int_len (l ++ post) = Some n.
Proof.
  intros D. unfold Json.int_len.
  destruct l as [|c l]; [discriminate |]. simpl.
  destruct (c =? 45)%N.
  - destruct l as [|d l]; [discriminate |]. simpl.
    destruct (d =? 48)%N; [easy |].
    destruct (Json.is_digit d); [| easy].
    now rewrite digits_len_app.
  - destruct (c =? 48)%N; [easy |].
    destruct (Json.is_digit c); [| easy].
    now rewrite digits_len_app.
Qed.

Lemma int_len_le (l : pystr) (n : nat) :
  Json.int_len l = Some n -> n <= List.length l.
Proof.
  unfold Json.int_len. destruct l as [|c l]; [discriminate |].
  destruct (c =? 45)%N.
  - destruct l as [|d l]; [discriminate |].
    pose proof (digits_len_le l).
    destruct (d =? 48)%N; [intros [= <-]; simpl; lia |].
    destruct (Json.is_digit d); [intros [= <-]; simpl; lia | discriminate].
  - pose proof (digits_len_le l).
    destruct (c =? 48)%N; [intros [= <-]; simpl; lia |].
    destruct (Json.is_digit c); [intros [= <-]; simpl; lia | discriminate].
Qed.

Lemma frac_len_app (l post : pystr) :
  delimited post = true -> Json.frac_len (l ++ post) = Json.frac_len l.
Proof.
  intros D. destruct l as [|c l]; [now apply delimited_frac |].
  unfold Json.frac_len. simpl.
  destruct (c =? 46)%N; [| reflexivity].
  now rewrite digits_len_app by now apply delimited_digits.
Qed.

Lemma frac_len_le (l : pystr) : Json.frac_len l <= List.length l.
Proof.
  unfold Json.frac_len. destruct l as [|c l]; [lia |].
  pose proof (digits_len_le l). simpl.
  destruct (c =? 46)%N; [| lia].
  destruct (Json.digits_len l); lia.
Qed.

Lemma exp_len_app (l post : pystr) :
  delimited post = true -> Json.exp_len (l ++ post) = Json.exp_len l.
Proof.
  intros D. pose proof (delimited_digits post D) as Dg.
  destruct l as [|c l]; [now apply delimited_exp |].
  unfold Json.exp_len. cbn [app].
  destruct ((c =? 101)%N || (c =? 69)%N); [| reflexivity].
  destruct l as [|d l]; cbn [app].
  - pose proof (delimited_head post 43 D eq_refl) as H1.
    pose proof (delimited_head post 45 D eq_refl) as H2.
    destruct post as [|x post]; [reflexivity |].
    rewrite H1, H2. cbn [orb skipn]. rewrite Dg. reflexivity.
  - destruct ((d =? 43)%N || (d =? 45)%N).
    + cbn [skipn]. now rewrite digits_len_app.
    + cbn [skipn]. change (d :: l ++ post) with ((d :: l) ++ post).
      now rewrite digits_len_app.
Qed.

(** A number that fills its text is still read, and still fills it, when
    a delimiter follows. *)
Lemma match_number_app (t post : pystr) (v : pyobj) :
  Json.match_number t = Some (v, List.length t) ->
  delimited post = true ->
  exists v', Json.match_number (t ++ post) = Some (v', List.length t).
Proof.
  unfold Json.match_number. intros M D.
  destruct (Json.int_len t) as [n |] eqn:I; [| discriminate].
  pose proof (int_len_le t n I) as Ln.
  rewrite (int_len_app t post n (delimited_digits post D) I).
  assert (S1 : skipn n (t ++ post) = skipn n t ++ post).
  { rewrite skipn_app. now replace (n - List.length t) with 0 by lia. }
  rewrite S1, frac_len_app by exact D.
  pose proof (frac_len_le (skipn n t)) as Lf. rewrite length_skipn in Lf.
  set (f := Json.frac_len (skipn n t)) in *.
  assert (S2 : skipn (n + f) (t ++ post) = skipn (n + f) t ++ post).
  { rewrite skipn_app. now replace (n + f - List.length t) with 0 by lia. }
  rewrite S2, exp_len_app by exact D.
  set (e := Json.exp_len (skipn (n + f) t)) in *.
  destruct (f + e) eqn:FE.
  - inversion M; subst. eauto.
  - inversion M as [[V L]]. rewrite L. eauto.
Qed.

(** The decimal digits of a number are digits. *)
Lemma uint_digits (d : Decimal.uint) :
  Json.digits_len (str (NilEmpty.string_of_uint d))
  = List.length (str (NilEmpty.string_of_uint d)).
Proof.
  induction d; simpl; try reflexivity; unfold str in IHd; now rewrite IHd.
Qed.

(** The decimal writing of a positive number does not begin with a zero. *)
Lemma pos_digits_head (p : positive) :
  exists c rest,
    str (NilEmpty.string_of_uint (Pos.to_uint p)) = c :: rest /\
    Json.is_digit c = true /\ (c =? 48)%N = false /\ (c =? 45)%N = false /\
    Json.digits_len rest = List.length rest.
Proof.
  pose proof (DecimalPos.Unsigned.to_of (Pos.to_uint p)) as TO.
  rewrite DecimalPos.Unsigned.of_to in TO. simpl in TO.
  pose proof (DecimalPos.Unsigned.to_uint_nonzero p) as NZ.
  assert (NH : forall d', Pos.to_uint p <> Decimal.D0 d').
  { intros d' E.
    destruct (Decimal.nzhead (Pos.to_uint p)) eqn:Hd.
    1: { unfold Decimal.unorm in TO. rewrite Hd in TO. exact (NZ TO). }
    all: rewrite DecimalFacts.unorm_nzhead in TO by (rewrite Hd; discriminate);
      apply (DecimalFacts.nzhead_nonzero (Pos.to_uint p) d');
      rewrite <- TO; exact E. }
  pose proof (DecimalPos.Unsigned.to_uint_nonnil p) as NN.
  destruct (Pos.to_uint p) as [| d | d | d | d | d | d | d | d | d | d ].
  - contradiction.
  - elim (NH d). reflexivity.
  - eexists _, _. split; [reflexivity |]. repeat split. apply uint_digits.
  - eexists _, _. split; [reflexivity |]. repeat split. apply uint_digits.
  - eexists _, _. split; [reflexivity |]. repeat split. apply uint_digits.
  - eexists _, _. split; [reflexivity |]. repeat split. apply uint_digits.
  - eexists _, _. split; [reflexivity |]. repeat split. apply uint_digits.
  - eexists _, _. split; [reflexivity |]. repeat split. apply uint_digits.
  - eexists _, _. split; [reflexivity |]. repeat split. apply uint_digits.
  - eexists _, _. split; [reflexivity |]. repeat split. apply uint_digits.
  - eexists _, _. split; [reflexivity |]. repeat split. apply uint_digits.
Qed.

(** [str(z)] is a number for the decoder, an integer that fills it. *)
Lemma match_number_int (z : Z) :
  exists v,
    Json.match_number (str_of_Z z) = Some (v, List.length (str_of_Z z)).
Proof.
  unfold str_of_Z, Z.to_int, NilZero.string_of_int.
  destruct z as [| p | p].
  - eexists. reflexivity.
  - destruct (pos_digits_head p) as (c & rest & E & Dg & N0 & N45 & All).
    unfold NilZero.string_of_uint.
    replace (match Pos.to_uint p with
             | Decimal.Nil => "0"%string
             | _ => NilEmpty.string_of_uint (Pos.to_uint p)
             end) with (NilEmpty.string_of_uint (Pos.to_uint p))
      by (pose proof (DecimalPos.Unsigned.to_uint_nonnil p);
          now destruct (Pos.to_uint p)).
    rewrite E. unfold Json.match_number, Json.int_len.
    rewrite N45, N0, Dg, All.
    rewrite skipn_all2 by (simpl; lia). cbn [Json.frac_len].
    rewrite skipn_all2 by (simpl; lia). cbn [Json.exp_len Nat.add].
    eexists. f_equal.
  - destruct (pos_digits_head p) as (c & rest & E & Dg & N0 & N45 & All).
    unfold NilZero.string_of_uint.
    replace (match Pos.to_uint p with
             | Decimal.Nil => "0"%string
             | _ => NilEmpty.string_of_uint (Pos.to_uint p)
             end) with (NilEmpty.string_of_uint (Pos.to_uint p))
      by (pose proof (DecimalPos.Unsigned.to_uint_nonnil p);
          now destruct (Pos.to_uint p)).
    change (str (String "-" (NilEmpty.string_of_uint (Pos.to_uint p))))
      with (45%N :: str (NilEmpty.string_of_uint (Pos.to_uint p))).
    rewrite E. unfold Json.match_number, Json.int_len.
    cbn [N.eqb Pos.eqb]. rewrite N0, Dg, All.
    rewrite skipn_all2 by (simpl; lia). cbn [Json.frac_len].
    rewrite skipn_all2 by (simpl; lia). cbn [Json.exp_len Nat.add].
    eexists. f_equal.
Qed.

End EncodedNumbers.

Section EncodedValues.

Context `{Json.Runtime}.

Lemma pystr_eqb_eq (a b : pystr) : pystr_eqb a b = true -> a = b.
Proof.
  revert b. induction a as [|x a IH]; intros [|y b] E; simpl in E;
    try discriminate; [reflexivity |].
  apply andb_true_iff in E as [Exy Eab]. apply N.eqb_eq in Exy.
  f_equal; [exact Exy | now apply IH].
Qed.

(** A number begins with a minus sign or a digit. *)
Lemma number_head (t : pystr) (v : pyobj) (n : nat) :
  Json.match_number t = Some (v, n) ->
  exists c t', t = c :: t' /\ ((c =? 45)%N || Json.is_digit c) = true.
Proof.
  unfold Json.match_number, Json.int_len. intros M.
  destruct t as [|c t]; [discriminate |]. exists c, t. split; [reflexivity |].
  destruct (c =? 45)%N; [reflexivity |]. simpl.
  destruct (c =? 48)%N eqn:Z0.
  - apply N.eqb_eq in Z0. now subst.
  - destruct (Json.is_digit c); [reflexivity | discriminate].
Qed.

Lemma number_head_tests (c : N) :
  ((c =? 45)%N || Json.is_digit c) = true ->
  (c =? 34)%N = false /\ (c =? 123)%N = false /\ (c =? 91)%N = false /\
  (110 =? c)%N = false /\ (116 =? c)%N = false /\ (102 =? c)%N = false.
Proof.
  unfold Json.is_digit. intros Hc.
  assert (R : (c = 45 \/ 48 <= c <= 57)%N).
  { apply orb_true_iff in Hc as [E | D].
    - left. now apply N.eqb_eq.
    - right. apply andb_true_iff in D as [Lo Hi].
      split; now apply N.leb_le. }
  repeat split; apply N.eqb_neq; lia.
Qed.

(** The scanner reads a number that fills its text and is followed by a
    delimiter. *)
Lemma scan_number (t post s : pystr) (idx fuel : nat) (v : pyobj) :
  suffix_at s idx (t ++ post) ->
  Json.match_number t = Some (v, List.length t) ->
  delimited post = true ->
  exists v', Json.scan_once (S fuel) s idx = Ok (v', idx + List.length t).
Proof.
  intros A M D.
  destruct (number_head t v _ M) as (c & t' & E & Hc).
  destruct (number_head_tests c Hc) as (T1 & T2 & T3 & T4 & T5 & T6).
  destruct (match_number_app t post v M D) as [v' M'].
  cbn [Json.scan_once].
  rewrite !(char_is_at s idx _ _ A), (suffix_at_skipn s idx _ A).
  rewrite M'. subst t. cbn [app Json.starts_with str map list_ascii_of_string].
  rewrite T1, T2, T3.
  change (N_of_ascii "n") with 110%N. change (N_of_ascii "t") with 116%N.
  change (N_of_ascii "f") with 102%N.
  rewrite T4, T5, T6. cbn [andb]. eauto.
Qed.

(** It reads the constants the encoder writes. *)
Lemma scan_constant (t post s : pystr) (idx fuel : nat) :
  suffix_at s idx (t ++ post) ->
  In t [str "null"; str "true"; str "false"; str "NaN"; str "Infinity";
        str "-Infinity"] ->
  exists v', Json.scan_once (S fuel) s idx = Ok (v', idx + List.length t).
Proof.
  intros A I. cbn [Json.scan_once].
  rewrite !(char_is_at s idx _ _ A), (suffix_at_skipn s idx _ A).
  simpl in I.
  destruct I as [<- | [<- | [<- | [<- | [<- | [<- | []]]]]]];
    simpl; eauto.
Qed.

(** It reads an encoded string. *)
Lemma scan_string (k post s : pystr) (idx fuel : nat) :
  suffix_at s idx (Json.encode_basestring_ascii k ++ post) ->
  exists v',
    Json.scan_once (S fuel) s idx
    = Ok (v', idx + List.length (Json.encode_basestring_ascii k)).
Proof.
  intros A. destruct (scanstring_encoded k s idx post A) as [k' R].
  cbn [Json.scan_once].
  rewrite (char_is_at s idx _ 34%N A).
  unfold Json.encode_basestring_ascii at 1. cbn [app dq N.eqb Pos.eqb].
  rewrite R. simpl. eauto.
Qed.

(** It reads an encoded [float]. *)
Lemma scan_float (f : pyfloat) (post s : pystr) (idx fuel : nat) :
  suffix_at s idx (Json.encode_float f ++ post) ->
  delimited post = true ->
  exists v',
    Json.scan_once (S fuel) s idx
    = Ok (v', idx + List.length (Json.encode_float f)).
Proof.
  intros A D. destruct f as [lexeme | | |]; cbn [Json.encode_float] in *.
  - pose proof (Json.floatstr_text lexeme) as T.
    unfold Json.is_float_text in T.
    apply orb_true_iff in T as [T | T];
      [apply orb_true_iff in T as [T | T];
       [apply orb_true_iff in T as [T | T] |] |].
    + destruct (Json.match_number (Json.floatstr lexeme))
        as [[v n] |] eqn:M; [| discriminate].
      destruct v; try discriminate. apply Nat.eqb_eq in T. subst n.
      exact (scan_number _ post s idx fuel _ A M D).
    + apply pystr_eqb_eq in T. rewrite T in *.
      apply (scan_constant _ post s idx fuel A). simpl. tauto.
    + apply pystr_eqb_eq in T. rewrite T in *.
      apply (scan_constant _ post s idx fuel A). simpl. tauto.
    + apply pystr_eqb_eq in T. rewrite T in *.
      apply (scan_constant _ post s idx fuel A). simpl. tauto.
  - apply (scan_constant _ post s idx fuel A). simpl. tauto.
  - apply (scan_constant _ post s idx fuel A). simpl. tauto.
  - apply (scan_constant _ post s idx fuel A). simpl. tauto.
Qed.

End EncodedValues.

Section EncodedContainers.

Context `{Json.Runtime}.

Variable indent : option nat.

Lemma skip_ws_over (s : pystr) (idx : nat) (ws : pystr) (c : N)
  (rest : pystr) :
  suffix_at s idx (ws ++ c :: rest) ->
  forallb Json.is_ws ws = true -> Json.is_ws c = false ->
  Json.skip_ws s idx = idx + List.length ws.
Proof.
  intros A W C. rewrite (skip_ws_at s idx _ A), (ws_len_app ws _ W).
  rewrite (ws_len_head c rest C). lia.
Qed.

Lemma item_separator_shape (level : nat) :
  exists ws,
    Json.item_separator indent level = 44%N :: ws /\
    forallb Json.is_ws ws = true.
Proof.
  unfold Json.item_separator. destruct indent as [n |].
  - exists (Json.newline_indent (Some n) level). split; [reflexivity |].
    apply newline_indent_ws.
  - exists [32%N]. split; reflexivity.
Qed.

(** Every encoded value begins with a character no white space and no
    closing bracket is. *)
Lemma encoded_head (v : pyobj) (level : nat) (text : pystr) :
  Json.iterencode indent level v = Ok text ->
  exists c t, text = c :: t /\ value_head c = true.
Proof.
  destruct v as [ | b | z | f | k | l | d | n]; cbn [Json.iterencode];
    unfold rbind.
  - intros [= <-]. eexists _, _. split; reflexivity.
  - destruct b; intros [= <-]; eexists _, _; split; reflexivity.
  - intros [= <-]. destruct (match_number_int z) as [v M].
    destruct (number_head _ _ _ M) as (c & t & E & Hc).
    exists c, t. split; [exact E |]. unfold value_head.
    apply orb_true_iff in Hc as [-> | ->];
      repeat rewrite ?orb_true_r, ?orb_true_l; reflexivity.
  - intros [= <-]. destruct f as [lexeme | | |]; cbn [Json.encode_float];
      try (eexists _, _; split; reflexivity).
    pose proof (Json.floatstr_text lexeme) as T. unfold Json.is_float_text in T.
    apply orb_true_iff in T as [T | T];
      [apply orb_true_iff in T as [T | T];
       [apply orb_true_iff in T as [T | T] |] |].
    + destruct (Json.match_number (Json.floatstr lexeme))
        as [[v n] |] eqn:M; [| discriminate].
      destruct (number_head _ _ _ M) as (c & t & E & Hc).
      exists c, t. split; [exact E |]. unfold value_head.
      apply orb_true_iff in Hc as [-> | ->];
        repeat rewrite ?orb_true_r, ?orb_true_l; reflexivity.
    + apply pystr_eqb_eq in T. rewrite T. eexists _, _. split; reflexivity.
    + apply pystr_eqb_eq in T. rewrite T. eexists _, _. split; reflexivity.
    + apply pystr_eqb_eq in T. rewrite T. eexists _, _. split; reflexivity.
  - intros [= <-]. eexists _, _. split; reflexivity.
  - destruct l as [|x rest]; [intros [= <-]; eexists _, _; split; reflexivity |].
    destruct (Json.iterencode indent (S level) x); [| discriminate].
    destruct (Json.encode_items _ _ rest); [| discriminate].
    intros [= <-]. eexists _, _. split; reflexivity.
  - destruct d as [|kv rest]; [intros [= <-]; eexists _, _; split; reflexivity |].
    destruct (Json.iterencode indent (S level) (snd kv)); [| discriminate].
    destruct (Json.encode_members _ _ rest); [| discriminate].
    intros [= <-]. eexists _, _. split; reflexivity.
  - discriminate.
Qed.

Lemma value_head_tests (c : N) :
  value_head c = true ->
  Json.is_ws c = false /\ (c =? 93)%N = false /\ (c =? 125)%N = false /\
  (c =? 44)%N = false.
Proof.
  intros V. split; [now apply value_head_not_ws |].
  unfold value_head, Json.is_digit in V.
  repeat split; apply N.eqb_neq; intros ->; discriminate V.
Qed.

(** What closes a container, after the indentation, is a delimiter. *)
Lemma delimited_close (level : nat) (c : N) (post : pystr) :
  c = 93%N \/ c = 125%N ->
  delimited (Json.newline_indent indent level ++ c :: post) = true.
Proof.
  intros C. unfold Json.newline_indent. destruct indent as [n |].
  - reflexivity.
  - cbn [app]. unfold delimited. destruct C as [-> | ->]; reflexivity.
Qed.

(** The loop of [JSONArray] reads the items the encoder wrote, from the
    start of an item to the closing bracket. *)
Lemma array_items_encoded (level : nat) (rest : list pyobj) :
  Forall (reads_back indent) rest ->
  forall x tx tl,
    reads_back indent x ->
    Json.iterencode indent (S level) x = Ok tx ->
    Json.encode_items (Json.iterencode indent (S level))
      (Json.item_separator indent (S level)) rest = Ok tl ->
    forall s e values fuel post,
      suffix_at s e
        (tx ++ tl ++ Json.newline_indent indent level ++ 93%N :: post) ->
      2 * (List.length s - e) + 2 <= fuel ->
      exists v',
        Json.array_items fuel s e values
        = Ok (v', e + List.length tx + List.length tl
                  + List.length (Json.newline_indent indent level) + 1).
Proof.
  induction 1 as [|y rest Py Prest IH];
    intros x tx tl Px Ex El s e values fuel post A B;
    (destruct fuel as [|fuel]; [lia |]); cbn [Json.array_items];
    pose proof (suffix_at_length _ _ _ A) as Len;
    rewrite ?length_app in Len; cbn [List.length] in Len.
  - simpl in El. injection El as <-. cbn [app] in *.
    destruct (Px (S level) tx Ex s e _ fuel A
                (delimited_close level 93%N post (or_introl eq_refl))
                ltac:(lia)) as [v1 R].
    rewrite R. unfold rbind. cbn [fst snd].
    pose proof (suffix_at_app _ _ _ _ A) as A1.
    rewrite (skip_ws_over s _ _ 93%N post A1 (newline_indent_ws _ _) eq_refl).
    pose proof (suffix_at_app _ _ _ _ A1) as A2.
    rewrite (char_is_at s _ _ 93%N A2). cbn [N.eqb Pos.eqb].
    eexists. f_equal. f_equal. simpl. lia.
  - cbn [Json.encode_items] in El. unfold rbind in El.
    destruct (Json.iterencode indent (S level) y) as [ty |] eqn:Ey;
      [| discriminate].
    destruct (Json.encode_items _ _ rest) as [tl' |] eqn:El'; [| discriminate].
    injection El as <-.
    destruct (item_separator_shape (S level)) as (ws & Sep & W).
    rewrite Sep in *. cbn [app] in A. rewrite <- !app_assoc in A.
    destruct (encoded_head y (S level) ty Ey) as (c & t & Ety & Vc).
    destruct (value_head_tests c Vc) as (Wc & _).
    destruct (Px (S level) tx Ex s e _ fuel A eq_refl ltac:(lia)) as [v1 R].
    rewrite R. unfold rbind. cbn [fst snd].
    pose proof (suffix_at_app _ _ _ _ A) as A1.
    rewrite (skip_ws_at s _ _ A1), (ws_len_head 44%N _ eq_refl), Nat.add_0_r.
    rewrite !(char_is_at s _ _ _ A1). cbn [N.eqb Pos.eqb].
    pose proof (suffix_at_cons _ _ _ _ A1) as A2.
    rewrite Ety in A2. cbn [app] in A2.
    rewrite (skip_ws_over s _ ws c _ A2 W Wc).
    pose proof (suffix_at_app _ _ _ _ A2) as A3.
    change (c :: t ++ tl' ++ Json.newline_indent indent level ++ 93%N :: post)
      with ((c :: t) ++ tl' ++ Json.newline_indent indent level
            ++ 93%N :: post) in A3.
    rewrite <- Ety in A3.
    rewrite ?length_app in Len. cbn [List.length] in Len.
    rewrite ?length_app in Len.
    destruct (IH y ty tl' Py Ey eq_refl s _ (values ++ [v1]) fuel post A3
                ltac:(lia)) as [v' R'].
    exists v'. rewrite R'. f_equal. f_equal.
    rewrite ?length_app. cbn [List.length]. rewrite ?length_app. lia.
Qed.

Lemma encode_members_cons (encode : pyobj -> result pystr) (sep : pystr)
  (kv : pystr * pyobj) (l : list (pystr * pyobj)) :
  Json.encode_members encode sep (kv :: l)
  = rbind (encode (snd kv)) (fun tv =>
    rbind (Json.encode_members encode sep l) (fun tl =>
    Ok (sep ++ Json.encode_basestring_ascii (fst kv) ++ Json.key_separator
        ++ tv ++ tl))).
Proof. reflexivity. Qed.

Lemma key_head (k x : pystr) :
  Json.encode_basestring_ascii k ++ x
  = 34%N :: (flat_map Json.escape_char k ++ dq) ++ x.
Proof. reflexivity. Qed.

(** The loop of [JSONObject] reads the members the encoder wrote, from
    the start of a key to the closing brace. *)
Lemma object_members_encoded (level : nat) (rest : list (pystr * pyobj)) :
  Forall (fun kv => reads_back indent (snd kv)) rest ->
  forall k v tv tl,
    reads_back indent v ->
    Json.iterencode indent (S level) v = Ok tv ->
    Json.encode_members (Json.iterencode indent (S level))
      (Json.item_separator indent (S level)) rest = Ok tl ->
    forall s e pairs fuel post,
      suffix_at s e
        (Json.encode_basestring_ascii k ++ Json.key_separator ++ tv ++ tl
         ++ Json.newline_indent indent level ++ 125%N :: post) ->
      2 * (List.length s - S e) + 1 <= fuel ->
      exists v',
        Json.object_members fuel s (S e) pairs
        = Ok (v', e + List.length (Json.encode_basestring_ascii k) + 2
                  + List.length tv + List.length tl
                  + List.length (Json.newline_indent indent level) + 1).
Proof.
  induction 1 as [|[k2 y] rest Py Prest IH];
    intros k v tv tl Pv Ev El s e pairs fuel post A B;
    (destruct fuel as [|fuel]; [lia |]); cbn [Json.object_members];
    pose proof (suffix_at_length _ _ _ A) as Len;
    rewrite ?length_app in Len; cbn [List.length] in Len;
    destruct (scanstring_encoded k s e _ A) as [k' K];
    rewrite K; unfold rbind; cbn [fst snd];
    pose proof (suffix_at_app _ _ _ _ A) as A1;
    unfold Json.key_separator in A1; cbn [str map list_ascii_of_string app] in A1;
    change (N_of_ascii ":") with 58%N in A1;
    change (N_of_ascii " ") with 32%N in A1;
    rewrite (skip_ws_at s _ _ A1), (ws_len_head 58%N _ eq_refl), Nat.add_0_r;
    rewrite (char_is_at s _ _ 58%N A1); cbn [N.eqb Pos.eqb];
    pose proof (suffix_at_cons _ _ _ _ A1) as A2;
    destruct (encoded_head v (S level) tv Ev) as (c & t & Etv & Vc);
    destruct (value_head_tests c Vc) as (Wc & _);
    rewrite Etv in A2; cbn [app] in A2;
    rewrite (skip_ws_over s _ [32%N] c _ A2 eq_refl Wc);
    pose proof (suffix_at_app s _ [32%N] _ A2) as A3;
    change (c :: t ++ tl ++ Json.newline_indent indent level ++ 125%N :: post)
      with ((c :: t) ++ tl ++ Json.newline_indent indent level
            ++ 125%N :: post) in A3;
    rewrite <- Etv in A3;
    unfold Json.key_separator in Len; cbn [str map list_ascii_of_string
                                           List.length] in Len.
  - simpl in El. injection El as <-. cbn [app] in *.
    destruct (Pv (S level) tv Ev s _ _ fuel A3
                (delimited_close level 125%N post (or_intror eq_refl))
                ltac:(cbn [List.length] in *; lia)) as [v1 R].
    rewrite R. cbn [fst snd].
    pose proof (suffix_at_app _ _ _ _ A3) as A4.
    rewrite (skip_ws_over s _ _ 125%N post A4 (newline_indent_ws _ _) eq_refl).
    pose proof (suffix_at_app _ _ _ _ A4) as A5.
    rewrite (char_is_at s _ _ 125%N A5). cbn [N.eqb Pos.eqb].
    eexists. f_equal. f_equal. cbn [List.length]. lia.
  - rewrite encode_members_cons in El. unfold rbind, fst, snd in El.
    destruct (Json.iterencode indent (S level) y) as [ty |] eqn:Ey;
      [| discriminate].
    destruct (Json.encode_members _ _ rest) as [tl' |] eqn:El';
      [| discriminate].
    match type of El with
    | Ok ?x = Ok _ => assert (Etl : tl = x) by congruence
    end.
    subst tl. clear El.
    destruct (item_separator_shape (S level)) as (ws & Sep & W).
    rewrite Sep in *. rewrite <- !app_assoc, <- app_comm_cons in A3.
    destruct (Pv (S level) tv Ev s _ _ fuel A3 eq_refl
                ltac:(cbn [List.length] in *; lia)) as [v1 R].
    rewrite R. cbn [fst snd].
    pose proof (suffix_at_app _ _ _ _ A3) as A4.
    rewrite (skip_ws_at s _ _ A4), (ws_len_head 44%N _ eq_refl), Nat.add_0_r.
    rewrite !(char_is_at s _ _ _ A4). cbn [N.eqb Pos.eqb].
    pose proof (suffix_at_cons _ _ _ _ A4) as A5.
    rewrite (key_head k2) in A5.
    rewrite (skip_ws_over s _ ws 34%N _ A5 W eq_refl).
    pose proof (suffix_at_app _ _ _ _ A5) as A6.
    rewrite (char_is_at s _ _ 34%N A6). cbn [N.eqb Pos.eqb].
    rewrite <- (key_head k2) in A6.
    simpl snd in *.
    rewrite ?length_app in Len. cbn [List.length] in Len.
    rewrite ?length_app in Len. cbn [List.length] in Len.
    pose proof (eq_refl : List.length Json.key_separator = 2) as Lks.
    destruct (IH k2 y ty tl' Py Ey eq_refl s _
                (pairs ++ [(k', v1)]) fuel post A6
                ltac:(cbn [List.length] in *; lia)) as [v' R'].
    exists v'. rewrite R'. f_equal. f_equal.
    rewrite ?length_app. cbn [List.length]. rewrite ?length_app.
    cbn [List.length]. lia.
Qed.

(** The scanner reads back every value the encoder accepts. *)
Lemma encoded_reads_back (v : pyobj) : reads_back indent v.
Proof.
  induction v as [ | b | z | f | k | l IH | d IH | n] using pyobj_induction;
    intros level text E s idx post fuel A D B;
    (destruct fuel as [|fuel]; [lia |]).
  - injection E as <-. apply (scan_constant _ post s idx fuel A).
    simpl. tauto.
  - destruct b; injection E as <-;
      apply (scan_constant _ post s idx fuel A); simpl; tauto.
  - injection E as <-. destruct (match_number_int z) as [v M].
    exact (scan_number _ post s idx fuel v A M D).
  - injection E as <-. exact (scan_float f post s idx fuel A D).
  - injection E as <-. exact (scan_string k post s idx fuel A).
  - pose proof (suffix_at_length _ _ _ A) as Len.
    destruct l as [|x rest].
    + injection E as <-. cbn [Json.scan_once].
      rewrite !(char_is_at s idx _ _ A). simpl.
      pose proof (suffix_at_cons _ _ _ _ A) as A1.
      rewrite (skip_ws_at s _ _ A1), (ws_len_head 93%N _ eq_refl), Nat.add_0_r.
      rewrite (char_is_at s _ _ 93%N A1). simpl.
      eexists. f_equal. f_equal. lia.
    + cbn [Json.iterencode] in E. unfold rbind in E.
      destruct (Json.iterencode indent (S level) x) as [tx |] eqn:Ex;
        [| discriminate].
      destruct (Json.encode_items _ _ rest) as [tl |] eqn:El; [| discriminate].
      match type of E with
      | Ok ?t = Ok _ => assert (Et : text = t) by congruence
      end.
      subst text. clear E.
      inversion IH as [|? ? Px Prest]; subst.
      destruct (encoded_head x (S level) tx Ex) as (c & t & Etx & Vc).
      destruct (value_head_tests c Vc) as (Wc & N93 & _).
      change (str "[") with [91%N] in *. change (str "]") with [93%N] in *.
      rewrite <- !app_assoc in A, Len. cbn [app] in A.
      cbn [Json.scan_once].
      rewrite !(char_is_at s idx _ _ A). cbn [N.eqb Pos.eqb].
      pose proof (suffix_at_cons _ _ _ _ A) as A1.
      rewrite Etx in A1. rewrite <- app_comm_cons in A1.
      rewrite (skip_ws_over s _ _ c _ A1 (newline_indent_ws _ _) Wc).
      pose proof (suffix_at_app _ _ _ _ A1) as A2.
      rewrite (char_is_at s _ _ 93%N A2). rewrite N93.
      rewrite app_comm_cons, <- Etx in A2.
      rewrite ?length_app in Len. cbn [List.length] in Len.
      destruct (array_items_encoded level rest Prest x tx tl Px Ex El s _ []
                  fuel post A2 ltac:(lia)) as [v' R].
      exists v'. rewrite R. f_equal. f_equal.
      rewrite ?length_app. cbn [List.length]. rewrite ?length_app.
      cbn [List.length]. lia.
  - pose proof (suffix_at_length _ _ _ A) as Len.
    destruct d as [|[k v] rest].
    + injection E as <-. cbn [Json.scan_once].
      rewrite !(char_is_at s idx _ _ A). simpl.
      pose proof (suffix_at_cons _ _ _ _ A) as A1.
      rewrite (skip_ws_at s _ _ A1), (ws_len_head 125%N _ eq_refl), Nat.add_0_r.
      rewrite !(char_is_at s _ _ _ A1). simpl.
      eexists. f_equal. f_equal. lia.
    + cbn [Json.iterencode] in E. unfold rbind, fst, snd in E.
      destruct (Json.iterencode indent (S level) v) as [tv |] eqn:Ev;
        [| discriminate].
      destruct (Json.encode_members _ _ rest) as [tl |] eqn:El;
        [| discriminate].
      match type of E with
      | Ok ?t = Ok _ => assert (Et : text = t) by congruence
      end.
      subst text. clear E.
      inversion IH as [|? ? Pv Prest]; subst. simpl in Pv.
      change (str "{") with [123%N] in *. change (str "}") with [125%N] in *.
      rewrite <- !app_assoc in A, Len. cbn [app] in A.
      cbn [Json.scan_once].
      rewrite !(char_is_at s idx _ _ A). cbn [N.eqb Pos.eqb].
      pose proof (suffix_at_cons _ _ _ _ A) as A1.
      rewrite (key_head k) in A1.
      rewrite (skip_ws_over s _ _ 34%N _ A1 (newline_indent_ws _ _) eq_refl).
      pose proof (suffix_at_app _ _ _ _ A1) as A2.
      rewrite (char_is_at s _ _ 34%N A2). cbn [N.eqb Pos.eqb].
      rewrite <- (key_head k) in A2.
      rewrite ?length_app in Len. cbn [List.length] in Len.
      pose proof (eq_refl : List.length Json.key_separator = 2) as Lks.
      destruct (object_members_encoded level rest Prest k v tv tl Pv Ev El
                  s _ [] fuel post A2 ltac:(lia)) as [v' R].
      exists v'. rewrite R. f_equal. f_equal.
      rewrite ?length_app. cbn [List.length]. rewrite ?length_app.
      cbn [List.length]. lia.
  - discriminate E.
Qed.

End EncodedContainers.

Section RoundTrip.

Context `{Json.Runtime}.

(** Whatever [json.dumps] returns, [json.loads] accepts: the encoder writes
    syntactically valid JSON. *)
Lemma loads_dumps (indent : option nat) (v : pyobj) (text : pystr) :
  Json.dumps indent v = Ok text -> exists v', Json.loads text = Ok v'.
Proof.
  intros E. unfold Json.dumps in E.
  destruct (encoded_head indent v 0 text E) as (c & t & Et & Vc).
  destruct (value_head_tests c Vc) as (Wc & _).
  assert (A : suffix_at text 0 (text ++ [])).
  { rewrite List.app_nil_r. apply suffix_at_start. }
  destruct (encoded_reads_back indent v 0 text E text 0 []
              (2 * List.length text + 2) A eq_refl ltac:(lia)) as [v' R].
  exists v'. unfold Json.loads.
  assert (NB : Json.starts_with [65279%N] text = false).
  { rewrite Et. cbn [Json.starts_with].
    destruct (N.eqb_spec 65279 c) as [<- | NE]; [discriminate Vc | reflexivity]. }
  assert (W0 : Json.skip_ws text 0 = 0).
  { unfold Json.skip_ws. rewrite Et. simpl. now rewrite Wc. }
  rewrite NB, W0, R. unfold rbind. cbn [fst snd Nat.add].
  unfold Json.skip_ws. rewrite skipn_all. simpl.
  rewrite Nat.add_0_r, Nat.eqb_refl. reflexivity.
Qed.

(** The encoding of a [dict] decodes to a [dict]. *)
Lemma loads_dumps_dict (indent : option nat) (d : list (pystr * pyobj))
  (text : pystr) :
  Json.dumps indent (PyDict d) = Ok text ->
  exists d', Json.loads text = Ok (PyDict d').
Proof.
  intros E. destruct (loads_dumps indent _ text E) as [v' L].
  assert (Hd : exists t, text = 123%N :: t).
  { unfold Json.dumps in E. cbn [Json.iterencode] in E. unfold rbind in E.
    destruct d as [|kv rest]; [injection E as <-; eexists; reflexivity |].
    destruct (Json.iterencode indent 1 (snd kv)); [| discriminate].
    destruct (Json.encode_members _ _ rest); [| discriminate].
    injection E as <-. eexists. reflexivity. }
  destruct Hd as [t Et]. rewrite Et in L.
  pose proof (loads_brace t v' L) as Dict.
  destruct v'; try discriminate Dict. rewrite Et. eauto.
Qed.

End RoundTrip.

(* ================================================================== *)
(** * Properties of the extraction step *)

(** The test fails exactly on the outputs without an outer-brace span. *)
Lemma guard_false_iff (raw : pystr) :
  guard raw = false <-> no_brace_span raw.
Proof.
  unfold no_brace_span, guard.
  rewrite <- (find_absent lbrace raw), <- (rfind_absent rbrace raw).
  pose proof (find_range lbrace raw) as Rf.
  pose proof (rfind_range rbrace raw) as Rr.
  rewrite andb_false_iff, negb_false_iff, Z.eqb_eq, Z.gtb_ltb, Z.ltb_ge.
  lia.
Qed.

(** The test succeeds exactly on the outputs with an outer-brace span. *)
Lemma guard_true_iff (raw : pystr) :
  guard raw = true <-> has_brace_span raw.
Proof.
  unfold has_brace_span, guard.
  pose proof (find_absent lbrace raw) as Af.
  pose proof (rfind_absent rbrace raw) as Ar.
  pose proof (find_range lbrace raw) as Rf.
  pose proof (rfind_range rbrace raw) as Rr.
  rewrite andb_true_iff, negb_true_iff, Z.eqb_neq, Z.gtb_ltb, Z.ltb_lt.
  split.
  - intros [NE LT]. repeat split; [| | lia].
    + destruct (in_dec N.eq_dec lbrace raw) as [I | NI]; [exact I |].
      apply Af in NI. contradiction.
    + destruct (in_dec N.eq_dec rbrace raw) as [I | NI]; [exact I |].
      apply Ar in NI. lia.
  - intros (Il & Ir & LE). split; [| lia].
    intros E. apply Af in E. contradiction.
Qed.

(** An output has an outer-brace span or it has none. *)
Lemma span_or_none (raw : pystr) : has_brace_span raw \/ no_brace_span raw.
Proof.
  destruct (guard raw) eqn:G.
  - left. now apply guard_true_iff.
  - right. now apply guard_false_iff.
Qed.

(** The slice both variants decode is the outer-brace span, and it begins
    with the opening brace. *)
Lemma span_head (raw : pystr) :
  has_brace_span raw -> exists t, outer_brace_span raw = lbrace :: t.
Proof.
  intros (Il & Ir & LE).
  destruct (find_present lbrace raw Il) as [R Hn].
  apply slice_head; [lia | exact Hn].
Qed.

(** So whatever the decoder makes of the span is a [dict]. *)
Lemma span_decodes_to_dict (raw : pystr) (parsed : pyobj) :
  has_brace_span raw ->
  Json.loads (outer_brace_span raw) = Ok parsed -> is_dict parsed = true.
Proof.
  intros Hs L. destruct (span_head raw Hs) as [t E].
  rewrite E in L. exact (loads_brace t parsed L).
Qed.

(* ================================================================== *)
(** * The one-shot adapter, path by path *)

Section OneShot.

Context `{Json.Runtime}.

(** Unfold the program down to the calls it makes. *)
Ltac run_main :=
  cbv beta iota zeta delta
    [Inference.main try_except bind lift ret modify raise rbind
     Inference.print Inference.get_model Inference.generate Inference.start
     Inference.llm Inference.stdout Inference.generations].

(** Print the verdict [verdict a b c], whose encoding is [text]. *)
Ltac print_verdict a b c :=
  let text := fresh "text" in
  let E := fresh "E" in
  destruct (dumps_verdict a b c) as [text E];
  exists text; split; [exact E |]; run_main.

Lemma loads_empty : exists e, Json.loads [] = Raise e.
Proof. eexists. reflexivity. Qed.

(** Empty input: [main] returns at once. *)
Lemma main_empty_stdin (from_pretrained : result Llama) (st : Inference.process) :
  Inference.main from_pretrained [] st = (Ok tt, st).
Proof. reflexivity. Qed.

(** Input that does not decode: the outer handler prints. *)
Lemma main_invalid_stdin (from_pretrained : result Llama) (stdin : pystr)
  (e : exn) :
  stdin <> [] ->
  Json.loads stdin = Raise e ->
  exists text,
    Json.dumps None
      (verdict (str "Error") (str "None")
         (str "Reason: Inference exception " ++ str_of_exn e)) = Ok text /\
    Inference.main from_pretrained stdin Inference.start =
      (Ok tt, {| Inference.llm := None;
                 Inference.stdout := [text];
                 Inference.generations := [] |}).
Proof.
  intros NE L. destruct stdin as [|c t]; [contradiction |].
  print_verdict (str "Error") (str "None")
    (str "Reason: Inference exception " ++ str_of_exn e).
  rewrite L. run_main. rewrite E. reflexivity.
Qed.

Section Decoded.

(** The input decodes to the context object [ctx]. *)
Variables (stdin : pystr) (ctx : pyobj).
Hypothesis decoded : Json.loads stdin = Ok ctx.

Lemma stdin_not_empty : exists c t, stdin = c :: t.
Proof.
  destruct stdin as [|c t]; [discriminate decoded | eauto].
Qed.

(** The model does not load: the outer handler prints. *)
Lemma main_load_fails (e : exn) :
  exists text,
    Json.dumps None
      (verdict (str "Error") (str "None")
         (str "Reason: Inference exception " ++ str_of_exn e)) = Ok text /\
    Inference.main (Raise e) stdin Inference.start =
      (Ok tt, {| Inference.llm := None;
                 Inference.stdout := [text];
                 Inference.generations := [] |}).
Proof.
  destruct stdin_not_empty as (c & t & Es).
  print_verdict (str "Error") (str "None")
    (str "Reason: Inference exception " ++ str_of_exn e).
  rewrite Es in *. rewrite decoded. run_main. rewrite E. reflexivity.
Qed.

Section Loaded.

(** The model loads, and the context serializes to [ser]. *)
Variables (model : Llama) (ser : pystr).
Hypothesis serialized : Json.dumps (Some 2) ctx = Ok ser.

(** Generation raises: the outer handler prints. *)
Lemma main_generation_fails (e : exn) :
  create_chat_completion model
    (spec_prompt Inference.SYSTEM_INSTRUCTION ser) = Raise e ->
  exists text,
    Json.dumps None
      (verdict (str "Error") (str "None")
         (str "Reason: Inference exception " ++ str_of_exn e)) = Ok text /\
    Inference.main (Ok model) stdin Inference.start =
      (Ok tt, {| Inference.llm := Some model;
                 Inference.stdout := [text];
                 Inference.generations :=
                   [spec_prompt Inference.SYSTEM_INSTRUCTION ser] |}).
Proof.
  intros G. destruct stdin_not_empty as (c & t & Es).
  print_verdict (str "Error") (str "None")
    (str "Reason: Inference exception " ++ str_of_exn e).
  rewrite Es in *. rewrite decoded. run_main. rewrite serialized. run_main.
  unfold spec_prompt in G. rewrite G. rewrite E. reflexivity.
Qed.

Section Generated.

(** The model answers the prompt with [raw]. *)
Variable raw : pystr.
Hypothesis generated :
  create_chat_completion model
    (spec_prompt Inference.SYSTEM_INSTRUCTION ser) = Ok raw.

(** Run [main] up to the test on the raw output. *)
Ltac run_to_guard c t Es :=
  destruct stdin_not_empty as (c & t & Es);
  run_main; rewrite Es in *; rewrite decoded; run_main;
  rewrite serialized; run_main;
  let G := fresh "G" in
  pose proof generated as G; unfold spec_prompt in G; rewrite G;
  change (negb (find raw lbrace =? -1)%Z
          && (rfind raw rbrace + 1 >? find raw lbrace)%Z) with (guard raw);
  change (slice raw (find raw lbrace) (rfind raw rbrace + 1))
    with (outer_brace_span raw).

(** No outer-brace span: the fixed fallback is printed. *)
Lemma main_no_span :
  no_brace_span raw ->
  exists text,
    Json.dumps None
      (verdict (str "Monitoring.") (str "Review log.")
         (str "Reason: Output parsing error.")) = Ok text /\
    Inference.main (Ok model) stdin Inference.start =
      (Ok tt, {| Inference.llm := Some model;
                 Inference.stdout := [text];
                 Inference.generations :=
                   [spec_prompt Inference.SYSTEM_INSTRUCTION ser] |}).
Proof.
  intros NS. apply guard_false_iff in NS.
  destruct (dumps_verdict (str "Monitoring.") (str "Review log.")
              (str "Reason: Output parsing error.")) as [text E].
  exists text. split; [exact E |].
  run_to_guard c t Es. rewrite NS, E. reflexivity.
Qed.

(** The span decodes: the decoded object is printed. *)
Lemma main_span_decodes (parsed : pyobj) :
  has_brace_span raw ->
  Json.loads (outer_brace_span raw) = Ok parsed ->
  exists text,
    Json.dumps None parsed = Ok text /\
    Inference.main (Ok model) stdin Inference.start =
      (Ok tt, {| Inference.llm := Some model;
                 Inference.stdout := [text];
                 Inference.generations :=
                   [spec_prompt Inference.SYSTEM_INSTRUCTION ser] |}).
Proof.
  intros Hs L.
  destruct (dumps_serializable None parsed (loads_serializable _ _ L))
    as [text E].
  exists text. split; [exact E |].
  apply guard_true_iff in Hs.
  run_to_guard c t Es. rewrite Hs, L. run_main. rewrite E. reflexivity.
Qed.

(** The span does not decode: the inner handler prints. *)
Lemma main_span_fails (e : exn) :
  has_brace_span raw ->
  Json.loads (outer_brace_span raw) = Raise e ->
  exists text,
    Json.dumps None
      (verdict (str "Error") (str "None")
         (str "Reason: Parsing exception " ++ str_of_exn e)) = Ok text /\
    Inference.main (Ok model) stdin Inference.start =
      (Ok tt, {| Inference.llm := Some model;
                 Inference.stdout := [text];
                 Inference.generations :=
                   [spec_prompt Inference.SYSTEM_INSTRUCTION ser] |}).
Proof.
  intros Hs L.
  destruct (dumps_verdict (str "Error") (str "None")
              (str "Reason: Parsing exception " ++ str_of_exn e)) as [text E].
  exists text. split; [exact E |].
  apply guard_true_iff in Hs.
  run_to_guard c t Es. rewrite Hs, L. run_main. rewrite E. reflexivity.
Qed.

End Generated.
End Loaded.
End Decoded.

End OneShot.

(* ================================================================== *)
(** * The service, path by path *)

Section Service.

Context `{Json.Runtime}.

Variable llm : Llama.

(** Unfold the view down to the calls it makes. *)
Ltac run_view :=
  cbv beta iota zeta delta
    [Server.inference try_except bind lift ret modify raise rbind
     Server.logger Server.generate Server.start
     Server.with_status Server.json Server.status_code
     Server.log Server.generations].

(** The envelope the handler of [inference] answers with. *)
Lemma jsonify_verdict (a b c : pystr) :
  Server.jsonify (verdict a b c) =
    Ok {| Server.json := verdict a b c; Server.status_code := 200 |}.
Proof.
  unfold Server.jsonify. destruct (dumps_verdict a b c) as [text E].
  rewrite E. reflexivity.
Qed.

(** What the decoder returned, [jsonify] accepts. *)
Lemma jsonify_serializable (o : pyobj) :
  serializable o = true ->
  Server.jsonify o = Ok {| Server.json := o; Server.status_code := 200 |}.
Proof.
  intros S. unfold Server.jsonify.
  destruct (dumps_serializable None o S) as [text E].
  rewrite E. reflexivity.
Qed.

(** [request.json] raises: the handler answers 500. *)
Lemma inference_request_fails (e : exn) :
  Server.inference llm (Raise e) Server.start =
    (Ok {| Server.json :=
             verdict (str "Error. Monitoring active.") (str "None.")
                     (str "Reason: " ++ str_of_exn e);
           Server.status_code := 500 |},
     {| Server.log := [str "Inference error: " ++ str_of_exn e];
        Server.generations := [] |}).
Proof.
  unfold Server.inference, try_except, bind, lift.
  rewrite jsonify_verdict. reflexivity.
Qed.

Section Received.

(** [request.json] evaluates to the context object [ctx]. *)
Variable ctx : pyobj.

(** The context does not serialize: the handler answers 500. *)
Lemma inference_serialization_fails (e : exn) :
  Json.dumps (Some 2) ctx = Raise e ->
  Server.inference llm (Ok ctx) Server.start =
    (Ok {| Server.json :=
             verdict (str "Error. Monitoring active.") (str "None.")
                     (str "Reason: " ++ str_of_exn e);
           Server.status_code := 500 |},
     {| Server.log := [str "Inference error: " ++ str_of_exn e];
        Server.generations := [] |}).
Proof.
  intros D. unfold Server.inference, try_except, bind, lift.
  rewrite D, jsonify_verdict. reflexivity.
Qed.

Section Serialized.

Variable ser : pystr.
Hypothesis serialized : Json.dumps (Some 2) ctx = Ok ser.

(** Generation raises: the handler answers 500. *)
Lemma inference_generation_fails (e : exn) :
  create_chat_completion llm (spec_prompt Server.SYSTEM_INSTRUCTION ser)
    = Raise e ->
  Server.inference llm (Ok ctx) Server.start =
    (Ok {| Server.json :=
             verdict (str "Error. Monitoring active.") (str "None.")
                     (str "Reason: " ++ str_of_exn e);
           Server.status_code := 500 |},
     {| Server.log := [str "Running local Mistral inference...";
                       str "Inference error: " ++ str_of_exn e];
        Server.generations := [spec_prompt Server.SYSTEM_INSTRUCTION ser] |}).
Proof.
  intros G. unfold spec_prompt in G.
  unfold Server.inference, try_except, bind, lift.
  rewrite serialized. run_view. rewrite G, jsonify_verdict. reflexivity.
Qed.

Section Generated.

Variable raw : pystr.
Hypothesis generated :
  create_chat_completion llm (spec_prompt Server.SYSTEM_INSTRUCTION ser)
    = Ok raw.

(** Run the view up to the test on the raw output. *)
Ltac run_to_guard :=
  unfold Server.inference, try_except, bind, lift;
  rewrite serialized; run_view;
  let G := fresh "G" in
  pose proof generated as G; unfold spec_prompt in G; rewrite G;
  change (negb (find raw lbrace =? -1)%Z
          && (rfind raw rbrace + 1 >? find raw lbrace)%Z) with (guard raw);
  change (slice raw (find raw lbrace) (rfind raw rbrace + 1))
    with (outer_brace_span raw).

(** No outer-brace span: the service's fixed fallback, with status 200. *)
Lemma inference_no_span :
  no_brace_span raw ->
  Server.inference llm (Ok ctx) Server.start =
    (Ok {| Server.json :=
             verdict (str "Monitoring.") (str "Continue normal activities.")
                     (str "Reason: System check complete.");
           Server.status_code := 200 |},
     {| Server.log := [str "Running local Mistral inference...";
                       str "Response: " ++ slice raw 0 100 ++ str "..."];
        Server.generations := [spec_prompt Server.SYSTEM_INSTRUCTION ser] |}).
Proof.
  intros NS. apply guard_false_iff in NS.
  run_to_guard. rewrite NS, jsonify_verdict. reflexivity.
Qed.

(** The span decodes: the decoded object is the answer, with status 200. *)
Lemma inference_span_decodes (parsed : pyobj) :
  has_brace_span raw ->
  Json.loads (outer_brace_span raw) = Ok parsed ->
  Server.inference llm (Ok ctx) Server.start =
    (Ok {| Server.json := parsed; Server.status_code := 200 |},
     {| Server.log := [str "Running local Mistral inference...";
                       str "Response: " ++ slice raw 0 100 ++ str "..."];
        Server.generations := [spec_prompt Server.SYSTEM_INSTRUCTION ser] |}).
Proof.
  intros Hs L. apply guard_true_iff in Hs.
  run_to_guard. rewrite Hs, L. run_view.
  rewrite (jsonify_serializable parsed (loads_serializable _ _ L)).
  reflexivity.
Qed.

(** The span does not decode: the handler answers 500. *)
Lemma inference_span_fails (e : exn) :
  has_brace_span raw ->
  Json.loads (outer_brace_span raw) = Raise e ->
  Server.inference llm (Ok ctx) Server.start =
    (Ok {| Server.json :=
             verdict (str "Error. Monitoring active.") (str "None.")
                     (str "Reason: " ++ str_of_exn e);
           Server.status_code := 500 |},
     {| Server.log := [str "Running local Mistral inference...";
                       str "Response: " ++ slice raw 0 100 ++ str "...";
                       str "Inference error: " ++ str_of_exn e];
        Server.generations := [spec_prompt Server.SYSTEM_INSTRUCTION ser] |}).
Proof.
  intros Hs L. apply guard_true_iff in Hs.
  run_to_guard. rewrite Hs, L. run_view. rewrite jsonify_verdict.
  reflexivity.
Qed.

End Generated.
End Serialized.
End Received.

End Service.

(* ================================================================== *)
(** * The lock discipline *)

Section LockDiscipline.

Import Lock.

Lemma update_same (f : nat -> pc) (i : nat) (p : pc) : update f i p i = p.
Proof. unfold update. now rewrite Nat.eqb_refl. Qed.

Lemma update_other (f : nat -> pc) (i j : nat) (p : pc) :
  j <> i -> update f i p j = f j.
Proof.
  intros NE. unfold update. destruct (Nat.eqb_spec j i); [contradiction | easy].
Qed.

(** A step that keeps the lock as it is and keeps the thread on its side
    of the [with] block changes nothing for the discipline. *)
Lemma exclusive_same_side (st : state) (i : nat) (p : pc) :
  in_with p = in_with (pcs st i) ->
  exclusive st ->
  exclusive {| locked := locked st; pcs := update (pcs st) i p |}.
Proof.
  intros Side [Free Uniq].
  assert (Same : forall j, in_with (update (pcs st) i p j) = in_with (pcs st j)).
  { intros j. destruct (Nat.eq_dec j i) as [-> | NE].
    - now rewrite update_same.
    - now rewrite update_other. }
  split; simpl.
  - intros L j. rewrite Same. now apply Free.
  - intros j k. rewrite !Same. apply Uniq.
Qed.

(** Taking the free lock makes the thread its only holder. *)
Lemma exclusive_acquire (st : state) (i : nat) (p : pc) :
  locked st = false ->
  exclusive st ->
  exclusive {| locked := true; pcs := update (pcs st) i p |}.
Proof.
  intros L [Free Uniq]. split; simpl.
  - discriminate.
  - intros j k Hj Hk.
    destruct (Nat.eq_dec j i) as [-> | NJ], (Nat.eq_dec k i) as [-> | NK];
      try reflexivity.
    + rewrite update_other in Hk by assumption.
      rewrite (Free L k) in Hk. discriminate.
    + rewrite update_other in Hj by assumption.
      rewrite (Free L j) in Hj. discriminate.
    + rewrite update_other in Hj by assumption.
      rewrite (Free L j) in Hj. discriminate.
Qed.

(** When the holder leaves the [with] block nobody holds the lock. *)
Lemma exclusive_release (st : state) (i : nat) (p : pc) :
  in_with (pcs st i) = true ->
  in_with p = false ->
  exclusive st ->
  exclusive {| locked := false; pcs := update (pcs st) i p |}.
Proof.
  intros Hi Hp [Free Uniq].
  assert (None : forall j, in_with (update (pcs st) i p j) = false).
  { intros j. destruct (Nat.eq_dec j i) as [-> | NE].
    - now rewrite update_same.
    - rewrite update_other by assumption.
      destruct (in_with (pcs st j)) eqn:Hj; [| reflexivity].
      elim NE. now apply Uniq. }
  split; simpl.
  - intros _. exact None.
  - intros j k Hj. rewrite None in Hj. discriminate.
Qed.

(** Every step keeps the discipline. *)
Lemma exclusive_step (st : state) (i : nat) (raises : bool) :
  exclusive st -> exclusive (step st i raises).
Proof.
  intros Ex. unfold step, next.
  destruct (pcs st i) eqn:P.
  - apply exclusive_same_side; [now rewrite P | exact Ex].
  - destruct (locked st) eqn:L.
    + rewrite <- L. apply exclusive_same_side; [now rewrite P | exact Ex].
    + apply exclusive_acquire; assumption.
  - apply exclusive_same_side; [rewrite P; now destruct raises | exact Ex].
  - apply exclusive_same_side; [rewrite P; now destruct raises | exact Ex].
  - destruct raises.
    + apply exclusive_same_side; [now rewrite P | exact Ex].
    + apply exclusive_release; [now rewrite P | reflexivity | exact Ex].
  - apply exclusive_release; [now rewrite P | reflexivity | exact Ex].
  - apply exclusive_same_side; [now rewrite P | exact Ex].
Qed.

Lemma exclusive_start : exclusive start.
Proof. split; simpl; [reflexivity | discriminate]. Qed.

(** The discipline holds after every schedule. *)
Lemma exclusive_exec (sched : schedule) (st : state) :
  exclusive st -> exclusive (exec sched st).
Proof.
  revert st. induction sched as [|[i raises] sched IH]; intros st Ex; simpl.
  - exact Ex.
  - apply IH. now apply exclusive_step.
Qed.

End LockDiscipline.

(* ================================================================== *)
(** * The request pipeline as a whole *)

Section Pipeline.

Context `{Json.Runtime}.


(** On non-empty input [main] ends normally and has printed exactly one
    line, the encoding of a [dict], which is valid JSON for an object. *)
Lemma main_prints_object (from_pretrained : result Llama) (stdin : pystr) :
  stdin <> [] ->
  exists d line st,
    Inference.main from_pretrained stdin Inference.start = (Ok tt, st) /\
    Inference.stdout st = [line] /\
    Json.dumps None (PyDict d) = Ok line /\
    exists d', Json.loads line = Ok (PyDict d').
Proof.
  intros NE.
  destruct (Json.loads stdin) as [ctx | e] eqn:L.
  2: { destruct (main_invalid_stdin from_pretrained stdin e NE L)
         as (text & E & R).
       eexists _, text, _. split; [exact R |]. split; [reflexivity |].
       split; [exact E | exact (loads_dumps_dict None _ text E)]. }
  destruct from_pretrained as [model | e].
  2: { destruct (main_load_fails stdin ctx L e) as (text & E & R).
       eexists _, text, _. split; [exact R |]. split; [reflexivity |].
       split; [exact E | exact (loads_dumps_dict None _ text E)]. }
  destruct (dumps_serializable (Some 2) ctx (loads_serializable _ _ L))
    as [ser D].
  destruct (create_chat_completion model
              (spec_prompt Inference.SYSTEM_INSTRUCTION ser))
    as [raw | e] eqn:G.
  2: { destruct (main_generation_fails stdin ctx L model ser D e G)
         as (text & E & R).
       eexists _, text, _. split; [exact R |]. split; [reflexivity |].
       split; [exact E | exact (loads_dumps_dict None _ text E)]. }
  destruct (span_or_none raw) as [Hs | NS].
  2: { destruct (main_no_span stdin ctx L model ser D raw G NS)
         as (text & E & R).
       eexists _, text, _. split; [exact R |]. split; [reflexivity |].
       split; [exact E | exact (loads_dumps_dict None _ text E)]. }
  destruct (Json.loads (outer_brace_span raw)) as [parsed | e] eqn:P.
  - destruct (main_span_decodes stdin ctx L model ser D raw G parsed Hs P)
      as (text & E & R).
    pose proof (span_decodes_to_dict raw parsed Hs P) as Dict.
    destruct parsed; try discriminate Dict.
    eexists _, text, _. split; [exact R |]. split; [reflexivity |].
       split; [exact E | exact (loads_dumps_dict None _ text E)].
  - destruct (main_span_fails stdin ctx L model ser D raw G e Hs P)
      as (text & E & R).
    eexists _, text, _. split; [exact R |]. split; [reflexivity |].
       split; [exact E | exact (loads_dumps_dict None _ text E)].
Qed.



(** Claim C2, as amended.  When the raw output has no outer-brace span, the
    one-shot variant prints the verdict with status [Monitoring.], action
    [Review log.] and explanation [Reason: Output parsing error.]; the
    service answers 200 with status [Monitoring.], action
    [Continue normal activities.] and explanation
    [Reason: System check complete.]. *)
Theorem no_span_fallback (stdin : pystr) (ctx : pyobj) (ser : pystr)
  (model llm : Llama) (raw : pystr) :
  Json.loads stdin = Ok ctx ->
  Json.dumps (Some 2) ctx = Ok ser ->
  create_chat_completion model
    (spec_prompt Inference.SYSTEM_INSTRUCTION ser) = Ok raw ->
  create_chat_completion llm
    (spec_prompt Server.SYSTEM_INSTRUCTION ser) = Ok raw ->
  no_brace_span raw ->
  (exists line,
      Json.dumps None
        (verdict (str "Monitoring.") (str "Review log.")
           (str "Reason: Output parsing error.")) = Ok line /\
      Inference.main (Ok model) stdin Inference.start =
        (Ok tt, {| Inference.llm := Some model;
                   Inference.stdout := [line];
                   Inference.generations :=
                     [spec_prompt Inference.SYSTEM_INSTRUCTION ser] |})) /\
  fst (Server.inference llm (Ok ctx) Server.start) =
    Ok {| Server.json :=
            verdict (str "Monitoring.") (str "Continue normal activities.")
                    (str "Reason: System check complete.");
          Server.status_code := 200 |}.
Proof.
  intros L D G1 G2 NS. split.
  - exact (main_no_span stdin ctx L model ser D raw G1 NS).
  - now rewrite (inference_no_span llm ctx ser D raw G2 NS).
Qed.


(** Claim C4, as amended.  When the raw output has an outer-brace span that
    does not decode, the one-shot variant prints the verdict with status
    [Error], action [None] and the explanation [Reason: Parsing exception]
    followed by the decoder's message; the service answers 500 with status
    [Error. Monitoring active.], action [None.] and the explanation
    [Reason:] followed by the decoder's message. *)
Theorem undecodable_span_fallback (stdin : pystr) (ctx : pyobj) (ser : pystr)
  (model llm : Llama) (raw : pystr) (e : exn) :
  Json.loads stdin = Ok ctx ->
  Json.dumps (Some 2) ctx = Ok ser ->
  create_chat_completion model
    (spec_prompt Inference.SYSTEM_INSTRUCTION ser) = Ok raw ->
  create_chat_completion llm
    (spec_prompt Server.SYSTEM_INSTRUCTION ser) = Ok raw ->
  has_brace_span raw ->
  Json.loads (outer_brace_span raw) = Raise e ->
  (exists line,
      Json.dumps None
        (verdict (str "Error") (str "None")
           (str "Reason: Parsing exception " ++ str_of_exn e)) = Ok line /\
      Inference.main (Ok model) stdin Inference.start =
        (Ok tt, {| Inference.llm := Some model;
                   Inference.stdout := [line];
                   Inference.generations :=
                     [spec_prompt Inference.SYSTEM_INSTRUCTION ser] |})) /\
  fst (Server.inference llm (Ok ctx) Server.start) =
    Ok {| Server.json :=
            verdict (str "Error. Monitoring active.") (str "None.")
                    (str "Reason: " ++ str_of_exn e);
          Server.status_code := 500 |}.
Proof.
  intros L D G1 G2 Hs P. split.
  - exact (main_span_fails stdin ctx L model ser D raw G1 e Hs P).
  - now rewrite (inference_span_fails llm ctx ser D raw G2 e Hs P).
Qed.







(** Claim C8.  On empty standard input [main] returns normally at once:
    nothing is printed, the model is neither loaded nor asked.  This holds
    whether or not the model could be loaded, and in whatever state the
    process is: the run leaves it as it found it. *)
Theorem empty_stdin_is_silent (from_pretrained : result Llama) :
  Inference.main from_pretrained [] Inference.start =
    (Ok tt, {| Inference.llm := None;
               Inference.stdout := [];
               Inference.generations := [] |}) /\
  forall st : Inference.process,
    Inference.main from_pretrained [] st = (Ok tt, st).
Proof.
  split.
  - reflexivity.
  - intros st. unfold Inference.main, try_except, ret. reflexivity.
Qed.



(** An output with an opening brace and no closing brace at all, such as
    one cut off by the token limit, is not handed to the decoder: the
    one-shot variant prints the fallback for a missing span, with
    explanation [Reason: Output parsing error.]. *)
Theorem unclosed_brace_is_no_json_found (stdin : pystr) (ctx : pyobj)
  (ser : pystr) (model : Llama) (raw : pystr) :
  Json.loads stdin = Ok ctx ->
  Json.dumps (Some 2) ctx = Ok ser ->
  create_chat_completion model
    (spec_prompt Inference.SYSTEM_INSTRUCTION ser) = Ok raw ->
  In lbrace raw ->
  ~ In rbrace raw ->
  exists line,
    Json.dumps None
      (verdict (str "Monitoring.") (str "Review log.")
         (str "Reason: Output parsing error.")) = Ok line /\
    Inference.main (Ok model) stdin Inference.start =
      (Ok tt, {| Inference.llm := Some model;
                 Inference.stdout := [line];
                 Inference.generations :=
                   [spec_prompt Inference.SYSTEM_INSTRUCTION ser] |}).
Proof.
  intros L D G _ NR.
  apply (main_no_span stdin ctx L model ser D raw G).
  right. left. exact NR.
Qed.

(** The constants [NaN], [Infinity] and [-Infinity] pass through the
    pipeline: when the span of the raw output decodes to an object whose
    one member is [NaN], the one-shot variant prints that object with the
    token [NaN] in it, a text of Python's JSON dialect that RFC 8259 does
    not admit. *)
Theorem nonfinite_constant_is_printed (stdin : pystr) (ctx : pyobj)
  (ser : pystr) (model : Llama) (raw : pystr) (k : pystr) :
  Json.loads stdin = Ok ctx ->
  Json.dumps (Some 2) ctx = Ok ser ->
  create_chat_completion model
    (spec_prompt Inference.SYSTEM_INSTRUCTION ser) = Ok raw ->
  has_brace_span raw ->
  Json.loads (outer_brace_span raw) = Ok (PyDict [(k, PyFloat FloatNaN)]) ->
  Inference.main (Ok model) stdin Inference.start =
    (Ok tt, {| Inference.llm := Some model;
               Inference.stdout :=
                 [str "{" ++ Json.encode_basestring_ascii k ++ str ": NaN}"];
               Inference.generations :=
                 [spec_prompt Inference.SYSTEM_INSTRUCTION ser] |}).
Proof.
  intros L D G Hs P.
  destruct (main_span_decodes stdin ctx L model ser D raw G _ Hs P)
    as (line & E & R).
  rewrite R. unfold Json.dumps in E. cbn [Json.iterencode] in E.
  unfold rbind in E. cbn [Json.encode_float Json.encode_members snd fst] in E.
  injection E as <-. reflexivity.
Qed.

(** Whatever the input and whatever the model does, [main] ends normally;
    it prints nothing on empty input and exactly one line otherwise. *)
Theorem one_shot_prints_one_line (from_pretrained : result Llama)
  (stdin : pystr) :
  exists st,
    Inference.main from_pretrained stdin Inference.start = (Ok tt, st) /\
    (stdin = [] -> Inference.stdout st = []) /\
    (stdin <> [] -> exists line, Inference.stdout st = [line]).
Proof.
  destruct stdin as [|c t].
  - exists Inference.start. split; [reflexivity |].
    split; [reflexivity | intros NE; now elim NE].
  - destruct (main_prints_object from_pretrained (c :: t) ltac:(discriminate))
      as (d & line & st & R & O & _).
    exists st. split; [exact R |].
    split; [discriminate | intros _; eauto].
Qed.


End Pipeline.

(** Claim C7.  In the service at most one generation call is in flight at
    any instant: after every schedule of the request threads, a thread
    between [lock.acquire()] and [lock.release()] finds the lock held, no
    two threads are there at once, and so no two threads are inside
    [create_chat_completion] together. *)
Theorem single_flight (sched : Lock.schedule) :
  (forall i,
      Lock.in_with (Lock.pcs (Lock.exec sched Lock.start) i) = true ->
      Lock.locked (Lock.exec sched Lock.start) = true) /\
  (forall i j,
      Lock.in_with (Lock.pcs (Lock.exec sched Lock.start) i) = true ->
      Lock.in_with (Lock.pcs (Lock.exec sched Lock.start) j) = true ->
      i = j) /\
  (forall i j,
      Lock.pcs (Lock.exec sched Lock.start) i = Lock.Generating ->
      Lock.pcs (Lock.exec sched Lock.start) j = Lock.Generating ->
      i = j).
Proof.
  destruct (exclusive_exec sched Lock.start exclusive_start) as [Free Uniq].
  repeat split.
  - intros i Hi.
    destruct (Lock.locked (Lock.exec sched Lock.start)) eqn:L; [reflexivity |].
    rewrite (Free eq_refl i) in Hi. discriminate.
  - exact Uniq.
  - intros i j Hi Hj. apply Uniq; [now rewrite Hi | now rewrite Hj].
Qed.

(* ================================================================== *)
(** * The model cache of the one-shot adapter *)

Section ModelCache.

(** [get_model] loads the model at most once: after a call that returned a
    model, the module-level [llm] holds it, nothing was printed and nothing
    generated, and every later call returns the same model without going
    back to the loader, whatever the loader would do then. *)
Theorem get_model_loads_once (from_pretrained again : result Llama)
  (st st' : Inference.process) (model : Llama) :
  Inference.get_model from_pretrained st = (Ok model, st') ->
  Inference.llm st' = Some model /\
  Inference.stdout st' = Inference.stdout st /\
  Inference.generations st' = Inference.generations st /\
  Inference.get_model again st' = (Ok model, st').
Proof.
  unfold Inference.get_model. intros G.
  destruct (Inference.llm st) as [m |] eqn:L.
  - injection G as <- <-. rewrite L. auto.
  - destruct from_pretrained as [m | e]; [| discriminate G].
    injection G as <- <-. simpl. auto.
Qed.

End ModelCache.

(* ================================================================== *)
(** * Requests to the service *)

Section Requests.

Context `{Json.Runtime}.

(** [s[:n]] is the first [n] characters of [s], all of [s] when it has
    fewer. *)
Lemma slice_prefix (s : pystr) (n : nat) :
  slice s 0 (Z.of_nat n) = firstn n s.
Proof.
  unfold slice, slice_bound. cbv zeta.
  change (0 <? 0)%Z with false. cbv iota.
  destruct (Z.ltb_spec (Z.of_nat n) 0); [lia |].
  rewrite (Z.min_l 0) by lia. simpl skipn. rewrite Z.sub_0_r.
  destruct (Nat.le_gt_cases n (List.length s)).
  - rewrite Z.min_l by lia. now rewrite Nat2Z.id.
  - rewrite Z.min_r by lia. rewrite Nat2Z.id.
    rewrite !firstn_all2 by lia. reflexivity.
Qed.



(** The outcomes of a request, all of them.  The view answers 200 or 500.
    It answers 200 when the body was read and serialized and the model
    answered, with the fixed fallback if the output has no outer-brace
    span and with the decoded span otherwise; the model was asked once.
    It answers 500 exactly when something raised inside the [try]: reading
    the body, serializing it, the generation or decoding the span; the
    payload then carries the message, and the last log record too. *)
Theorem inference_outcomes (llm : Llama) (request_json : result pyobj) :
  exists response st,
    Server.inference llm request_json Server.start = (Ok response, st) /\
    ((Server.status_code response = 200%N /\
      exists ctx ser raw,
        request_json = Ok ctx /\
        Json.dumps (Some 2) ctx = Ok ser /\
        create_chat_completion llm
          (spec_prompt Server.SYSTEM_INSTRUCTION ser) = Ok raw /\
        Server.generations st = [spec_prompt Server.SYSTEM_INSTRUCTION ser] /\
        ((no_brace_span raw /\
          Server.json response =
            verdict (str "Monitoring.") (str "Continue normal activities.")
                    (str "Reason: System check complete.")) \/
         (has_brace_span raw /\
          Json.loads (outer_brace_span raw) = Ok (Server.json response)))) \/
     (Server.status_code response = 500%N /\
      exists e,
        Server.json response =
          verdict (str "Error. Monitoring active.") (str "None.")
                  (str "Reason: " ++ str_of_exn e) /\
        last (Server.log st) [] = str "Inference error: " ++ str_of_exn e /\
        (request_json = Raise e \/
         exists ctx,
           request_json = Ok ctx /\
           (Json.dumps (Some 2) ctx = Raise e \/
            exists ser,
              Json.dumps (Some 2) ctx = Ok ser /\
              (create_chat_completion llm
                 (spec_prompt Server.SYSTEM_INSTRUCTION ser) = Raise e \/
               exists raw,
                 create_chat_completion llm
                   (spec_prompt Server.SYSTEM_INSTRUCTION ser) = Ok raw /\
                 has_brace_span raw /\
                 Json.loads (outer_brace_span raw) = Raise e))))).
Proof.
  destruct request_json as [ctx | e].
  2: { rewrite inference_request_fails. eexists _, _. split; [reflexivity |].
       right. split; [reflexivity |]. exists e. auto. }
  destruct (Json.dumps (Some 2) ctx) as [ser | e] eqn:D.
  2: { rewrite (inference_serialization_fails llm ctx e D).
       eexists _, _. split; [reflexivity |].
       right. split; [reflexivity |]. exists e. do 2 (split; [reflexivity |]).
       right. exists ctx. split; [reflexivity |]. now left. }
  destruct (create_chat_completion llm
              (spec_prompt Server.SYSTEM_INSTRUCTION ser)) as [raw | e] eqn:G.
  2: { rewrite (inference_generation_fails llm ctx ser D e G).
       eexists _, _. split; [reflexivity |].
       right. split; [reflexivity |]. exists e. do 2 (split; [reflexivity |]).
       right. exists ctx. split; [reflexivity |]. right. exists ser.
       split; [exact D |]. now left. }
  destruct (span_or_none raw) as [Hs | NS].
  2: { rewrite (inference_no_span llm ctx ser D raw G NS).
       eexists _, _. split; [reflexivity |].
       left. split; [reflexivity |]. exists ctx, ser, raw.
       split; [reflexivity |]. split; [exact D |]. split; [exact G |].
       split; [reflexivity |]. left. now split. }
  destruct (Json.loads (outer_brace_span raw)) as [parsed | e] eqn:P.
  - rewrite (inference_span_decodes llm ctx ser D raw G parsed Hs P).
    eexists _, _. split; [reflexivity |].
    left. split; [reflexivity |]. exists ctx, ser, raw.
    split; [reflexivity |]. split; [exact D |]. split; [exact G |].
    split; [reflexivity |]. right. now split.
  - rewrite (inference_span_fails llm ctx ser D raw G e Hs P).
    eexists _, _. split; [reflexivity |].
    right. split; [reflexivity |]. exists e. do 2 (split; [reflexivity |]).
    right. exists ctx. split; [reflexivity |]. right. exists ser.
    split; [exact D |]. right. exists raw. auto.
Qed.

(** The log never holds more than the first 100 characters of a raw
    output: once the model has answered, the log is the record of the
    start, the record [Response: ] with at most 100 characters of the
    output and three dots, and at most one error record. *)
Theorem response_record_is_truncated (llm : Llama) (ctx : pyobj)
  (ser raw : pystr) :
  Json.dumps (Some 2) ctx = Ok ser ->
  create_chat_completion llm
    (spec_prompt Server.SYSTEM_INSTRUCTION ser) = Ok raw ->
  exists rest,
    Server.log (snd (Server.inference llm (Ok ctx) Server.start))
    = str "Running local Mistral inference..."
      :: (str "Response: " ++ firstn 100 raw ++ str "...")
      :: rest /\
    List.length (str "Response: " ++ firstn 100 raw ++ str "...") <= 113 /\
    (rest = [] \/ exists e, rest = [str "Inference error: " ++ str_of_exn e]).
Proof.
  intros D G.
  assert (B : List.length (str "Response: " ++ firstn 100 raw ++ str "...")
              <= 113).
  { rewrite !length_app, length_firstn.
    change (List.length (str "Response: ")) with 10.
    change (List.length (str "...")) with 3. lia. }
  rewrite <- (slice_prefix raw 100). change (Z.of_nat 100) with 100%Z.
  rewrite <- (slice_prefix raw 100) in B. change (Z.of_nat 100) with 100%Z in B.
  destruct (span_or_none raw) as [Hs | NS].
  2: { rewrite (inference_no_span llm ctx ser D raw G NS).
       exists []. auto. }
  destruct (Json.loads (outer_brace_span raw)) as [parsed | e] eqn:P.
  - rewrite (inference_span_decodes llm ctx ser D raw G parsed Hs P).
    exists []. auto.
  - rewrite (inference_span_fails llm ctx ser D raw G e Hs P).
    eexists. split; [reflexivity |]. split; [exact B |]. eauto.
Qed.


End Requests.

(* ================================================================== *)
(** * The lock is released *)

Section LockRelease.

Import Lock.

(** A step keeps a holder for the held lock. *)
Lemma held_step (st : state) (i : nat) (raises : bool) :
  (locked st = true -> exists j, in_with (pcs st j) = true) ->
  locked (step st i raises) = true ->
  exists j, in_with (pcs (step st i raises) j) = true.
Proof.
  unfold step, next. intros Held.
  assert (Keep : forall p,
             in_with p = true \/ in_with (pcs st i) = false ->
             locked st = true ->
             exists j, in_with (update (pcs st) i p j) = true).
  { intros p Side L. destruct Side as [In | Out].
    - exists i. now rewrite update_same.
    - destruct (Held L) as [j Hj]. exists j.
      rewrite update_other; [exact Hj |]. intros ->. congruence. }
  destruct (pcs st i) eqn:P; cbn [locked pcs].
  - apply Keep. now right.
  - destruct (locked st) eqn:L; cbn [locked pcs].
    + apply Keep. now right.
    + intros _. exists i. now rewrite update_same.
  - apply Keep. left. now destruct raises.
  - apply Keep. left. now destruct raises.
  - destruct raises; cbn [locked pcs]; [apply Keep; now left | discriminate].
  - discriminate.
  - apply Keep. now right.
Qed.

Lemma held_exec (sched : schedule) (st : state) :
  (locked st = true -> exists j, in_with (pcs st j) = true) ->
  locked (exec sched st) = true ->
  exists j, in_with (pcs (exec sched st) j) = true.
Proof.
  revert st. induction sched as [|[i raises] sched IH]; intros st Hd; simpl.
  - exact Hd.
  - apply IH. now apply held_step.
Qed.

Lemma exec_app (a b : schedule) (st : state) :
  exec (a ++ b) st = exec b (exec a st).
Proof. unfold exec. apply fold_left_app. Qed.

(** What a step of thread [i] does to its own point and to the lock. *)
Lemma own_step (st : state) (i : nat) (raises : bool) :
  (pcs (step st i raises) i, locked (step st i raises))
  = next (pcs st i) raises (locked st).
Proof.
  unfold step. destruct (next (pcs st i) raises (locked st)) as [p l].
  cbn [pcs locked]. now rewrite update_same.
Qed.

Lemma own_steps (rs : list bool) (st : state) (i : nat) :
  (pcs (exec (map (pair i) rs) st) i, locked (exec (map (pair i) rs) st))
  = fold_left (fun pl r => next (fst pl) r (snd pl)) rs (pcs st i, locked st).
Proof.
  revert st. induction rs as [|r rs IH]; intros st; [reflexivity |].
  cbn [map exec fold_left fst snd]. fold (exec (map (pair i) rs) (step st i r)).
  rewrite IH, own_step. now destruct (next (pcs st i) r (locked st)).
Qed.

End LockRelease.

(** The lock is never left held: after every schedule, it is held exactly
    when one of the threads is between [lock.acquire()] and
    [lock.release()], also when statements inside the [with] block
    raised. *)
Theorem lock_is_never_leaked (sched : Lock.schedule) :
  Lock.locked (Lock.exec sched Lock.start) = true <->
  exists i, Lock.in_with (Lock.pcs (Lock.exec sched Lock.start) i) = true.
Proof.
  split.
  - apply held_exec. discriminate.
  - intros [i Hi].
    destruct (exclusive_exec sched Lock.start exclusive_start) as [Free _].
    destruct (Lock.locked (Lock.exec sched Lock.start)) eqn:L; [reflexivity |].
    rewrite (Free eq_refl i) in Hi. discriminate.
Qed.

(** A thread inside the [with] block leaves it, and frees the lock, after
    at most four steps of its own, whichever of its statements raise: no
    path through the view keeps the lock. *)
Theorem holder_leaves_within_four_steps (sched : Lock.schedule) (i : nat)
  (r1 r2 r3 r4 : bool) :
  Lock.in_with (Lock.pcs (Lock.exec sched Lock.start) i) = true ->
  exists n,
    n <= 4 /\
    Lock.pcs
      (Lock.exec (sched ++ map (pair i) (firstn n [r1; r2; r3; r4]))
         Lock.start) i = Lock.Done /\
    Lock.locked
      (Lock.exec (sched ++ map (pair i) (firstn n [r1; r2; r3; r4]))
         Lock.start) = false.
Proof.
  intros In. set (rs := [r1; r2; r3; r4]).
  assert (Own : forall n,
             fold_left (fun pl r => Lock.next (fst pl) r (snd pl))
               (firstn n rs)
               (Lock.pcs (Lock.exec sched Lock.start) i,
                Lock.locked (Lock.exec sched Lock.start))
             = (Lock.Done, false) ->
             Lock.pcs (Lock.exec (sched ++ map (pair i) (firstn n rs))
                         Lock.start) i = Lock.Done /\
             Lock.locked (Lock.exec (sched ++ map (pair i) (firstn n rs))
                            Lock.start) = false).
  { intros n E. rewrite exec_app.
    pose proof (own_steps (firstn n rs) (Lock.exec sched Lock.start) i) as O.
    rewrite E in O. now injection O. }
  destruct (Lock.pcs (Lock.exec sched Lock.start) i) eqn:P;
    try discriminate In;
    destruct r1, r2, r3;
    first [ exists 1; split; [lia | apply Own; reflexivity]
          | exists 2; split; [lia | apply Own; reflexivity]
          | exists 3; split; [lia | apply Own; reflexivity]
          | exists 4; split; [lia | apply Own; reflexivity] ].
Qed.

(* ================================================================== *)
(** * The shape of the outer-brace span *)

Section Occurrences.

Variable c : N.

Lemma find_from_app (pre rest : pystr) (i : Z) :
  ~ In c pre ->
  find_from (pre ++ c :: rest) c i = (i + Z.of_nat (List.length pre))%Z.
Proof.
  revert i. induction pre as [|x pre IH]; intros i NI; simpl.
  - rewrite N.eqb_refl. lia.
  - destruct (N.eqb_spec x c) as [E | NE].
    + elim NI. now left.
    + rewrite IH; [lia |]. intros I. apply NI. now right.
Qed.

Lemma rfind_from_app (pre post : pystr) (i last : Z) :
  ~ In c post ->
  rfind_from (pre ++ c :: post) c i last
  = (i + Z.of_nat (List.length pre))%Z.
Proof.
  revert i last. induction pre as [|x pre IH]; intros i last NI.
  - simpl. rewrite N.eqb_refl, (rfind_from_absent c post _ _ NI). lia.
  - cbn [app rfind_from List.length]. rewrite IH by exact NI. lia.
Qed.

(** The first occurrence of a character splits the string. *)
Lemma first_split (s : pystr) :
  In c s -> exists pre rest, s = pre ++ c :: rest /\ ~ In c pre.
Proof.
  induction s as [|x s IH]; intros I; [destruct I |].
  destruct (N.eq_dec x c) as [-> | NE].
  - exists [], s. split; [reflexivity | intros []].
  - destruct I as [E | I]; [contradiction |].
    destruct (IH I) as (pre & rest & -> & NI).
    exists (x :: pre), rest. split; [reflexivity |].
    intros [E | I']; [contradiction | now apply NI].
Qed.

(** So does the last one. *)
Lemma last_split (s : pystr) :
  In c s -> exists pre post, s = pre ++ c :: post /\ ~ In c post.
Proof.
  induction s as [|x s IH]; intros I; [destruct I |].
  destruct (in_dec N.eq_dec c s) as [Is | Ns].
  - destruct (IH Is) as (pre & post & -> & NI).
    exists (x :: pre), post. split; [reflexivity | exact NI].
  - destruct I as [-> | I]; [| contradiction].
    exists [], s. split; [reflexivity | exact Ns].
Qed.

End Occurrences.

(** The slice between two lengths of a concatenation is its middle part. *)
Lemma slice_middle (a b d : pystr) :
  slice (a ++ b ++ d) (Z.of_nat (List.length a))
    (Z.of_nat (List.length a + List.length b)) = b.
Proof.
  unfold slice, slice_bound. cbv zeta.
  destruct (Z.ltb_spec (Z.of_nat (List.length a)) 0); [lia |].
  destruct (Z.ltb_spec (Z.of_nat (List.length a + List.length b)) 0); [lia |].
  rewrite !length_app.
  rewrite !Z.min_l by lia.
  replace (Z.to_nat (Z.of_nat (List.length a + List.length b)
                     - Z.of_nat (List.length a))) with (List.length b) by lia.
  rewrite Nat2Z.id, skipn_app, Nat.sub_diag, skipn_all. cbn [skipn app].
  rewrite firstn_app, Nat.sub_diag, firstn_all. cbn [firstn].
  apply List.app_nil_r.
Qed.

(** An output with an outer-brace span is some text without an opening
    brace, the span, and some text without a closing brace. *)
Lemma shape_of_span (raw : pystr) :
  has_brace_span raw ->
  exists pre body post,
    raw = pre ++ outer_brace_span raw ++ post /\
    outer_brace_span raw = [lbrace] ++ body ++ [rbrace] /\
    ~ In lbrace pre /\ ~ In rbrace post.
Proof.
  intros (Il & Ir & LE).
destruct (first_split lbrace raw Il) as (pre & rest & E1 & N1).
destruct (last_split rbrace raw Ir) as (pre' & post & E2 & N2).
assert (F : find raw lbrace = Z.of_nat (List.length pre)).
{ unfold find. rewrite E1 at 1. now rewrite find_from_app. }
assert (R : rfind raw rbrace = Z.of_nat (List.length pre')).
{ unfold rfind. rewrite E2 at 1. now rewrite rfind_from_app. }
assert (M : exists body, rest = body ++ rbrace :: post).
{ pose proof E1 as E. rewrite E2 in E. symmetry in E.
  apply app_eq_app in E as [l [[E3 E4] | [E3 E4]]].
  - destruct l as [|x l].
    + discriminate E4.
    + rewrite E3, length_app in F. simpl in F. lia.
  - destruct l as [|x l]; [discriminate E4 |].
    injection E4 as _ ->. eauto. }
destruct M as [body ->].
exists pre, body, post.
assert (S : outer_brace_span raw = [lbrace] ++ body ++ [rbrace]).
{ unfold outer_brace_span. rewrite F, R.
  assert (Lp : List.length pre' = List.length pre + S (List.length body)).
  { pose proof (f_equal (@List.length N) E1) as L1.
    pose proof (f_equal (@List.length N) E2) as L2.
    rewrite L1 in L2. rewrite !length_app in L2. simpl in L2.
    rewrite length_app in L2. simpl in L2. lia. }
  rewrite E1 at 1.
  change (pre ++ lbrace :: body ++ rbrace :: post)
    with (pre ++ (lbrace :: body ++ [rbrace] ++ post)).
  replace (lbrace :: body ++ [rbrace] ++ post)
    with (([lbrace] ++ body ++ [rbrace]) ++ post)
    by (now rewrite <- !app_assoc).
  replace (Z.of_nat (List.length pre') + 1)%Z
    with (Z.of_nat (List.length pre
                    + List.length ([lbrace] ++ body ++ [rbrace]))).
  - apply slice_middle.
  - rewrite !length_app. simpl. lia. }
rewrite S. repeat split; try assumption.
rewrite E1. now rewrite <- !app_assoc.
Qed.

(** Conversely the span of such a text is what stands between the two. *)
Lemma span_of_shape (pre body post : pystr) :
  ~ In lbrace pre -> ~ In rbrace post ->
  has_brace_span (pre ++ ([lbrace] ++ body ++ [rbrace]) ++ post) /\
  outer_brace_span (pre ++ ([lbrace] ++ body ++ [rbrace]) ++ post)
  = [lbrace] ++ body ++ [rbrace].
Proof.
  intros N1 N2.
  set (span := [lbrace] ++ body ++ [rbrace]).
  set (raw := pre ++ span ++ post).
  assert (E : raw = pre ++ span ++ post) by reflexivity.
  assert (Sp : span = [lbrace] ++ body ++ [rbrace]) by reflexivity.
  clearbody raw span.
assert (E1 : raw = pre ++ lbrace :: (body ++ rbrace :: post)).
{ rewrite E, Sp. now rewrite <- !app_assoc. }
assert (E2 : raw = (pre ++ lbrace :: body) ++ rbrace :: post).
{ rewrite E1. now rewrite <- app_assoc. }
assert (F : find raw lbrace = Z.of_nat (List.length pre)).
{ unfold find. rewrite E1. now rewrite find_from_app. }
assert (R : rfind raw rbrace
            = Z.of_nat (List.length (pre ++ lbrace :: body))).
{ unfold rfind. rewrite E2. now rewrite rfind_from_app. }
rewrite length_app in R. simpl in R.
split.
+ repeat split.
  * rewrite E1. apply in_or_app. right. now left.
  * rewrite E2. apply in_or_app. right. now left.
  * lia.
+ unfold outer_brace_span. rewrite F, R. rewrite E at 1.
  replace (Z.of_nat (List.length pre + S (List.length body)) + 1)%Z
    with (Z.of_nat (List.length pre + List.length span)).
  * apply slice_middle.
  * rewrite Sp, !length_app. simpl. lia.
Qed.

(** The slice is greedy: an output has an outer-brace span, and the span
    is [span], exactly when the output is some text without an opening
    brace, then [span], which begins with an opening and ends with a
    closing brace, then some text without a closing brace.  Whatever
    braces the span holds inside are not looked at. *)
Theorem outer_brace_span_is_greedy (raw span : pystr) :
  has_brace_span raw /\ outer_brace_span raw = span <->
  exists pre body post,
    raw = pre ++ span ++ post /\
    span = [lbrace] ++ body ++ [rbrace] /\
    ~ In lbrace pre /\ ~ In rbrace post.
Proof.
  split.
  - intros [Hs <-]. exact (shape_of_span raw Hs).
  - intros (pre & body & post & -> & -> & N1 & N2).
    exact (span_of_shape pre body post N1 N2).
Qed.

Section Surroundings.

Context `{Json.Runtime}.

Lemma span_alone (body : pystr) :
  has_brace_span ([lbrace] ++ body ++ [rbrace]) /\
  outer_brace_span ([lbrace] ++ body ++ [rbrace])
  = [lbrace] ++ body ++ [rbrace].
Proof.
  pose proof (span_of_shape [] body [] (fun I => I) (fun I => I)) as S.
  cbn [app] in S. rewrite List.app_nil_r in S. exact S.
Qed.

(** What [main] prints is decided by the span of the raw output. *)
Lemma main_depends_on_span (stdin : pystr) (raw raw' : pystr) :
  has_brace_span raw -> has_brace_span raw' ->
  outer_brace_span raw = outer_brace_span raw' ->
  Inference.stdout
    (snd (Inference.main (Ok (answering raw)) stdin Inference.start))
  = Inference.stdout
      (snd (Inference.main (Ok (answering raw')) stdin Inference.start)).
Proof.
  intros Hs Hs' Eq.
  destruct stdin as [|c t]; [reflexivity |].
  destruct (Json.loads (c :: t)) as [ctx | e] eqn:L.
  2: { assert (NE : c :: t <> []) by discriminate.
       destruct (main_invalid_stdin (Ok (answering raw)) _ e NE L)
         as (text & E & ->).
       destruct (main_invalid_stdin (Ok (answering raw')) _ e NE L)
         as (text' & E' & ->).
       simpl. congruence. }
  destruct (dumps_serializable (Some 2) ctx (loads_serializable _ _ L))
    as [ser D].
  destruct (Json.loads (outer_brace_span raw)) as [parsed | e] eqn:P.
  - destruct (main_span_decodes _ ctx L (answering raw) ser D raw eq_refl
                parsed Hs P) as (text & E & ->).
    rewrite Eq in P.
    destruct (main_span_decodes _ ctx L (answering raw') ser D raw' eq_refl
                parsed Hs' P) as (text' & E' & ->).
    simpl. congruence.
  - destruct (main_span_fails _ ctx L (answering raw) ser D raw eq_refl
                e Hs P) as (text & E & ->).
    rewrite Eq in P.
    destruct (main_span_fails _ ctx L (answering raw') ser D raw' eq_refl
                e Hs' P) as (text' & E' & ->).
    simpl. congruence.
Qed.

Lemma inference_depends_on_span (request_json : result pyobj)
  (raw raw' : pystr) :
  has_brace_span raw -> has_brace_span raw' ->
  outer_brace_span raw = outer_brace_span raw' ->
  fst (Server.inference (answering raw) request_json Server.start)
  = fst (Server.inference (answering raw') request_json Server.start).
Proof.
  intros Hs Hs' Eq.
  destruct request_json as [ctx | e].
  2: { now rewrite !inference_request_fails. }
  destruct (Json.dumps (Some 2) ctx) as [ser | e] eqn:D.
  2: { now rewrite !(inference_serialization_fails _ ctx e D). }
  destruct (Json.loads (outer_brace_span raw)) as [parsed | e] eqn:P.
  - rewrite (inference_span_decodes (answering raw) ctx ser D raw eq_refl
               parsed Hs P).
    rewrite Eq in P.
    now rewrite (inference_span_decodes (answering raw') ctx ser D raw' eq_refl
                   parsed Hs' P).
  - rewrite (inference_span_fails (answering raw) ctx ser D raw eq_refl
               e Hs P).
    rewrite Eq in P.
    now rewrite (inference_span_fails (answering raw') ctx ser D raw' eq_refl
                   e Hs' P).
Qed.

(** Text around the object does not matter: when the model wraps a text
    that begins with an opening and ends with a closing brace in text
    without an opening brace before and without a closing brace after,
    both variants answer as they do when the model gives that text
    alone. *)
Theorem surrounding_text_is_ignored (stdin : pystr)
  (request_json : result pyobj) (pre body post : pystr) :
  ~ In lbrace pre -> ~ In rbrace post ->
  Inference.stdout
    (snd (Inference.main
            (Ok (answering (pre ++ ([lbrace] ++ body ++ [rbrace]) ++ post)))
            stdin Inference.start))
  = Inference.stdout
      (snd (Inference.main (Ok (answering ([lbrace] ++ body ++ [rbrace])))
              stdin Inference.start)) /\
  fst (Server.inference
         (answering (pre ++ ([lbrace] ++ body ++ [rbrace]) ++ post))
         request_json Server.start)
  = fst (Server.inference (answering ([lbrace] ++ body ++ [rbrace]))
           request_json Server.start).
Proof.
  intros N1 N2.
  destruct (span_of_shape pre body post N1 N2) as [Hs Sp].
  destruct (span_alone body) as [Hs' Sp'].
  split.
  - apply main_depends_on_span; [exact Hs | exact Hs' | congruence].
  - apply inference_depends_on_span; [exact Hs | exact Hs' | congruence].
Qed.

(** White space stops at the latest where a character that is none stands. *)
Lemma ws_len_bound (a : pystr) (c : N) (rest : pystr) :
  Json.is_ws c = false -> Json.ws_len (a ++ c :: rest) <= List.length a.
Proof.
  intros C. induction a as [|x a IH]; simpl.
  - now rewrite C.
  - destruct (Json.is_ws x); lia.
Qed.

(** The encoding of a [dict] is an opening brace, some text and a closing
    brace. *)
Lemma dumps_dict_shape (indent : option nat) (d : list (pystr * pyobj))
  (text : pystr) :
  Json.dumps indent (PyDict d) = Ok text ->
  exists body, text = [lbrace] ++ body ++ [rbrace].
Proof.
  unfold Json.dumps. cbn [Json.iterencode]. unfold rbind.
  destruct d as [|kv rest].
  - intros [= <-]. exists []. reflexivity.
  - destruct (Json.iterencode indent 1 (snd kv)) as [tv |]; [| discriminate].
    destruct (Json.encode_members _ _ rest) as [tl |]; [| discriminate].
    intros [= <-].
    exists (Json.newline_indent indent 1
            ++ Json.encode_basestring_ascii (fst kv) ++ Json.key_separator
            ++ tv ++ tl ++ Json.newline_indent indent 0).
    change (str "{") with [lbrace]. change (str "}") with [rbrace].
    unfold Json.encode_basestring_ascii. rewrite <- !app_assoc. reflexivity.
Qed.

(** Two encoded objects with a separator between them do not decode: the
    decoder reads the first and then finds extra data. *)
Lemma loads_two_objects (d1 d2 : list (pystr * pyobj)) (t1 t2 gap : pystr) :
  Json.dumps None (PyDict d1) = Ok t1 ->
  Json.dumps None (PyDict d2) = Ok t2 ->
  gap <> [] -> delimited gap = true ->
  Json.loads (t1 ++ gap ++ t2)
  = Raise (Json.JSONDecodeError (str "Extra data") (t1 ++ gap ++ t2)
             (Json.skip_ws (t1 ++ gap ++ t2) (List.length t1))).
Proof.
  intros E1 E2 NG DG.
  set (s := t1 ++ gap ++ t2).
  destruct (dumps_dict_shape None d1 t1 E1) as [b1 S1].
  destruct (dumps_dict_shape None d2 t2 E2) as [b2 S2].
  assert (A : suffix_at s 0 (t1 ++ gap ++ t2)) by apply suffix_at_start.
  assert (D : delimited (gap ++ t2) = true).
  { destruct gap as [|g gap]; [contradiction | exact DG]. }
  destruct (encoded_reads_back None (PyDict d1) 0 t1 E1 s 0 (gap ++ t2)
              (2 * List.length s + 2) A D ltac:(lia)) as [v R].
  unfold Json.loads. fold s.
  assert (Hd : exists r, s = lbrace :: r).
  { unfold s. rewrite S1. eexists. reflexivity. }
  destruct Hd as [r Hd].
  assert (NB : Json.starts_with [65279%N] s = false) by now rewrite Hd.
  assert (W0 : Json.skip_ws s 0 = 0) by now rewrite Hd.
  rewrite NB, W0, R. unfold rbind. cbn [fst snd Nat.add].
  destruct (Nat.eqb_spec (Json.skip_ws s (List.length t1)) (List.length s))
    as [End | _]; [| reflexivity].
  exfalso.
  assert (A1 : suffix_at s (List.length t1) (gap ++ t2)).
  { pose proof (suffix_at_app s 0 t1 _ A) as A1. exact A1. }
  rewrite (skip_ws_at s _ _ A1) in End.
  pose proof (ws_len_bound gap lbrace (b2 ++ [rbrace]) eq_refl) as B.
  unfold s in End. rewrite S2, !length_app in End.
  cbn [app List.length] in End. lia.
Qed.

(** Two objects in one output are not told apart: the span runs from the
    opening brace of the first to the closing brace of the second, the
    decoder reads the first object and raises [Extra data] where the
    second begins, and so the one-shot variant prints the
    [Parsing exception] verdict and the service answers 500. *)
Theorem two_objects_are_not_split (stdin : pystr) (ctx : pyobj)
  (ser : pystr) (d1 d2 : list (pystr * pyobj)) (t1 t2 gap pre post : pystr) :
  Json.loads stdin = Ok ctx ->
  Json.dumps (Some 2) ctx = Ok ser ->
  Json.dumps None (PyDict d1) = Ok t1 ->
  Json.dumps None (PyDict d2) = Ok t2 ->
  gap <> [] -> delimited gap = true ->
  ~ In lbrace pre -> ~ In rbrace post ->
  exists e,
    Json.loads (outer_brace_span (pre ++ (t1 ++ gap ++ t2) ++ post)) = Raise e /\
    e = Json.JSONDecodeError (str "Extra data") (t1 ++ gap ++ t2)
          (Json.skip_ws (t1 ++ gap ++ t2) (List.length t1)) /\
    (exists line,
       Json.dumps None
         (verdict (str "Error") (str "None")
            (str "Reason: Parsing exception " ++ str_of_exn e)) = Ok line /\
       Inference.stdout
         (snd (Inference.main
                 (Ok (answering (pre ++ (t1 ++ gap ++ t2) ++ post)))
                 stdin Inference.start)) = [line]) /\
    fst (Server.inference (answering (pre ++ (t1 ++ gap ++ t2) ++ post))
           (Ok ctx) Server.start)
    = Ok {| Server.json :=
              verdict (str "Error. Monitoring active.") (str "None.")
                      (str "Reason: " ++ str_of_exn e);
            Server.status_code := 500 |}.
Proof.
  intros L D E1 E2 NG DG N1 N2.
  destruct (dumps_dict_shape None d1 t1 E1) as [b1 S1].
  destruct (dumps_dict_shape None d2 t2 E2) as [b2 S2].
  assert (Sh : t1 ++ gap ++ t2
               = [lbrace] ++ (b1 ++ [rbrace] ++ gap ++ [lbrace] ++ b2)
                 ++ [rbrace]).
  { rewrite S1, S2. now rewrite <- !app_assoc. }
  set (raw := pre ++ (t1 ++ gap ++ t2) ++ post).
  assert (Sp : has_brace_span raw /\ outer_brace_span raw = t1 ++ gap ++ t2).
  { unfold raw. rewrite Sh. now apply span_of_shape. }
  destruct Sp as [Hs Sp].
  pose proof (loads_two_objects d1 d2 t1 t2 gap E1 E2 NG DG) as P.
  rewrite <- Sp in P at 1.
  eexists. split; [exact P |]. split; [reflexivity |]. split.
  - destruct (main_span_fails stdin ctx L (answering raw) ser D raw eq_refl
                _ Hs P) as (line & E & R).
    exists line. split; [exact E |]. now rewrite R.
  - now rewrite (inference_span_fails (answering raw) ctx ser D raw eq_refl
                   _ Hs P).
Qed.

End Surroundings.

(* ================================================================== *)
(** * The keys of decoded objects *)

Section Keys.

(** [d[k] = v] keeps the keys when [k] is one of them and appends [k]
    otherwise. *)
Lemma dict_set_keys (d : list (pystr * pyobj)) (k : pystr) (v : pyobj) :
  map fst (dict_set d k v)
  = if existsb (fun k' => pystr_eqb k' k) (map fst d) then map fst d
    else map fst d ++ [k].
Proof.
  induction d as [|[k' v'] d IH]; simpl; [reflexivity |].
  destruct (pystr_eqb k' k); simpl; [reflexivity |].
  rewrite IH. now destruct (existsb _ (map fst d)).
Qed.

Lemma distinct_snoc (keys : list pystr) (k : pystr) :
  distinct keys = true ->
  existsb (fun k' => pystr_eqb k' k) keys = false ->
  distinct (keys ++ [k]) = true.
Proof.
  induction keys as [|x keys IH]; simpl; [reflexivity |].
  intros D A. apply andb_true_iff in D as [Dx Dk].
  apply orb_false_iff in A as [Ax Ak].
  rewrite existsb_app. simpl. rewrite Ax, orb_false_r, Dx. simpl. auto.
Qed.

Lemma dict_set_distinct (d : list (pystr * pyobj)) (k : pystr) (v : pyobj) :
  distinct (map fst d) = true -> distinct (map fst (dict_set d k v)) = true.
Proof.
  intros D. rewrite dict_set_keys.
  destruct (existsb _ (map fst d)) eqn:A; [exact D |].
  now apply distinct_snoc.
Qed.

(** [dict(pairs)] has no key twice, whatever the pairs. *)
Lemma dict_of_pairs_distinct (pairs : list (pystr * pyobj)) :
  distinct (map fst (dict_of_pairs pairs)) = true.
Proof.
  unfold dict_of_pairs.
  assert (G : forall acc, distinct (map fst acc) = true ->
              distinct (map fst (fold_left
                (fun d kv => dict_set d (fst kv) (snd kv)) pairs acc)) = true).
  { induction pairs as [|kv pairs IH]; intros acc Ha; simpl; [exact Ha |].
    apply IH. now apply dict_set_distinct. }
  now apply G.
Qed.

Ltac cases H :=
  repeat match type of H with
  | context [match ?x with _ => _ end] =>
      let E := fresh "E" in destruct x eqn:E; try discriminate H
  end.

Ltac scanned :=
  match goal with
  | IH : forall s idx v e, Json.scan_once ?f s idx = Ok (v, e) -> _,
    E : Json.scan_once ?f _ _ = Ok ?p |- _ =>
      destruct p; eapply IH; exact E
  end.

Lemma match_number_distinct (l : pystr) (v : pyobj) (n : nat) :
  Json.match_number l = Some (v, n) -> distinct_keys v = true.
Proof.
  unfold Json.match_number. intros H. cases H; inversion H; reflexivity.
Qed.

Lemma dict_distinct (pairs : list (pystr * pyobj)) :
  Forall (fun kv => distinct_keys (snd kv) = true) pairs ->
  distinct_keys (PyDict (dict_of_pairs pairs)) = true.
Proof.
  intros Hp. cbn [distinct_keys]. rewrite dict_of_pairs_distinct. simpl.
  apply forallb_forall. apply Forall_forall.
  now apply (dict_of_pairs_values (fun o => distinct_keys o = true)).
Qed.

(** The decoder builds objects without repeated keys only. *)
Lemma scan_distinct (fuel : nat) :
  (forall s idx v e,
      Json.scan_once fuel s idx = Ok (v, e) -> distinct_keys v = true) /\
  (forall s e pairs v e',
      Forall (fun kv => distinct_keys (snd kv) = true) pairs ->
      Json.object_members fuel s e pairs = Ok (v, e') ->
      distinct_keys v = true) /\
  (forall s e values v e',
      Forall (fun o => distinct_keys o = true) values ->
      Json.array_items fuel s e values = Ok (v, e') ->
      distinct_keys v = true).
Proof.
  induction fuel as [|fuel (IHs & IHo & IHa)].
  - repeat split; intros; simpl in *; discriminate.
  - repeat split.
    + intros s idx v e H. simpl in H. unfold rbind in H.
      cases H; try (inversion H; subst; reflexivity).
      * eapply IHo; [constructor | exact H].
      * eapply IHa; [constructor | exact H].
      * inversion H; subst. eapply match_number_distinct; eassumption.
    + intros s e pairs v e' Hp H. simpl in H. unfold rbind in H.
      cases H.
      * inversion H; subst. apply dict_distinct.
        apply Forall_app. split; [exact Hp |].
        constructor; [| constructor]. simpl. scanned.
      * eapply IHo; [| exact H].
        apply Forall_app. split; [exact Hp |].
        constructor; [| constructor]. simpl. scanned.
    + intros s e values v e' Hv H. simpl in H. unfold rbind in H.
      cases H.
      * inversion H; subst. simpl. apply forallb_forall.
        apply Forall_forall. apply Forall_app. split; [exact Hv |].
        constructor; [| constructor]. scanned.
      * eapply IHa; [| exact H].
        apply Forall_app. split; [exact Hv |].
        constructor; [| constructor]. scanned.
Qed.

(** Whatever [json.loads] returns has no repeated key: in every [dict] of
    the object, at any depth, the keys are pairwise different, also when
    the text repeats a key. *)
Theorem decoded_keys_are_distinct (text : pystr) (v : pyobj) :
  Json.loads text = Ok v -> distinct_keys v = true.
Proof.
  unfold Json.loads, rbind. intros H. cases H.
  inversion H; subst.
  match goal with
  | E : Json.scan_once _ _ _ = Ok ?p |- _ =>
      destruct p; eapply (proj1 (scan_distinct _)); exact E
  end.
Qed.

End Keys.

(* ================================================================== *)
(** * What the encoder writes is printable *)

Section Printable.

Context `{Json.Runtime}.

Lemma printable_app (a b : pystr) :
  forallb printable (a ++ b) = forallb printable a && forallb printable b.
Proof. apply forallb_app. Qed.

Lemma is_digit_printable (c : N) : Json.is_digit c = true -> printable c = true.
Proof.
  unfold Json.is_digit, printable. intros D.
  apply andb_true_iff in D as [Lo Hi]. apply N.leb_le in Lo, Hi.
  apply andb_true_iff. split; apply N.leb_le; lia.
Qed.

Lemma digits_printable (l : pystr) :
  forallb printable (firstn (Json.digits_len l) l) = true.
Proof.
  induction l as [|c l IH]; simpl; [reflexivity |].
  destruct (Json.is_digit c) eqn:D; [| reflexivity].
  simpl. now rewrite (is_digit_printable c D).
Qed.

Lemma int_printable (l : pystr) (n : nat) :
  Json.int_len l = Some n -> forallb printable (firstn n l) = true.
Proof.
  unfold Json.int_len. destruct l as [|c t]; [discriminate |].
  destruct (N.eqb_spec c 45) as [-> | N45].
  - destruct t as [|d t]; [discriminate |].
    destruct (N.eqb_spec d 48) as [-> | N0].
    + intros [= <-]. reflexivity.
    + destruct (Json.is_digit d) eqn:D; [| discriminate].
      intros [= <-]. cbn [Nat.add firstn forallb].
      now rewrite (is_digit_printable d D), digits_printable.
  - destruct (N.eqb_spec c 48) as [-> | N0].
    + intros [= <-]. reflexivity.
    + destruct (Json.is_digit c) eqn:D; [| discriminate].
      intros [= <-]. cbn [Nat.add firstn forallb].
      now rewrite (is_digit_printable c D), digits_printable.
Qed.

Lemma frac_printable (l : pystr) :
  forallb printable (firstn (Json.frac_len l) l) = true.
Proof.
  unfold Json.frac_len. destruct l as [|c t]; [reflexivity |].
  destruct (N.eqb_spec c 46) as [-> | N46]; [| reflexivity].
  pose proof (digits_printable t) as D.
  destruct (Json.digits_len t) as [|n]; [reflexivity |].
  cbn [firstn forallb]. exact D.
Qed.

Lemma exp_printable (l : pystr) :
  forallb printable (firstn (Json.exp_len l) l) = true.
Proof.
  unfold Json.exp_len. destruct l as [|c t]; [reflexivity |].
  destruct ((c =? 101)%N || (c =? 69)%N) eqn:Ec; [| reflexivity].
  assert (Pc : printable c = true).
  { apply orb_true_iff in Ec as [E | E]; apply N.eqb_eq in E; now subst. }
  destruct t as [|c2 t].
  - reflexivity.
  - destruct ((c2 =? 43)%N || (c2 =? 45)%N) eqn:Es.
    + assert (P2 : printable c2 = true).
      { apply orb_true_iff in Es as [E | E]; apply N.eqb_eq in E; now subst. }
      cbn [skipn]. pose proof (digits_printable t) as D.
      destruct (Json.digits_len t) as [|n]; [reflexivity |].
      cbn [Nat.add firstn forallb]. rewrite Pc, P2. exact D.
    + cbn [skipn]. pose proof (digits_printable (c2 :: t)) as D.
      destruct (Json.digits_len (c2 :: t)) as [|n]; [reflexivity |].
      cbn [Nat.add firstn forallb]. rewrite Pc.
      cbn [firstn forallb] in D. exact D.
Qed.

(** A text the decoder reads as one number is made of digits, signs, a dot
    and an exponent mark. *)
Lemma number_printable (t : pystr) (v : pyobj) :
  Json.match_number t = Some (v, List.length t) ->
  forallb printable t = true.
Proof.
  unfold Json.match_number.
  destruct (Json.int_len t) as [n |] eqn:I; [| discriminate].
  pose proof (int_printable t n I) as Pn.
  pose proof (frac_printable (skipn n t)) as Pf.
  set (f := Json.frac_len (skipn n t)) in *.
  pose proof (exp_printable (skipn (n + f) t)) as Pe.
  set (e := Json.exp_len (skipn (n + f) t)) in *.
  intros M.
  assert (Len : n + f + e = List.length t).
  { destruct (f + e) eqn:FE; injection M as _ M; lia. }
  rewrite <- (firstn_skipn n t), printable_app, Pn. simpl.
  rewrite <- (firstn_skipn f (skipn n t)), printable_app, Pf. simpl.
  rewrite skipn_skipn, (Nat.add_comm f n).
  rewrite <- (firstn_all (skipn (n + f) t)) .
  rewrite length_skipn. replace (List.length t - (n + f)) with e by lia.
  exact Pe.
Qed.

Lemma float_printable (f : pyfloat) :
  forallb printable (Json.encode_float f) = true.
Proof.
  destruct f as [lexeme | | |]; try reflexivity. cbn [Json.encode_float].
  pose proof (Json.floatstr_text lexeme) as T. unfold Json.is_float_text in T.
  apply orb_true_iff in T as [T | T];
    [apply orb_true_iff in T as [T | T];
     [apply orb_true_iff in T as [T | T] |] |].
  - destruct (Json.match_number (Json.floatstr lexeme))
      as [[v n] |] eqn:M; [| discriminate].
    destruct v; try discriminate. apply Nat.eqb_eq in T. subst n.
    exact (number_printable _ _ M).
  - apply pystr_eqb_eq in T. now rewrite T.
  - apply pystr_eqb_eq in T. now rewrite T.
  - apply pystr_eqb_eq in T. now rewrite T.
Qed.

Lemma int_text_printable (z : Z) : forallb printable (str_of_Z z) = true.
Proof.
  destruct (match_number_int z) as [v M]. exact (number_printable _ _ M).
Qed.

Lemma hex_digit_printable (n : N) :
  (n < 16)%N -> printable (Json.hex_digit n) = true.
Proof.
  intros B. unfold Json.hex_digit, printable.
  destruct (N.ltb_spec n 10); apply andb_true_iff; split; apply N.leb_le; lia.
Qed.

Lemma u_escape_printable (n : N) : forallb printable (Json.u_escape n) = true.
Proof.
  unfold Json.u_escape. cbn [forallb].
  rewrite !hex_digit_printable by (apply N.mod_lt; discriminate).
  reflexivity.
Qed.

Lemma escape_char_printable (c : N) :
  forallb printable (Json.escape_char c) = true.
Proof.
  unfold Json.escape_char.
  repeat match goal with
         | |- context [if (c =? ?k)%N then _ else _] =>
             destruct (c =? k)%N; [reflexivity |]
         end.
  destruct ((32 <=? c)%N && (c <=? 126)%N) eqn:P.
  - simpl. unfold printable. now rewrite P.
  - destruct (c <? 65536)%N.
    + apply u_escape_printable.
    + now rewrite printable_app, !u_escape_printable.
Qed.

Lemma string_printable (s : pystr) :
  forallb printable (Json.encode_basestring_ascii s) = true.
Proof.
  unfold Json.encode_basestring_ascii. rewrite !printable_app.
  assert (P : forallb printable (flat_map Json.escape_char s) = true).
  { induction s as [|c s IH]; cbn [flat_map]; [reflexivity |].
    now rewrite printable_app, escape_char_printable. }
  rewrite P. reflexivity.
Qed.

Lemma items_printable (l : list pyobj) (text : pystr) :
  Forall (fun o => forall level t,
             Json.iterencode None level o = Ok t ->
             forallb printable t = true) l ->
  forall level,
    Json.encode_items (Json.iterencode None level)
      (Json.item_separator None level) l = Ok text ->
    forallb printable text = true.
Proof.
  intros F level. revert text.
  induction F as [|y l Py _ IH]; intros text E; simpl in E.
  - now injection E as <-.
  - unfold rbind in E.
    destruct (Json.iterencode None level y) as [ty |] eqn:Ey; [| discriminate].
    destruct (Json.encode_items _ _ l) as [tl |]; [| discriminate].
    match type of E with
    | Ok ?x = Ok _ => assert (Et : text = x) by congruence
    end.
    subst text. cbn [forallb].
    rewrite !printable_app, (Py _ _ Ey), (IH _ eq_refl). reflexivity.
Qed.

Lemma members_printable (l : list (pystr * pyobj)) (text : pystr) :
  Forall (fun kv => forall level t,
             Json.iterencode None level (snd kv) = Ok t ->
             forallb printable t = true) l ->
  forall level,
    Json.encode_members (Json.iterencode None level)
      (Json.item_separator None level) l = Ok text ->
    forallb printable text = true.
Proof.
  intros F level. revert text.
  induction F as [|kv l Pv _ IH]; intros text E.
  - simpl in E. now injection E as <-.
  - rewrite encode_members_cons in E. unfold rbind in E.
    destruct (Json.iterencode None level (snd kv)) as [tv |] eqn:Ev;
      [| discriminate].
    destruct (Json.encode_members _ _ l) as [tl |]; [| discriminate].
    match type of E with
    | Ok ?x = Ok _ => assert (Et : text = x) by congruence
    end.
    subst text. unfold Json.item_separator, Json.key_separator.
    rewrite !printable_app, string_printable, (Pv _ _ Ev), (IH _ eq_refl).
    reflexivity.
Qed.

(** Without an indent the encoder writes printable ASCII only. *)
Lemma iterencode_printable (v : pyobj) :
  forall level text,
    Json.iterencode None level v = Ok text -> forallb printable text = true.
Proof.
  induction v as [ | b | z | f | k | l IH | d IH | n] using pyobj_induction;
    intros level text E; cbn [Json.iterencode] in E.
  - now injection E as <-.
  - destruct b; now injection E as <-.
  - injection E as <-. apply int_text_printable.
  - injection E as <-. apply float_printable.
  - injection E as <-. apply string_printable.
  - destruct l as [|x rest]; [now injection E as <- |].
    unfold rbind in E.
    destruct (Json.iterencode None (S level) x) as [tx |] eqn:Ex;
      [| discriminate].
    destruct (Json.encode_items _ _ rest) as [tl |] eqn:El; [| discriminate].
    match type of E with
    | Ok ?x = Ok _ => assert (Et : text = x) by congruence
    end.
    subst text. inversion IH as [|? ? Px Prest]; subst.
    unfold Json.newline_indent.
    rewrite !printable_app, (Px _ _ Ex), (items_printable rest tl Prest _ El).
    reflexivity.
  - destruct d as [|kv rest]; [now injection E as <- |].
    unfold rbind in E.
    destruct (Json.iterencode None (S level) (snd kv)) as [tv |] eqn:Ev;
      [| discriminate].
    destruct (Json.encode_members _ _ rest) as [tl |] eqn:El; [| discriminate].
    match type of E with
    | Ok ?x = Ok _ => assert (Et : text = x) by congruence
    end.
    subst text. inversion IH as [|? ? Pv Prest]; subst.
    unfold Json.newline_indent, Json.key_separator.
    rewrite !printable_app, string_printable, (Pv _ _ Ev),
      (members_printable rest tl Prest _ El).
    reflexivity.
  - discriminate E.
Qed.

(** The line the one-shot adapter prints is one line of printable ASCII:
    every character lies between the space and the tilde, so the line
    holds no line feed and no other control character, whatever the model
    put into its output. *)
Theorem printed_line_is_printable_ascii (from_pretrained : result Llama)
  (stdin : pystr) :
  stdin <> [] ->
  exists line st,
    Inference.main from_pretrained stdin Inference.start = (Ok tt, st) /\
    Inference.stdout st = [line] /\
    forallb printable line = true /\
    ~ In 10%N line.
Proof.
  intros NE.
  destruct (main_prints_object from_pretrained stdin NE)
    as (d & line & st & R & O & E & _).
  exists line, st. repeat split; try assumption.
  - exact (iterencode_printable _ 0 line E).
  - intros I.
    pose proof (iterencode_printable _ 0 line E) as P.
    rewrite forallb_forall in P. specialize (P _ I). discriminate P.
Qed.

End Printable.

(* ================================================================== *)
(** * The round trip through the encoder and the decoder *)

Section ExactStrings.

(** What the encoder writes for a scalar value, with what the decoder
    makes of it. *)
Lemma escape_char_decodes (c : N) :
  scalar c = true ->
  (exists e,
      Json.escape_char c = [92%N; e] /\ (e =? 117)%N = false /\
      Json.backslash e = Some c) \/
  (Json.escape_char c = [c] /\ (c =? 34)%N = false /\ (c =? 92)%N = false /\
   (c <=? 31)%N = false) \/
  (Json.escape_char c = Json.u_escape c /\ (c < 65536)%N /\
   Json.is_high_surrogate c = false) \/
  (exists hi lo,
      Json.escape_char c = Json.u_escape hi ++ Json.u_escape lo /\
      (hi < 65536)%N /\ (lo < 65536)%N /\
      Json.is_high_surrogate hi = true /\ Json.is_low_surrogate lo = true /\
      (65536 + (hi - 55296) * 1024 + (lo - 56320))%N = c).
Proof.
  intros Sc. unfold Json.escape_char.
  destruct (N.eqb_spec c 34) as [-> | N34].
  { left. exists 34%N. repeat split. }
  destruct (N.eqb_spec c 92) as [-> | N92].
  { left. exists 92%N. repeat split. }
  destruct (N.eqb_spec c 10) as [-> | N10].
  { left. exists 110%N. repeat split. }
  destruct (N.eqb_spec c 13) as [-> | N13].
  { left. exists 114%N. repeat split. }
  destruct (N.eqb_spec c 9) as [-> | N9].
  { left. exists 116%N. repeat split. }
  destruct (N.eqb_spec c 8) as [-> | N8].
  { left. exists 98%N. repeat split. }
  destruct (N.eqb_spec c 12) as [-> | N12].
  { left. exists 102%N. repeat split. }
  destruct ((32 <=? c)%N && (c <=? 126)%N) eqn:Plain.
  { right. left. apply andb_true_iff in Plain as [Lo Hi].
    apply N.leb_le in Lo.
    repeat split. apply N.leb_gt. lia. }
  assert (R : (c < 55296 \/ 57343 < c < 1114112)%N).
  { unfold scalar in Sc. apply orb_true_iff in Sc as [Sc | Sc].
    - left. now apply N.ltb_lt.
    - right. apply andb_true_iff in Sc as [A B].
      apply N.ltb_lt in A, B. lia. }
  destruct (N.ltb_spec c 65536) as [Small | Big].
  { right. right. left. split; [reflexivity |]. split; [exact Small |].
    unfold Json.is_high_surrogate. apply andb_false_iff.
    destruct R as [R | R]; [left | right]; apply N.leb_gt; lia. }
  right. right. right.
  exists (55296 + ((c - 65536) / 1024) mod 1024)%N,
         (56320 + (c - 65536) mod 1024)%N.
  pose proof (N.mod_lt ((c - 65536) / 1024) 1024 ltac:(discriminate)) as Bh.
  pose proof (N.mod_lt (c - 65536) 1024 ltac:(discriminate)) as Bl.
  assert (Q : ((c - 65536) / 1024 < 1024)%N).
  { apply N.Div0.div_lt_upper_bound. lia. }
  pose proof (N.div_mod (c - 65536) 1024 ltac:(discriminate)) as DM.
  rewrite (N.mod_small _ _ Q) in *.
  unfold Json.is_high_surrogate, Json.is_low_surrogate.
  split; [reflexivity |].
  generalize dependent ((c - 65536) / 1024)%N.
  generalize dependent ((c - 65536) mod 1024)%N.
  intros lo Blo hi Bhi Q DM.
  repeat split; try lia.
  - apply andb_true_iff. split; apply N.leb_le; lia.
  - apply andb_true_iff. split; apply N.leb_le; lia.
Qed.

(** The loop of [scanstring] decodes what the encoder wrote for a string
    of scalar values to that very string. *)
Lemma scanstring_loop_exact (k : pystr) :
  forallb scalar k = true ->
  forall s begin pos acc fuel post,
    suffix_at s pos (flat_map Json.escape_char k ++ dq ++ post) ->
    List.length s - pos < fuel ->
    Json.scanstring_loop fuel s begin pos acc
    = Ok (rev acc ++ k, pos + List.length (flat_map Json.escape_char k) + 1).
Proof.
  induction k as [|c k IH]; intros Sk s begin pos acc fuel post A B;
    (destruct fuel as [|fuel]; [lia |]); cbn [Json.scanstring_loop].
  - simpl in A. rewrite (suffix_at_nth0 _ _ _ _ A). simpl.
    rewrite List.app_nil_r. f_equal. f_equal. lia.
  - cbn [forallb] in Sk. apply andb_true_iff in Sk as [Sc Sk].
    cbn [flat_map] in *. rewrite <- app_assoc in A.
    rewrite length_app.
    pose proof (suffix_at_length _ _ _ A) as Len.
    assert (Acc : forall x, rev (x :: acc) ++ k = rev acc ++ x :: k).
    { intros x. simpl. now rewrite <- app_assoc. }
    destruct (escape_char_decodes c Sc)
      as [(e & E & Ne & Bs) | [(E & N34 & N92 & N31) | [(E & Small & NH)
          | (hi & lo & E & Bh & Bl & Hh & Hl & V)]]].
    + rewrite E in *. simpl in A, Len.
      rewrite (suffix_at_nth0 _ _ _ _ A), (suffix_at_nth1 _ _ _ _ _ A).
      cbn [N.eqb Pos.eqb]. rewrite Ne, Bs.
      pose proof (suffix_at_app s pos [92%N; e] _ A) as A'. simpl in A'.
      rewrite (IH Sk s begin (pos + 2) (c :: acc) fuel post A' ltac:(lia)).
      rewrite Acc. f_equal. f_equal. simpl. lia.
    + rewrite E in *. simpl in A, Len.
      rewrite (suffix_at_nth0 _ _ _ _ A). rewrite N34, N92, N31.
      pose proof (suffix_at_cons _ _ _ _ A) as A'.
      rewrite (IH Sk s begin (S pos) (c :: acc) fuel post A' ltac:(lia)).
      rewrite Acc. f_equal. f_equal. simpl. lia.
    + destruct (hex4_u_escape c Small) as (h1 & h2 & h3 & h4 & U & X).
      rewrite E, U in *. simpl in A, Len.
      rewrite (suffix_at_nth0 _ _ _ _ A), (suffix_at_nth1 _ _ _ _ _ A).
      cbn [N.eqb Pos.eqb].
      destruct (suffix_at_escape _ _ _ _ _ _ _ _ _ A) as (F4 & A6 & L6).
      rewrite length_app in L6. simpl in L6.
      destruct (Nat.leb_spec (List.length s) (pos + 6)); [lia |].
      rewrite F4, X, NH. cbn [andb].
      rewrite (IH Sk s begin (pos + 6) (c :: acc) fuel post A6 ltac:(lia)).
      rewrite Acc. f_equal. f_equal. simpl. lia.
    + destruct (hex4_u_escape hi Bh) as (h1 & h2 & h3 & h4 & U & X).
      destruct (hex4_u_escape lo Bl) as (g1 & g2 & g3 & g4 & W & Y).
      rewrite E, U, W in *. simpl in A, Len.
      rewrite (suffix_at_nth0 _ _ _ _ A), (suffix_at_nth1 _ _ _ _ _ A).
      cbn [N.eqb Pos.eqb].
      destruct (suffix_at_escape _ _ _ _ _ _ _ _ _ A) as (F4 & A6 & L6).
      destruct (suffix_at_escape _ _ _ _ _ _ _ _ _ A6) as (G4 & A12 & L12).
      rewrite length_app in L12. simpl in L12.
      destruct (Nat.leb_spec (List.length s) (pos + 6)); [lia |].
      rewrite F4, X, Hh.
      destruct (Nat.ltb_spec (pos + 6 + 6) (List.length s)); [| lia].
      rewrite (suffix_at_skipn _ _ _ A6).
      cbn [Json.starts_with N.eqb Pos.eqb andb].
      rewrite G4, Y, Hl, V.
      rewrite (IH Sk s begin (pos + 6 + 6) (c :: acc) fuel post A12
                 ltac:(lia)).
      rewrite Acc. f_equal. f_equal. simpl. lia.
Qed.

(** [scanstring] decodes the encoding of a string of scalar values to the
    string. *)
Lemma scanstring_exact (k : pystr) (s : pystr) (idx : nat) (post : pystr) :
  forallb scalar k = true ->
  suffix_at s idx (Json.encode_basestring_ascii k ++ post) ->
  Json.scanstring s (S idx)
  = Ok (k, idx + List.length (Json.encode_basestring_ascii k)).
Proof.
  intros Sk A. unfold Json.encode_basestring_ascii in *.
  rewrite <- !app_assoc in A. simpl in A.
  pose proof (suffix_at_length _ _ _ A) as Len.
  apply suffix_at_cons in A.
  unfold Json.scanstring.
  rewrite (scanstring_loop_exact k Sk s (S idx - 1) (S idx) []
             (S (List.length s)) post A ltac:(lia)).
  f_equal. f_equal. rewrite !length_app. simpl. lia.
Qed.

End ExactStrings.

Section ExactNumbers.

Lemma digits_value_acc (d : Decimal.uint) (acc : positive) :
  fold_left (fun a c => (10 * a + (Z.of_N c - 48))%Z)
    (str (NilEmpty.string_of_uint d)) (Z.pos acc)
  = Z.pos (Pos.of_uint_acc d acc).
Proof.
  revert acc. induction d; intros acc; cbn [NilEmpty.string_of_uint];
    try reflexivity;
    change (str (String ?a ?r)) with (N_of_ascii a :: str r);
    cbn [fold_left Pos.of_uint_acc]; rewrite <- IHd; f_equal;
    unfold N_of_ascii, N_of_digits; cbn [Z.of_N]; lia.
Qed.

(** The digits of a decimal number read as the number. *)
Lemma digits_value (d : Decimal.uint) :
  Json.nat_of_digits (str (NilEmpty.string_of_uint d))
  = Z.of_N (Pos.of_uint d).
Proof.
  unfold Json.nat_of_digits.
  induction d; cbn [NilEmpty.string_of_uint Pos.of_uint];
    try reflexivity;
    change (str (String ?a ?r)) with (N_of_ascii a :: str r);
    cbn [fold_left]; [exact IHd | ..];
    cbn [Z.of_N]; rewrite <- digits_value_acc; reflexivity.
Qed.

Lemma pos_digits_value (p : positive) :
  Json.nat_of_digits (str (NilEmpty.string_of_uint (Pos.to_uint p)))
  = Z.pos p.
Proof. now rewrite digits_value, DecimalPos.Unsigned.of_to. Qed.

(** [str(z)] is read by the decoder as the integer [z]. *)
Lemma match_number_int_exact (z : Z) :
  Json.match_number (str_of_Z z)
  = Some (PyInt z, List.length (str_of_Z z)).
Proof.
  unfold str_of_Z, Z.to_int, NilZero.string_of_int.
  destruct z as [| p | p].
  - reflexivity.
  - destruct (pos_digits_head p) as (c & rest & E & Dg & N0 & N45 & All).
    pose proof (pos_digits_value p) as V.
    unfold NilZero.string_of_uint.
    replace (match Pos.to_uint p with
             | Decimal.Nil => "0"%string
             | _ => NilEmpty.string_of_uint (Pos.to_uint p)
             end) with (NilEmpty.string_of_uint (Pos.to_uint p))
      by (pose proof (DecimalPos.Unsigned.to_uint_nonnil p);
          now destruct (Pos.to_uint p)).
    rewrite E in *. unfold Json.match_number, Json.int_len.
    rewrite N45, N0, Dg, All.
    rewrite skipn_all2 by (simpl; lia). cbn [Json.frac_len].
    rewrite skipn_all2 by (simpl; lia). cbn [Json.exp_len Nat.add].
    change (S (List.length rest)) with (List.length (c :: rest)).
    rewrite firstn_all. unfold Json.int_of_lexeme. rewrite N45, V.
    reflexivity.
  - destruct (pos_digits_head p) as (c & rest & E & Dg & N0 & N45 & All).
    pose proof (pos_digits_value p) as V.
    unfold NilZero.string_of_uint.
    replace (match Pos.to_uint p with
             | Decimal.Nil => "0"%string
             | _ => NilEmpty.string_of_uint (Pos.to_uint p)
             end) with (NilEmpty.string_of_uint (Pos.to_uint p))
      by (pose proof (DecimalPos.Unsigned.to_uint_nonnil p);
          now destruct (Pos.to_uint p)).
    change (str (String "-" (NilEmpty.string_of_uint (Pos.to_uint p))))
      with (45%N :: str (NilEmpty.string_of_uint (Pos.to_uint p))).
    rewrite E in *. unfold Json.match_number, Json.int_len.
    cbn [N.eqb Pos.eqb]. rewrite N0, Dg, All.
    rewrite skipn_all2 by (simpl; lia). cbn [Json.frac_len].
    rewrite skipn_all2 by (simpl; lia). cbn [Json.exp_len Nat.add].
    change (S (S (List.length rest))) with (List.length (45%N :: c :: rest)).
    rewrite firstn_all. unfold Json.int_of_lexeme.
    cbn [N.eqb Pos.eqb]. rewrite V. reflexivity.
Qed.

(** A number that fills its text is read as the same number when a
    delimiter follows. *)
Lemma match_number_app_exact (t post : pystr) (v : pyobj) :
  Json.match_number t = Some (v, List.length t) ->
  delimited post = true ->
  Json.match_number (t ++ post) = Some (v, List.length t).
Proof.
  unfold Json.match_number. intros M D.
  destruct (Json.int_len t) as [n |] eqn:I; [| discriminate].
  pose proof (int_len_le t n I) as Ln.
  rewrite (int_len_app t post n (delimited_digits post D) I).
  assert (S1 : skipn n (t ++ post) = skipn n t ++ post).
  { rewrite skipn_app. now replace (n - List.length t) with 0 by lia. }
  rewrite S1, frac_len_app by exact D.
  pose proof (frac_len_le (skipn n t)) as Lf. rewrite length_skipn in Lf.
  set (f := Json.frac_len (skipn n t)) in *.
  assert (S2 : skipn (n + f) (t ++ post) = skipn (n + f) t ++ post).
  { rewrite skipn_app. now replace (n + f - List.length t) with 0 by lia. }
  rewrite S2, exp_len_app by exact D.
  set (e := Json.exp_len (skipn (n + f) t)) in *.
  destruct (f + e) eqn:FE.
  - injection M as <- M. rewrite firstn_app.
    replace (n - List.length t) with 0 by lia.
    cbn [firstn]. now rewrite List.app_nil_r, M.
  - injection M as <- M. rewrite firstn_app.
    replace (n + f + e - List.length t) with 0 by lia.
    cbn [firstn]. now rewrite List.app_nil_r, M.
Qed.

End ExactNumbers.

Section ExactValues.

Context `{Json.Runtime}.

Lemma scan_number_exact (t post s : pystr) (idx fuel : nat) (v : pyobj) :
  suffix_at s idx (t ++ post) ->
  Json.match_number t = Some (v, List.length t) ->
  delimited post = true ->
  Json.scan_once (S fuel) s idx = Ok (v, idx + List.length t).
Proof.
  intros A M D.
  destruct (number_head t v _ M) as (c & t' & E & Hc).
  destruct (number_head_tests c Hc) as (T1 & T2 & T3 & T4 & T5 & T6).
  pose proof (match_number_app_exact t post v M D) as M'.
  cbn [Json.scan_once].
  rewrite !(char_is_at s idx _ _ A), (suffix_at_skipn s idx _ A).
  rewrite M'. subst t. cbn [app Json.starts_with str map list_ascii_of_string].
  rewrite T1, T2, T3.
  change (N_of_ascii "n") with 110%N. change (N_of_ascii "t") with 116%N.
  change (N_of_ascii "f") with 102%N.
  rewrite T4, T5, T6. cbn [andb]. reflexivity.
Qed.

Lemma scan_constant_exact (t post s : pystr) (idx fuel : nat) (v : pyobj) :
  suffix_at s idx (t ++ post) ->
  In (t, v) [(str "null", PyNone); (str "true", PyBool true);
             (str "false", PyBool false); (str "NaN", PyFloat FloatNaN);
             (str "Infinity", PyFloat FloatInf);
             (str "-Infinity", PyFloat FloatNegInf)] ->
  Json.scan_once (S fuel) s idx = Ok (v, idx + List.length t).
Proof.
  intros A I. cbn [Json.scan_once].
  rewrite !(char_is_at s idx _ _ A), (suffix_at_skipn s idx _ A).
  simpl in I.
  destruct I as [I | [I | [I | [I | [I | [I | []]]]]]];
    injection I as <- <-; reflexivity.
Qed.

Lemma scan_string_exact (k post s : pystr) (idx fuel : nat) :
  forallb scalar k = true ->
  suffix_at s idx (Json.encode_basestring_ascii k ++ post) ->
  Json.scan_once (S fuel) s idx
  = Ok (PyStr k, idx + List.length (Json.encode_basestring_ascii k)).
Proof.
  intros Sk A. pose proof (scanstring_exact k s idx post Sk A) as R.
  cbn [Json.scan_once].
  rewrite (char_is_at s idx _ 34%N A).
  unfold Json.encode_basestring_ascii at 1. cbn [app dq N.eqb Pos.eqb].
  rewrite R. reflexivity.
Qed.

(** A number that fills its text and is a [float] is the [float] of that
    text. *)
Lemma float_lexeme_value (l : pystr) (f : pyfloat) :
  Json.match_number l = Some (PyFloat f, List.length l) -> f = FloatLit l.
Proof.
  unfold Json.match_number.
  destruct (Json.int_len l) as [n |]; [| discriminate].
  destruct (_ + _); [discriminate |].
  intros [= <- E]. now rewrite E, firstn_all.
Qed.

Lemma scan_float_exact (f : pyfloat) (post s : pystr) (idx fuel : nat) :
  canonical (PyFloat f) = true ->
  suffix_at s idx (Json.encode_float f ++ post) ->
  delimited post = true ->
  Json.scan_once (S fuel) s idx
  = Ok (PyFloat f, idx + List.length (Json.encode_float f)).
Proof.
  intros C A D. destruct f as [lexeme | | |]; cbn [Json.encode_float] in *.
  - cbn [canonical] in C. unfold float_lexeme in C.
    destruct (Json.match_number lexeme) as [[v n] |] eqn:M; [| discriminate].
    destruct v as [ | | | f | | | | ]; try discriminate.
    apply andb_true_iff in C as [Cn Cf].
    apply Nat.eqb_eq in Cn. apply pystr_eqb_eq in Cf. subst n.
    rewrite Cf in *.
    rewrite (float_lexeme_value lexeme f M) in M.
    exact (scan_number_exact _ post s idx fuel _ A M D).
  - apply (scan_constant_exact _ post s idx fuel _ A). simpl. tauto.
  - apply (scan_constant_exact _ post s idx fuel _ A). simpl. tauto.
  - apply (scan_constant_exact _ post s idx fuel _ A). simpl. tauto.
Qed.

End ExactValues.

Section ExactContainers.

Context `{Json.Runtime}.

Variable indent : option nat.

(** [d[k] = v] appends when [k] is no key of [d]. *)
Lemma dict_set_fresh (d : list (pystr * pyobj)) (k : pystr) (v : pyobj) :
  existsb (fun k' => pystr_eqb k' k) (map fst d) = false ->
  dict_set d k v = d ++ [(k, v)].
Proof.
  induction d as [|[k' v'] d IH]; simpl; [reflexivity |].
  intros A. apply orb_false_iff in A as [Ak Ad].
  rewrite Ak. now rewrite IH.
Qed.

Lemma distinct_middle (a : list pystr) (k : pystr) (r : list pystr) :
  distinct (a ++ k :: r) = true ->
  existsb (fun k' => pystr_eqb k' k) a = false.
Proof.
  induction a as [|x a IH]; simpl; [reflexivity |].
  intros D. apply andb_true_iff in D as [Dx Da].
  apply negb_true_iff in Dx. rewrite existsb_app in Dx.
  apply orb_false_iff in Dx as [_ Dx]. simpl in Dx.
  apply orb_false_iff in Dx as [Dx _].
  rewrite Dx. simpl. now apply IH.
Qed.

(** [dict(pairs)] is [pairs] when no key comes twice. *)
Lemma dict_of_pairs_distinct_id (pairs : list (pystr * pyobj)) :
  distinct (map fst pairs) = true -> dict_of_pairs pairs = pairs.
Proof.
  unfold dict_of_pairs.
  assert (G : forall acc,
             distinct (map fst (acc ++ pairs)) = true ->
             fold_left (fun d kv => dict_set d (fst kv) (snd kv)) pairs acc
             = acc ++ pairs).
  { induction pairs as [|[k v] pairs IH]; intros acc D; simpl.
    - now rewrite List.app_nil_r.
    - rewrite map_app in D. simpl in D.
      rewrite (dict_set_fresh acc k v (distinct_middle _ _ _ D)).
      rewrite IH; rewrite <- app_assoc; [reflexivity |].
      now rewrite map_app. }
  intros D. now apply (G []).
Qed.

(** The loop of [JSONArray] reads the items the encoder wrote as those
    items. *)
Lemma array_items_exact (level : nat) (rest : list pyobj) :
  Forall (reads_exactly indent) rest ->
  forall x tx tl,
    reads_exactly indent x ->
    Json.iterencode indent (S level) x = Ok tx ->
    Json.encode_items (Json.iterencode indent (S level))
      (Json.item_separator indent (S level)) rest = Ok tl ->
    forall s e values fuel post,
      suffix_at s e
        (tx ++ tl ++ Json.newline_indent indent level ++ 93%N :: post) ->
      2 * (List.length s - e) + 2 <= fuel ->
      Json.array_items fuel s e values
      = Ok (PyList (values ++ x :: rest),
            e + List.length tx + List.length tl
            + List.length (Json.newline_indent indent level) + 1).
Proof.
  induction 1 as [|y rest Py Prest IH];
    intros x tx tl Px Ex El s e values fuel post A B;
    (destruct fuel as [|fuel]; [lia |]); cbn [Json.array_items];
    pose proof (suffix_at_length _ _ _ A) as Len;
    rewrite ?length_app in Len; cbn [List.length] in Len.
  - simpl in El. injection El as <-. cbn [app] in *.
    rewrite (Px (S level) tx Ex s e _ fuel A
               (delimited_close indent level 93%N post (or_introl eq_refl))
               ltac:(lia)).
    unfold rbind. cbn [fst snd].
    pose proof (suffix_at_app _ _ _ _ A) as A1.
    rewrite (skip_ws_over s _ _ 93%N post A1 (newline_indent_ws _ _) eq_refl).
    pose proof (suffix_at_app _ _ _ _ A1) as A2.
    rewrite (char_is_at s _ _ 93%N A2). cbn [N.eqb Pos.eqb].
    f_equal. f_equal. simpl. lia.
  - cbn [Json.encode_items] in El. unfold rbind in El.
    destruct (Json.iterencode indent (S level) y) as [ty |] eqn:Ey;
      [| discriminate].
    destruct (Json.encode_items _ _ rest) as [tl' |] eqn:El'; [| discriminate].
    injection El as <-.
    destruct (item_separator_shape indent (S level)) as (ws & Sep & W).
    rewrite Sep in *. cbn [app] in A. rewrite <- !app_assoc in A.
    destruct (encoded_head indent y (S level) ty Ey) as (c & t & Ety & Vc).
    destruct (value_head_tests c Vc) as (Wc & _).
    rewrite (Px (S level) tx Ex s e _ fuel A eq_refl ltac:(lia)).
    unfold rbind. cbn [fst snd].
    pose proof (suffix_at_app _ _ _ _ A) as A1.
    rewrite (skip_ws_at s _ _ A1), (ws_len_head 44%N _ eq_refl), Nat.add_0_r.
    rewrite !(char_is_at s _ _ _ A1). cbn [N.eqb Pos.eqb].
    pose proof (suffix_at_cons _ _ _ _ A1) as A2.
    rewrite Ety in A2. cbn [app] in A2.
    rewrite (skip_ws_over s _ ws c _ A2 W Wc).
    pose proof (suffix_at_app _ _ _ _ A2) as A3.
    change (c :: t ++ tl' ++ Json.newline_indent indent level ++ 93%N :: post)
      with ((c :: t) ++ tl' ++ Json.newline_indent indent level
            ++ 93%N :: post) in A3.
    rewrite <- Ety in A3.
    rewrite ?length_app in Len. cbn [List.length] in Len.
    rewrite ?length_app in Len.
    rewrite (IH y ty tl' Py Ey eq_refl s _ (values ++ [x]) fuel post A3
               ltac:(lia)).
    rewrite <- app_assoc. cbn [app]. f_equal. f_equal.
    rewrite ?length_app. cbn [List.length]. rewrite ?length_app. lia.
Qed.

(** The loop of [JSONObject] reads the members the encoder wrote as those
    members. *)
Lemma object_members_exact (level : nat) (rest : list (pystr * pyobj)) :
  Forall (fun kv => forallb scalar (fst kv) = true /\
                    reads_exactly indent (snd kv)) rest ->
  forall k v tv tl,
    forallb scalar k = true ->
    reads_exactly indent v ->
    Json.iterencode indent (S level) v = Ok tv ->
    Json.encode_members (Json.iterencode indent (S level))
      (Json.item_separator indent (S level)) rest = Ok tl ->
    forall s e pairs fuel post,
      suffix_at s e
        (Json.encode_basestring_ascii k ++ Json.key_separator ++ tv ++ tl
         ++ Json.newline_indent indent level ++ 125%N :: post) ->
      2 * (List.length s - S e) + 1 <= fuel ->
      Json.object_members fuel s (S e) pairs
      = Ok (PyDict (dict_of_pairs (pairs ++ (k, v) :: rest)),
            e + List.length (Json.encode_basestring_ascii k) + 2
            + List.length tv + List.length tl
            + List.length (Json.newline_indent indent level) + 1).
Proof.
  induction 1 as [|[k2 y] rest [Sk2 Py] Prest IH];
    intros k v tv tl Sk Pv Ev El s e pairs fuel post A B;
    (destruct fuel as [|fuel]; [lia |]); cbn [Json.object_members];
    pose proof (suffix_at_length _ _ _ A) as Len;
    rewrite ?length_app in Len; cbn [List.length] in Len;
    rewrite (scanstring_exact k s e _ Sk A); unfold rbind; cbn [fst snd];
    pose proof (suffix_at_app _ _ _ _ A) as A1;
    unfold Json.key_separator in A1; cbn [str map list_ascii_of_string app] in A1;
    change (N_of_ascii ":") with 58%N in A1;
    change (N_of_ascii " ") with 32%N in A1;
    rewrite (skip_ws_at s _ _ A1), (ws_len_head 58%N _ eq_refl), Nat.add_0_r;
    rewrite (char_is_at s _ _ 58%N A1); cbn [N.eqb Pos.eqb];
    pose proof (suffix_at_cons _ _ _ _ A1) as A2;
    destruct (encoded_head indent v (S level) tv Ev) as (c & t & Etv & Vc);
    destruct (value_head_tests c Vc) as (Wc & _);
    rewrite Etv in A2; cbn [app] in A2;
    rewrite (skip_ws_over s _ [32%N] c _ A2 eq_refl Wc);
    pose proof (suffix_at_app s _ [32%N] _ A2) as A3;
    change (c :: t ++ tl ++ Json.newline_indent indent level ++ 125%N :: post)
      with ((c :: t) ++ tl ++ Json.newline_indent indent level
            ++ 125%N :: post) in A3;
    rewrite <- Etv in A3;
    unfold Json.key_separator in Len; cbn [str map list_ascii_of_string
                                           List.length] in Len.
  - simpl in El. injection El as <-. cbn [app] in *.
    rewrite (Pv (S level) tv Ev s _ _ fuel A3
               (delimited_close indent level 125%N post (or_intror eq_refl))
               ltac:(cbn [List.length] in *; lia)).
    cbn [fst snd].
    pose proof (suffix_at_app _ _ _ _ A3) as A4.
    rewrite (skip_ws_over s _ _ 125%N post A4 (newline_indent_ws _ _) eq_refl).
    pose proof (suffix_at_app _ _ _ _ A4) as A5.
    rewrite (char_is_at s _ _ 125%N A5). cbn [N.eqb Pos.eqb].
    f_equal. f_equal. cbn [List.length]. lia.
  - rewrite encode_members_cons in El. unfold rbind, fst, snd in El.
    destruct (Json.iterencode indent (S level) y) as [ty |] eqn:Ey;
      [| discriminate].
    destruct (Json.encode_members _ _ rest) as [tl' |] eqn:El';
      [| discriminate].
    match type of El with
    | Ok ?x = Ok _ => assert (Etl : tl = x) by congruence
    end.
    subst tl. clear El.
    destruct (item_separator_shape indent (S level)) as (ws & Sep & W).
    rewrite Sep in *. rewrite <- !app_assoc, <- app_comm_cons in A3.
    rewrite (Pv (S level) tv Ev s _ _ fuel A3 eq_refl
               ltac:(cbn [List.length] in *; lia)).
    cbn [fst snd].
    pose proof (suffix_at_app _ _ _ _ A3) as A4.
    rewrite (skip_ws_at s _ _ A4), (ws_len_head 44%N _ eq_refl), Nat.add_0_r.
    rewrite !(char_is_at s _ _ _ A4). cbn [N.eqb Pos.eqb].
    pose proof (suffix_at_cons _ _ _ _ A4) as A5.
    rewrite (key_head k2) in A5.
    rewrite (skip_ws_over s _ ws 34%N _ A5 W eq_refl).
    pose proof (suffix_at_app _ _ _ _ A5) as A6.
    rewrite (char_is_at s _ _ 34%N A6). cbn [N.eqb Pos.eqb].
    rewrite <- (key_head k2) in A6.
    simpl snd in *. simpl fst in *.
    rewrite ?length_app in Len. cbn [List.length] in Len.
    rewrite ?length_app in Len. cbn [List.length] in Len.
    pose proof (eq_refl : List.length Json.key_separator = 2) as Lks.
    etransitivity;
      [exact (IH k2 y ty tl' Sk2 Py Ey eq_refl s _
                (pairs ++ [(k, v)]) fuel post A6
                ltac:(cbn [List.length] in *; lia)) |].
    rewrite <- app_assoc. cbn [app]. f_equal. f_equal.
    rewrite ?length_app. cbn [List.length]. rewrite ?length_app.
    cbn [List.length]. lia.
Qed.

(** The scanner reads the encoding of a canonical object back as the
    object. *)
Lemma canonical_reads_exactly (v : pyobj) :
  canonical v = true -> reads_exactly indent v.
Proof.
  induction v as [ | b | z | f | k | l IH | d IH | n] using pyobj_induction;
    intros C level text E s idx post fuel A D B;
    (destruct fuel as [|fuel]; [lia |]).
  - injection E as <-. apply (scan_constant_exact _ post s idx fuel _ A).
    simpl. tauto.
  - destruct b; injection E as <-;
      apply (scan_constant_exact _ post s idx fuel _ A); simpl; tauto.
  - injection E as <-.
    exact (scan_number_exact _ post s idx fuel _ A
             (match_number_int_exact z) D).
  - injection E as <-. exact (scan_float_exact f post s idx fuel C A D).
  - injection E as <-. exact (scan_string_exact k post s idx fuel C A).
  - pose proof (suffix_at_length _ _ _ A) as Len.
    destruct l as [|x rest].
    + injection E as <-. cbn [Json.scan_once].
      rewrite !(char_is_at s idx _ _ A). simpl.
      pose proof (suffix_at_cons _ _ _ _ A) as A1.
      rewrite (skip_ws_at s _ _ A1), (ws_len_head 93%N _ eq_refl), Nat.add_0_r.
      rewrite (char_is_at s _ _ 93%N A1). simpl.
      f_equal. f_equal. lia.
    + cbn [Json.iterencode] in E. unfold rbind in E.
      destruct (Json.iterencode indent (S level) x) as [tx |] eqn:Ex;
        [| discriminate].
      destruct (Json.encode_items _ _ rest) as [tl |] eqn:El; [| discriminate].
      match type of E with
      | Ok ?t = Ok _ => assert (Et : text = t) by congruence
      end.
      subst text. clear E.
      cbn [canonical forallb] in C. apply andb_true_iff in C as [Cx Crest].
      inversion IH as [|? ? Px Prest]; subst.
      assert (Rrest : Forall (reads_exactly indent) rest).
      { rewrite forallb_forall in Crest. rewrite Forall_forall in *.
        intros o I. apply Prest; auto. }
      destruct (encoded_head indent x (S level) tx Ex) as (c & t & Etx & Vc).
      destruct (value_head_tests c Vc) as (Wc & N93 & _).
      change (str "[") with [91%N] in *. change (str "]") with [93%N] in *.
      rewrite <- !app_assoc in A, Len. cbn [app] in A.
      cbn [Json.scan_once].
      rewrite !(char_is_at s idx _ _ A). cbn [N.eqb Pos.eqb].
      pose proof (suffix_at_cons _ _ _ _ A) as A1.
      rewrite Etx in A1. rewrite <- app_comm_cons in A1.
      rewrite (skip_ws_over s _ _ c _ A1 (newline_indent_ws _ _) Wc).
      pose proof (suffix_at_app _ _ _ _ A1) as A2.
      rewrite (char_is_at s _ _ 93%N A2). rewrite N93.
      rewrite app_comm_cons, <- Etx in A2.
      rewrite ?length_app in Len. cbn [List.length] in Len.
      rewrite (array_items_exact level rest Rrest x tx tl (Px Cx) Ex El s _ []
                 fuel post A2 ltac:(lia)).
      cbn [app]. f_equal. f_equal.
      rewrite ?length_app. cbn [List.length]. rewrite ?length_app.
      cbn [List.length]. lia.
  - pose proof (suffix_at_length _ _ _ A) as Len.
    destruct d as [|[k v] rest].
    + injection E as <-. cbn [Json.scan_once].
      rewrite !(char_is_at s idx _ _ A). simpl.
      pose proof (suffix_at_cons _ _ _ _ A) as A1.
      rewrite (skip_ws_at s _ _ A1), (ws_len_head 125%N _ eq_refl), Nat.add_0_r.
      rewrite !(char_is_at s _ _ _ A1). simpl.
      f_equal. f_equal. lia.
    + cbn [Json.iterencode] in E. unfold rbind, fst, snd in E.
      destruct (Json.iterencode indent (S level) v) as [tv |] eqn:Ev;
        [| discriminate].
      destruct (Json.encode_members _ _ rest) as [tl |] eqn:El;
        [| discriminate].
      match type of E with
      | Ok ?t = Ok _ => assert (Et : text = t) by congruence
      end.
      subst text. clear E.
      pose proof C as Cd.
      cbn [canonical] in C. apply andb_true_iff in C as [Dk C].
      cbn [forallb fst snd] in C.
      apply andb_true_iff in C as [Ckv Crest].
      apply andb_true_iff in Ckv as [Sk Cv].
      inversion IH as [|? ? Pv Prest]; subst. simpl in Pv.
      assert (Rrest : Forall (fun kv => forallb scalar (fst kv) = true /\
                                        reads_exactly indent (snd kv)) rest).
      { rewrite forallb_forall in Crest. rewrite Forall_forall in *.
        intros kv I. specialize (Crest kv I).
        apply andb_true_iff in Crest as [S1 C1]. split; [exact S1 |].
        apply Prest; auto. }
      change (str "{") with [123%N] in *. change (str "}") with [125%N] in *.
      rewrite <- !app_assoc in A, Len. cbn [app] in A.
      cbn [Json.scan_once].
      rewrite !(char_is_at s idx _ _ A). cbn [N.eqb Pos.eqb].
      pose proof (suffix_at_cons _ _ _ _ A) as A1.
      rewrite (key_head k) in A1.
      rewrite (skip_ws_over s _ _ 34%N _ A1 (newline_indent_ws _ _) eq_refl).
      pose proof (suffix_at_app _ _ _ _ A1) as A2.
      rewrite (char_is_at s _ _ 34%N A2). cbn [N.eqb Pos.eqb].
      rewrite <- (key_head k) in A2.
      rewrite ?length_app in Len. cbn [List.length] in Len.
      pose proof (eq_refl : List.length Json.key_separator = 2) as Lks.
      rewrite (object_members_exact level rest Rrest k v tv tl Sk (Pv Cv)
                 Ev El s _ [] fuel post A2 ltac:(lia)).
      cbn [app]. f_equal. f_equal.
      * f_equal. exact (dict_of_pairs_distinct_id _ Dk).
      * rewrite ?length_app. cbn [List.length]. rewrite ?length_app.
        cbn [List.length]. lia.
  - discriminate C.
Qed.

End ExactContainers.

Section ExactRoundTrip.

Context `{Json.Runtime}.

(** [json.loads(json.dumps(o)) == o] for a canonical object, with or
    without an indent. *)
Lemma loads_dumps_exact (indent : option nat) (v : pyobj) (text : pystr) :
  canonical v = true ->
  Json.dumps indent v = Ok text -> Json.loads text = Ok v.
Proof.
  intros C E. unfold Json.dumps in E.
  destruct (encoded_head indent v 0 text E) as (c & t & Et & Vc).
  destruct (value_head_tests c Vc) as (Wc & _).
  assert (A : suffix_at text 0 (text ++ [])).
  { rewrite List.app_nil_r. apply suffix_at_start. }
  pose proof (canonical_reads_exactly indent v C 0 text E text 0 []
                (2 * List.length text + 2) A eq_refl ltac:(lia)) as R.
  unfold Json.loads.
  assert (NB : Json.starts_with [65279%N] text = false).
  { rewrite Et. cbn [Json.starts_with].
    destruct (N.eqb_spec 65279 c) as [<- | NE]; [discriminate Vc | reflexivity]. }
  assert (W0 : Json.skip_ws text 0 = 0).
  { unfold Json.skip_ws. rewrite Et. simpl. now rewrite Wc. }
  rewrite NB, W0, R. unfold rbind. cbn [fst snd Nat.add].
  unfold Json.skip_ws. rewrite skipn_all. simpl.
  rewrite Nat.add_0_r, Nat.eqb_refl. reflexivity.
Qed.

End ExactRoundTrip.

Section RoundTrips.

Context `{Json.Runtime}.



(** The encoding of a verdict, spelled out. *)
Lemma dumps_verdict_text (a b c : pystr) :
  Json.dumps None (verdict a b c)
  = Ok (str "{" ++ Json.encode_basestring_ascii (str "systemStatus")
        ++ str ": " ++ Json.encode_basestring_ascii a ++ str ", "
        ++ Json.encode_basestring_ascii (str "action")
        ++ str ": " ++ Json.encode_basestring_ascii b ++ str ", "
        ++ Json.encode_basestring_ascii (str "explanation")
        ++ str ": " ++ Json.encode_basestring_ascii c ++ str "}").
Proof.
  unfold Json.dumps, verdict. cbn [Json.iterencode Json.encode_members rbind
    fst snd Json.item_separator Json.newline_indent Json.key_separator].
  rewrite <- !app_assoc. reflexivity.
Qed.

Lemma verdict_canonical (a b c : pystr) :
  forallb scalar a = true -> forallb scalar b = true ->
  forallb scalar c = true -> canonical (verdict a b c) = true.
Proof.
  intros Sa Sb Sc. unfold verdict. cbn [canonical map fst snd forallb].
  rewrite Sa, Sb, Sc. reflexivity.
Qed.

(** The line printed for a verdict.  It is the three fields in the order
    [systemStatus], [action], [explanation], each value quoted and escaped
    to ASCII, and it decodes to the verdict again. *)
Theorem verdict_line_reads_back (a b c : pystr) :
  forallb scalar a = true -> forallb scalar b = true ->
  forallb scalar c = true ->
  Json.dumps None (verdict a b c)
  = Ok (str "{" ++ Json.encode_basestring_ascii (str "systemStatus")
        ++ str ": " ++ Json.encode_basestring_ascii a ++ str ", "
        ++ Json.encode_basestring_ascii (str "action")
        ++ str ": " ++ Json.encode_basestring_ascii b ++ str ", "
        ++ Json.encode_basestring_ascii (str "explanation")
        ++ str ": " ++ Json.encode_basestring_ascii c ++ str "}") /\
  forall line,
    Json.dumps None (verdict a b c) = Ok line ->
    Json.loads line = Ok (verdict a b c).
Proof.
  intros Sa Sb Sc. split; [apply dumps_verdict_text |].
  intros line E.
  exact (loads_dumps_exact None _ line (verdict_canonical a b c Sa Sb Sc) E).
Qed.

(** When the span decodes to a canonical object, the line the one-shot
    adapter prints decodes to that object: the caller reads what the model
    wrote. *)
Theorem printed_object_reads_back (stdin : pystr) (ctx : pyobj) (ser : pystr)
  (model : Llama) (raw : pystr) (parsed : pyobj) :
  Json.loads stdin = Ok ctx ->
  Json.dumps (Some 2) ctx = Ok ser ->
  create_chat_completion model
    (spec_prompt Inference.SYSTEM_INSTRUCTION ser) = Ok raw ->
  has_brace_span raw ->
  Json.loads (outer_brace_span raw) = Ok parsed ->
  canonical parsed = true ->
  exists line,
    Inference.stdout (snd (Inference.main (Ok model) stdin Inference.start))
    = [line] /\
    Json.loads line = Ok parsed.
Proof.
  intros L D G Hs P C.
  destruct (main_span_decodes stdin ctx L model ser D raw G parsed Hs P)
    as (line & E & R).
  exists line. rewrite R. split; [reflexivity |].
  exact (loads_dumps_exact None parsed line C E).
Qed.

(** A well-formed answer passes through untouched: when the raw output is
    the encoding of a canonical [dict], possibly with text without an
    opening brace before it and text without a closing brace after it, the
    one-shot adapter prints that encoding, character for character, and the
    service answers 200 with the [dict]. *)
Theorem encoded_object_passes_through (stdin : pystr) (ctx : pyobj)
  (ser : pystr) (d : list (pystr * pyobj)) (line pre post : pystr) :
  Json.loads stdin = Ok ctx ->
  Json.dumps (Some 2) ctx = Ok ser ->
  canonical (PyDict d) = true ->
  Json.dumps None (PyDict d) = Ok line ->
  ~ In lbrace pre -> ~ In rbrace post ->
  Inference.stdout
    (snd (Inference.main (Ok (answering (pre ++ line ++ post))) stdin
            Inference.start)) = [line] /\
  fst (Server.inference (answering (pre ++ line ++ post)) (Ok ctx)
         Server.start)
  = Ok {| Server.json := PyDict d; Server.status_code := 200 |}.
Proof.
  intros L D C E N1 N2.
  destruct (dumps_dict_shape None d line E) as [body Sh].
  set (raw := pre ++ line ++ post).
  assert (Sp : has_brace_span raw /\ outer_brace_span raw = line).
  { unfold raw. rewrite Sh. now apply span_of_shape. }
  destruct Sp as [Hs Sp].
  assert (P : Json.loads (outer_brace_span raw) = Ok (PyDict d)).
  { rewrite Sp. exact (loads_dumps_exact None _ line C E). }
  split.
  - destruct (main_span_decodes stdin ctx L (answering raw) ser D raw eq_refl
                _ Hs P) as (line' & E' & R).
    rewrite R. cbn [snd Inference.stdout]. congruence.
  - now rewrite (inference_span_decodes (answering raw) ctx ser D raw eq_refl
                   _ Hs P).
Qed.

(** The prompt loses nothing of the context: two canonical contexts whose
    prompts are the same, under the same system instruction, are the same
    context. *)
Theorem prompt_determines_context (systemInstruction : pystr)
  (ctx ctx' : pyobj) (ser ser' : pystr) :
  canonical ctx = true -> canonical ctx' = true ->
  Json.dumps (Some 2) ctx = Ok ser ->
  Json.dumps (Some 2) ctx' = Ok ser' ->
  spec_prompt systemInstruction ser = spec_prompt systemInstruction ser' ->
  ctx = ctx'.
Proof.
  intros C C' D D' E. unfold spec_prompt in E.
  do 5 apply app_inv_head in E. apply app_inv_tail in E. subst ser'.
  pose proof (loads_dumps_exact (Some 2) ctx ser C D) as R.
  pose proof (loads_dumps_exact (Some 2) ctx' ser C' D') as R'.
  congruence.
Qed.

End RoundTrips.

(* ================================================================== *)
(** * The messages of the decoder *)

Section DecoderMessages.

Context `{Json.Runtime}.

Lemma printable_scalar (t : pystr) :
  forallb printable t = true -> forallb scalar t = true.
Proof.
  rewrite !forallb_forall. intros P c I. specialize (P c I).
  unfold printable in P. unfold scalar.
  apply andb_true_iff in P as [_ Hi]. apply N.leb_le in Hi.
  apply orb_true_iff. left. apply N.ltb_lt. lia.
Qed.

Lemma str_of_N_printable (n : N) : forallb printable (str_of_N n) = true.
Proof.
  replace (str_of_N n) with (str_of_Z (Z.of_N n)) by now destruct n.
  apply int_text_printable.
Qed.

(** The [str] of a decode error is printable when its message is. *)
Lemma JSONDecodeError_printable (msg doc : pystr) (pos : nat) :
  forallb printable msg = true ->
  forallb printable (str_of_exn (Json.JSONDecodeError msg doc pos)) = true.
Proof.
  intros P. unfold Json.JSONDecodeError. cbn [str_of_exn].
  rewrite !printable_app, P, !str_of_N_printable, int_text_printable.
  reflexivity.
Qed.

Ltac cases H :=
  repeat match type of H with
  | context [match ?x with _ => _ end] =>
      let E := fresh "E" in destruct x eqn:E; try discriminate H
  end.

(** A raised decode error with a literal message. *)
Ltac literal H :=
  injection H as <-;
  first [ apply JSONDecodeError_printable; reflexivity | reflexivity ].

Lemma scanstring_loop_message (fuel : nat) :
  forall s begin pos acc e,
    Json.scanstring_loop fuel s begin pos acc = Raise e ->
    forallb printable (str_of_exn e) = true.
Proof.
  induction fuel as [|fuel IH]; intros s begin pos acc e R;
    cbn [Json.scanstring_loop] in R.
  - literal R.
  - cases R; try (literal R); try (eapply IH; exact R).
Qed.

Lemma scanstring_message (s : pystr) (end_ : nat) (e : exn) :
  Json.scanstring s end_ = Raise e ->
  forallb printable (str_of_exn e) = true.
Proof. apply scanstring_loop_message. Qed.

(** What an earlier call raised is covered. *)
Ltac raised :=
  match goal with
  | R : Raise ?e0 = Raise ?e |- _ => injection R as <-
  end;
  match goal with
  | E : Json.scanstring _ _ = Raise _ |- _ =>
      exact (scanstring_message _ _ _ E)
  | IH : forall s idx e, Json.scan_once ?f s idx = Raise e -> _,
    E : Json.scan_once ?f _ _ = Raise _ |- _ => exact (IH _ _ _ E)
  end.

(** Every message of the decoder is printable ASCII. *)
Lemma scan_message (fuel : nat) :
  (forall s idx e,
      Json.scan_once fuel s idx = Raise e ->
      forallb printable (str_of_exn e) = true) /\
  (forall s e_ pairs e,
      Json.object_members fuel s e_ pairs = Raise e ->
      forallb printable (str_of_exn e) = true) /\
  (forall s e_ values e,
      Json.array_items fuel s e_ values = Raise e ->
      forallb printable (str_of_exn e) = true).
Proof.
  induction fuel as [|fuel (IHs & IHo & IHa)].
  - repeat split; intros s idx; intros; simpl in *;
      match goal with R : Raise _ = Raise _ |- _ => literal R end.
  - repeat split.
    + intros s idx e R. cbn [Json.scan_once] in R. unfold rbind in R.
      cases R; try (literal R); try raised.
      * eapply IHo; exact R.
      * eapply IHa; exact R.
    + intros s e_ pairs e R. cbn [Json.object_members] in R.
      unfold rbind in R.
      cases R; try (literal R); try raised.
      eapply IHo; exact R.
    + intros s e_ values e R. cbn [Json.array_items] in R.
      unfold rbind in R.
      cases R; try (literal R); try raised.
      eapply IHa; exact R.
Qed.

Lemma loads_message (s : pystr) (e : exn) :
  Json.loads s = Raise e -> forallb printable (str_of_exn e) = true.
Proof.
  unfold Json.loads, rbind. intros R.
  cases R; try (literal R).
  injection R as <-.
  match goal with
  | E : Json.scan_once _ _ _ = Raise _ |- _ =>
      exact (proj1 (scan_message _) _ _ _ E)
  end.
Qed.


(** The decoder's own failures reach the caller intact.  When the input of
    the one-shot adapter does not decode, or the span of the raw output
    does not, the printed line decodes to the verdict that carries the
    decoder's message, whatever the text that failed to decode: the
    message is printable ASCII. *)
Theorem decode_failure_lines_read_back (from_pretrained : result Llama)
  (stdin : pystr) :
  stdin <> [] ->
  (forall e,
      Json.loads stdin = Raise e ->
      exists line,
        Inference.stdout
          (snd (Inference.main from_pretrained stdin Inference.start))
        = [line] /\
        Json.loads line
        = Ok (verdict (str "Error") (str "None")
                (str "Reason: Inference exception " ++ str_of_exn e))) /\
  (forall ctx ser model raw e,
      from_pretrained = Ok model ->
      Json.loads stdin = Ok ctx ->
      Json.dumps (Some 2) ctx = Ok ser ->
      create_chat_completion model
        (spec_prompt Inference.SYSTEM_INSTRUCTION ser) = Ok raw ->
      has_brace_span raw ->
      Json.loads (outer_brace_span raw) = Raise e ->
      exists line,
        Inference.stdout
          (snd (Inference.main from_pretrained stdin Inference.start))
        = [line] /\
        Json.loads line
        = Ok (verdict (str "Error") (str "None")
                (str "Reason: Parsing exception " ++ str_of_exn e))).
Proof.
  intros NE.
  assert (Back : forall prefix e line,
             forallb printable (str_of_exn e) = true ->
             Json.dumps None
               (verdict (str "Error") (str "None")
                  (str prefix ++ str_of_exn e)) = Ok line ->
             forallb scalar (str prefix) = true ->
             Json.loads line
             = Ok (verdict (str "Error") (str "None")
                     (str prefix ++ str_of_exn e))).
  { intros prefix e line P E Sp.
    apply (loads_dumps_exact None _ line); [| exact E].
    apply verdict_canonical; try reflexivity.
    rewrite forallb_app, Sp. now apply printable_scalar. }
  split.
  - intros e L.
    destruct (main_invalid_stdin from_pretrained stdin e NE L)
      as (line & E & R).
    exists line. rewrite R. split; [reflexivity |].
    exact (Back _ e line (loads_message stdin e L) E eq_refl).
  - intros ctx ser model raw e -> L D G Hs P.
    destruct (main_span_fails stdin ctx L model ser D raw G e Hs P)
      as (line & E & R).
    exists line. rewrite R. split; [reflexivity |].
    exact (Back _ e line (loads_message _ e P) E eq_refl).
Qed.

End DecoderMessages.

(* ================================================================== *)
(** * The theorems on sample runs *)

Section Samples.

#[local] Existing Instance literal_floats.

(** Decide a statement about a concrete raw output or run by evaluation. *)
Ltac by_evaluation := vm_compute; reflexivity.

Lemma refusal_has_no_span : no_brace_span raw_refusal.
Proof. apply guard_false_iff. by_evaluation. Qed.

Lemma wrapped_has_span : has_brace_span raw_wrapped.
Proof. apply guard_true_iff. by_evaluation. Qed.

Lemma explanation_only_has_span : has_brace_span raw_explanation_only.
Proof. apply guard_true_iff. by_evaluation. Qed.

Lemma malformed_has_span : has_brace_span raw_malformed.
Proof. apply guard_true_iff. by_evaluation. Qed.


(** C2 as stated fails in the service: for the output [I cannot comply.],
    which has no brace at all, the explanation of the answer is not
    [Reason: Output parsing error.]. *)
Lemma service_fallback_is_worded_differently :
  no_brace_span raw_refusal /\
  exists response,
    fst (Server.inference (answering raw_refusal) (Ok sample_context)
           Server.start) = Ok response /\
    field (Server.json response) "explanation"
      = Some (PyStr (str "Reason: System check complete.")) /\
    field (Server.json response) "explanation"
      <> Some (PyStr (str "Reason: Output parsing error.")).
Proof.
  split; [exact refusal_has_no_span |].
  eexists. split; [by_evaluation |].
  split; [by_evaluation |].
  vm_compute. discriminate.
Qed.

(** C2, as amended, on the output [I cannot comply.]. *)
Lemma no_span_fallback_sample :
  (exists line,
      Json.dumps None
        (verdict (str "Monitoring.") (str "Review log.")
           (str "Reason: Output parsing error.")) = Ok line /\
      Inference.main (Ok (answering raw_refusal)) sample_stdin Inference.start =
        (Ok tt, {| Inference.llm := Some (answering raw_refusal);
                   Inference.stdout := [line];
                   Inference.generations :=
                     [spec_prompt Inference.SYSTEM_INSTRUCTION
                        sample_serialized] |})) /\
  fst (Server.inference (answering raw_refusal) (Ok sample_context)
         Server.start) =
    Ok {| Server.json :=
            verdict (str "Monitoring.") (str "Continue normal activities.")
                    (str "Reason: System check complete.");
          Server.status_code := 200 |}.
Proof.
  apply (no_span_fallback sample_stdin sample_context sample_serialized
           (answering raw_refusal) (answering raw_refusal) raw_refusal).
  - by_evaluation.
  - by_evaluation.
  - reflexivity.
  - reflexivity.
  - exact refusal_has_no_span.
Defined.


(** C4 as stated fails in the service: for an output with both braces that
    is not JSON the answer has status 500, its [systemStatus] is not
    [Error] and its explanation does not begin with
    [Reason: Parsing exception]. *)
Lemma service_parse_failure_is_worded_differently :
  has_brace_span raw_malformed /\
  Json.loads (outer_brace_span raw_malformed) = Raise malformed_error /\
  exists response explanation,
    fst (Server.inference (answering raw_malformed) (Ok sample_context)
           Server.start) = Ok response /\
    Server.status_code response = 500%N /\
    field (Server.json response) "systemStatus"
      = Some (PyStr (str "Error. Monitoring active.")) /\
    field (Server.json response) "systemStatus" <> Some (PyStr (str "Error")) /\
    field (Server.json response) "action" <> Some (PyStr (str "None")) /\
    field (Server.json response) "explanation" = Some (PyStr explanation) /\
    Json.starts_with (str "Reason: Parsing exception") explanation = false.
Proof.
  split; [exact malformed_has_span |].
  split; [by_evaluation |].
  eexists. eexists. split; [by_evaluation |].
  split; [by_evaluation |].
  split; [by_evaluation |].
  split; [vm_compute; discriminate |].
  split; [vm_compute; discriminate |].
  split; by_evaluation.
Qed.

(** C4, as amended, on that output. *)
Lemma undecodable_span_fallback_sample :
  (exists line,
      Json.dumps None
        (verdict (str "Error") (str "None")
           (str "Reason: Parsing exception " ++ str_of_exn malformed_error))
        = Ok line /\
      Inference.main (Ok (answering raw_malformed)) sample_stdin
        Inference.start =
        (Ok tt, {| Inference.llm := Some (answering raw_malformed);
                   Inference.stdout := [line];
                   Inference.generations :=
                     [spec_prompt Inference.SYSTEM_INSTRUCTION
                        sample_serialized] |})) /\
  fst (Server.inference (answering raw_malformed) (Ok sample_context)
         Server.start) =
    Ok {| Server.json :=
            verdict (str "Error. Monitoring active.") (str "None.")
                    (str "Reason: " ++ str_of_exn malformed_error);
          Server.status_code := 500 |}.
Proof.
  apply (undecodable_span_fallback sample_stdin sample_context
           sample_serialized (answering raw_malformed)
           (answering raw_malformed) raw_malformed malformed_error).
  - by_evaluation.
  - by_evaluation.
  - reflexivity.
  - reflexivity.
  - exact malformed_has_span.
  - by_evaluation.
Defined.




(** C7 on a schedule of two requests: the first thread is generating, the
    second waits at [with lock:], and the lock is held. *)
Lemma single_flight_sample :
  Lock.pcs (Lock.exec [(0, false); (1, false); (0, false); (1, false);
                       (0, false); (1, false)] Lock.start) 0 = Lock.Generating /\
  Lock.pcs (Lock.exec [(0, false); (1, false); (0, false); (1, false);
                       (0, false); (1, false)] Lock.start) 1 = Lock.Waiting /\
  Lock.locked (Lock.exec [(0, false); (1, false); (0, false); (1, false);
                          (0, false); (1, false)] Lock.start) = true.
Proof.
  split; [reflexivity |]. split; [reflexivity |].
  apply (proj1 (single_flight _) 0). reflexivity.
Defined.



(** The output [{"systemStatus": "Low",] has no closing brace: the one-shot
    variant answers with the fallback for a missing span. *)
Lemma unclosed_brace_sample :
  exists line,
    Json.dumps None
      (verdict (str "Monitoring.") (str "Review log.")
         (str "Reason: Output parsing error.")) = Ok line /\
    Inference.main (Ok (answering raw_truncated)) sample_stdin Inference.start =
      (Ok tt, {| Inference.llm := Some (answering raw_truncated);
                 Inference.stdout := [line];
                 Inference.generations :=
                   [spec_prompt Inference.SYSTEM_INSTRUCTION
                      sample_serialized] |}).
Proof.
  apply (unclosed_brace_is_no_json_found sample_stdin sample_context
           sample_serialized (answering raw_truncated) raw_truncated).
  - by_evaluation.
  - by_evaluation.
  - reflexivity.
  - left. reflexivity.
  - apply rfind_absent. by_evaluation.
Defined.

(** The output [{"capacity": NaN}] is printed back as it reads. *)
Lemma nonfinite_constant_sample :
  Inference.main (Ok (answering raw_nonfinite)) sample_stdin Inference.start =
    (Ok tt, {| Inference.llm := Some (answering raw_nonfinite);
               Inference.stdout := [raw_nonfinite];
               Inference.generations :=
                 [spec_prompt Inference.SYSTEM_INSTRUCTION
                    sample_serialized] |}).
Proof.
  apply (nonfinite_constant_is_printed sample_stdin sample_context
           sample_serialized (answering raw_nonfinite) raw_nonfinite
           (str "capacity")).
  - by_evaluation.
  - by_evaluation.
  - reflexivity.
  - apply guard_true_iff. by_evaluation.
  - by_evaluation.
Defined.

(** [get_model] on a fresh process, and again with a loader that would
    fail. *)
Lemma get_model_loads_once_sample :
  Inference.llm
    {| Inference.llm := Some (answering raw_wrapped);
       Inference.stdout := []; Inference.generations := [] |}
  = Some (answering raw_wrapped) /\
  Inference.stdout
    {| Inference.llm := Some (answering raw_wrapped);
       Inference.stdout := []; Inference.generations := [] |}
  = Inference.stdout Inference.start /\
  Inference.generations
    {| Inference.llm := Some (answering raw_wrapped);
       Inference.stdout := []; Inference.generations := [] |}
  = Inference.generations Inference.start /\
  Inference.get_model (Raise out_of_memory)
    {| Inference.llm := Some (answering raw_wrapped);
       Inference.stdout := []; Inference.generations := [] |}
  = (Ok (answering raw_wrapped),
     {| Inference.llm := Some (answering raw_wrapped);
        Inference.stdout := []; Inference.generations := [] |}).
Proof.
  apply (get_model_loads_once (Ok (answering raw_wrapped))
           (Raise out_of_memory) Inference.start).
  reflexivity.
Defined.

(** The log of a request whose model wraps a verdict in other text. *)
Lemma response_record_sample :
  exists rest,
    Server.log (snd (Server.inference (answering raw_wrapped)
                       (Ok sample_context) Server.start))
    = str "Running local Mistral inference..."
      :: (str "Response: " ++ firstn 100 raw_wrapped ++ str "...")
      :: rest /\
    List.length (str "Response: " ++ firstn 100 raw_wrapped ++ str "...")
    <= 113 /\
    (rest = [] \/ exists e, rest = [str "Inference error: " ++ str_of_exn e]).
Proof.
  apply (response_record_is_truncated (answering raw_wrapped) sample_context
           sample_serialized raw_wrapped).
  - by_evaluation.
  - reflexivity.
Defined.


(** A thread that has just taken the lock leaves the [with] block after
    three steps when nothing raises. *)
Lemma holder_leaves_sample :
  exists n,
    n <= 4 /\
    Lock.pcs
      (Lock.exec ([(0, false); (0, false)]
                  ++ map (pair 0) (firstn n [false; false; false; false]))
         Lock.start) 0 = Lock.Done /\
    Lock.locked
      (Lock.exec ([(0, false); (0, false)]
                  ++ map (pair 0) (firstn n [false; false; false; false]))
         Lock.start) = false.
Proof.
  apply (holder_leaves_within_four_steps [(0, false); (0, false)] 0
           false false false false).
  reflexivity.
Defined.

Lemma preamble_has_no_brace : ~ In lbrace preamble.
Proof. apply find_absent. by_evaluation. Qed.

Lemma line_feed_has_no_brace : ~ In rbrace nl.
Proof. apply rfind_absent. by_evaluation. Qed.

(** An object announced by a sentence and followed by a line feed is
    answered like the object alone. *)
Lemma surrounding_text_sample :
  Inference.stdout
    (snd (Inference.main
            (Ok (answering
                   (preamble
                    ++ ([lbrace] ++ body_explanation_only ++ [rbrace])
                    ++ nl)))
            sample_stdin Inference.start))
  = Inference.stdout
      (snd (Inference.main
              (Ok (answering ([lbrace] ++ body_explanation_only ++ [rbrace])))
              sample_stdin Inference.start)) /\
  fst (Server.inference
         (answering
            (preamble ++ ([lbrace] ++ body_explanation_only ++ [rbrace])
             ++ nl))
         (Ok sample_context) Server.start)
  = fst (Server.inference
           (answering ([lbrace] ++ body_explanation_only ++ [rbrace]))
           (Ok sample_context) Server.start).
Proof.
  apply (surrounding_text_is_ignored sample_stdin (Ok sample_context)
           preamble body_explanation_only nl).
  - exact preamble_has_no_brace.
  - exact line_feed_has_no_brace.
Defined.

(** Two objects, one to a line: the decoder stops at the second. *)
Lemma two_objects_sample :
  exists e,
    Json.loads (outer_brace_span ([] ++ raw_two_objects ++ [])) = Raise e /\
    e = Json.JSONDecodeError (str "Extra data") raw_two_objects
          (Json.skip_ws raw_two_objects (List.length first_text)) /\
    (exists line,
       Json.dumps None
         (verdict (str "Error") (str "None")
            (str "Reason: Parsing exception " ++ str_of_exn e)) = Ok line /\
       Inference.stdout
         (snd (Inference.main
                 (Ok (answering ([] ++ raw_two_objects ++ [])))
                 sample_stdin Inference.start)) = [line]) /\
    fst (Server.inference (answering ([] ++ raw_two_objects ++ []))
           (Ok sample_context) Server.start)
    = Ok {| Server.json :=
              verdict (str "Error. Monitoring active.") (str "None.")
                      (str "Reason: " ++ str_of_exn e);
            Server.status_code := 500 |}.
Proof.
  apply (two_objects_are_not_split sample_stdin sample_context
           sample_serialized first_object second_object first_text
           second_text nl [] []).
  - by_evaluation.
  - by_evaluation.
  - by_evaluation.
  - by_evaluation.
  - discriminate.
  - reflexivity.
  - intros [].
  - intros [].
Defined.

(** The message of the decoder for those two objects. *)
Lemma two_objects_message :
  Json.loads raw_two_objects
  = Raise (Exception (str "Extra data: line 2 column 1 (char 9)")).
Proof. by_evaluation. Qed.

(** A text that gives the key [a] twice decodes to a [dict] with the key
    once, holding the last value. *)
Lemma repeated_key_sample :
  Json.loads text_repeated_key = Ok (PyDict [(str "a", PyInt 2)]) /\
  distinct_keys (PyDict [(str "a", PyInt 2)]) = true.
Proof.
  split; [by_evaluation |].
  apply (decoded_keys_are_distinct text_repeated_key). by_evaluation.
Defined.

(** The line printed for the sample input is printable. *)
Lemma printed_line_sample :
  exists line st,
    Inference.main (Ok (answering raw_wrapped)) sample_stdin Inference.start
    = (Ok tt, st) /\
    Inference.stdout st = [line] /\
    forallb printable line = true /\
    ~ In 10%N line.
Proof.
  apply (printed_line_is_printable_ascii (Ok (answering raw_wrapped))
           sample_stdin).
  discriminate.
Defined.


(** The line of the one-shot fallback for a missing span. *)
Lemma verdict_line_sample :
  Json.dumps None
    (verdict (str "Monitoring.") (str "Review log.")
       (str "Reason: Output parsing error."))
  = Ok (str "{" ++ Json.encode_basestring_ascii (str "systemStatus")
        ++ str ": " ++ Json.encode_basestring_ascii (str "Monitoring.")
        ++ str ", " ++ Json.encode_basestring_ascii (str "action")
        ++ str ": " ++ Json.encode_basestring_ascii (str "Review log.")
        ++ str ", " ++ Json.encode_basestring_ascii (str "explanation")
        ++ str ": "
        ++ Json.encode_basestring_ascii (str "Reason: Output parsing error.")
        ++ str "}") /\
  forall line,
    Json.dumps None
      (verdict (str "Monitoring.") (str "Review log.")
         (str "Reason: Output parsing error.")) = Ok line ->
    Json.loads line
    = Ok (verdict (str "Monitoring.") (str "Review log.")
            (str "Reason: Output parsing error.")).
Proof.
  apply (verdict_line_reads_back (str "Monitoring.") (str "Review log.")
           (str "Reason: Output parsing error.")); reflexivity.
Defined.

(** The line printed for an object without [action] decodes to it. *)
Lemma printed_object_sample :
  exists line,
    Inference.stdout
      (snd (Inference.main (Ok (answering raw_explanation_only)) sample_stdin
              Inference.start)) = [line] /\
    Json.loads line = Ok parsed_explanation_only.
Proof.
  apply (printed_object_reads_back sample_stdin sample_context
           sample_serialized (answering raw_explanation_only)
           raw_explanation_only parsed_explanation_only).
  - by_evaluation.
  - by_evaluation.
  - reflexivity.
  - exact explanation_only_has_span.
  - by_evaluation.
  - by_evaluation.
Defined.

(** The encoding of that object, announced by a sentence, is printed as it
    is. *)
Lemma encoded_object_sample :
  Inference.stdout
    (snd (Inference.main
            (Ok (answering (preamble ++ raw_explanation_only ++ nl)))
            sample_stdin Inference.start)) = [raw_explanation_only] /\
  fst (Server.inference (answering (preamble ++ raw_explanation_only ++ nl))
         (Ok sample_context) Server.start)
  = Ok {| Server.json :=
            PyDict [(str "explanation", PyStr (str "Rest now."))];
          Server.status_code := 200 |}.
Proof.
  apply (encoded_object_passes_through sample_stdin sample_context
           sample_serialized
           [(str "explanation", PyStr (str "Rest now."))]
           raw_explanation_only preamble nl).
  - by_evaluation.
  - by_evaluation.
  - by_evaluation.
  - by_evaluation.
  - exact preamble_has_no_brace.
  - exact line_feed_has_no_brace.
Defined.

(** Two contexts with the prompt of the sample input are the sample
    context. *)
Lemma prompt_determines_context_sample :
  sample_context = PyDict [(str "sleepHours", PyInt 3)].
Proof.
  apply (prompt_determines_context Inference.SYSTEM_INSTRUCTION
           sample_context (PyDict [(str "sleepHours", PyInt 3)])
           sample_serialized sample_serialized).
  - by_evaluation.
  - by_evaluation.
  - by_evaluation.
  - by_evaluation.
  - reflexivity.
Defined.

(** The input [not json]: the printed line carries the message of the
    decoder. *)
Lemma decode_failure_sample :
  exists line,
    Inference.stdout
      (snd (Inference.main (Ok (answering raw_wrapped)) (str "not json")
              Inference.start)) = [line] /\
    Json.loads line
    = Ok (verdict (str "Error") (str "None")
            (str "Reason: Inference exception "
             ++ str "Expecting value: line 1 column 1 (char 0)")).
Proof.
  assert (NE : str "not json" <> []) by discriminate.
  apply (proj1 (decode_failure_lines_read_back (Ok (answering raw_wrapped))
                  (str "not json") NE)
           (Exception (str "Expecting value: line 1 column 1 (char 0)"))).
  by_evaluation.
Defined.

End Samples.
